(** * Load balancer simulation: a model of [src/main.js]

    The simulation engine of the repository (requests, servers, the five
    load-balancing algorithms, the driver [LoadBalancerSimulation] and its
    balance statistics) is embedded function by function.  JavaScript numbers
    that are always integral in the program (loads, counters, indices) are
    integers [Z]; the fractional ones (durations, averages, balance scores
    before rounding) are exact rationals [Q].  Where an answer of the program
    depends on the rounding of a double, the double is computed, with the
    binary64 arithmetic of the standard library's [SpecFloat]: in the
    comparison of average response times ([Double.round]), and in the value
    of the balance score ([calculateBalanceScoreDouble]).  [Math.random] and
    [Date.now] are inputs: a sequence of draws from [0, 1) and a clock value
    passed to the operation that reads it.  Rendering (three.js meshes, DOM
    nodes, canvas) is left out; it never feeds back into the state modelled
    here. *)

From Stdlib Require Import ZArith QArith Qround Qabs Qminmax Lia Bool SpecFloat.
From stdpp Require Import base list gmap.

Local Open Scope Z_scope.

(** ** JavaScript primitives *)

Module Js.

(** How a call ends: it returns, it raises a [TypeError] (a property read on
    [undefined]), or the model's loop budget ran out before it returned. *)
Inductive Result (A : Type) : Type :=
| Return (a : A)
| TypeError
| OutOfFuel.
Arguments Return {A} a.
Arguments TypeError {A}.
Arguments OutOfFuel {A}.

(** Code that runs on a mutable state [St]; the state is kept when the call
    throws, as a JavaScript object keeps the writes made before the throw. *)
Definition M (St A : Type) : Type := St -> Result A * St.

Definition ret {St A : Type} (a : A) : M St A := fun s => (Return a, s).

Definition bind {St A B : Type} (m : M St A) (k : A -> M St B) : M St B :=
  fun s =>
    match m s with
    | (Return a, s') => k a s'
    | (TypeError, s') => (TypeError, s')
    | (OutOfFuel, s') => (OutOfFuel, s')
    end.

Definition throw {St A : Type} : M St A := fun s => (TypeError, s).
Definition out_of_fuel {St A : Type} : M St A := fun s => (OutOfFuel, s).

(** [o.p] where [o] may be [undefined]. *)
Definition defined {St A : Type} (o : option A) : M St A :=
  match o with
  | Some a => ret a
  | None => throw
  end.

(** [array[i]]: [undefined] unless [i] is an index of the array. *)
Definition index {A : Type} (array : list A) (i : Z) : option A :=
  if 0 <=? i then array !! Z.to_nat i else None.

(** [array.length]. *)
Definition length {A : Type} (array : list A) : Z := Z.of_nat (List.length array).

(** [a % b] on integral numbers with [b] non zero: the sign follows [a]. *)
Definition rem (a b : Z) : Z := Z.rem a b.

(** [array.forEach((x, index) => ...)], the callback's writes to the
    enclosing variables threaded as [st]. *)
Fixpoint forEach_from {A St : Type} (f : St -> A -> Z -> St) (array : list A)
    (index : Z) (st : St) : St :=
  match array with
  | [] => st
  | x :: rest => forEach_from f rest (index + 1) (f st x index)
  end.

Definition forEach {A St : Type} (f : St -> A -> Z -> St) (array : list A) (st : St) : St :=
  forEach_from f array 0 st.

(** [array.filter(callback)] with a callback whose answer depends on how
    many calls came before: the call for the element at position [i] is the
    call number [first + i]. *)
Fixpoint filter_from {A : Type} (callback : nat -> A -> bool) (array : list A)
    (first : nat) : list A :=
  match array with
  | [] => []
  | x :: rest =>
      if callback first x then x :: filter_from callback rest (S first)
      else filter_from callback rest (S first)
  end.

(** A number that may be [Infinity]. *)
Inductive Ext (K : Type) : Type :=
| Fin (k : K)
| Infinity.
Arguments Fin {K} k.
Arguments Infinity {K}.

(** [x < m] for a finite [x]. *)
Definition lt_ext {K : Type} (ltb : K -> K -> bool) (x : K) (m : Ext K) : bool :=
  match m with
  | Fin y => ltb x y
  | Infinity => true
  end.

(** What the program tests for truthiness. *)
Inductive Value : Type :=
| Undefined
| Boolean (b : bool)
| Function.

Definition truthy (v : Value) : bool :=
  match v with
  | Undefined => false
  | Boolean b => b
  | Function => true
  end.

Definition Qltb (a b : Q) : bool := negb (Qle_bool b a).

End Js.

Declare Scope js_scope.
Delimit Scope js_scope with js.
Notation "'let*' x := m 'in' k" := (Js.bind m (fun x => k))
  (at level 10, x pattern, m at level 100, k at level 200) : js_scope.

(** ** Doubles *)

Module Double.

(** Binary64: 53 bits of mantissa, exponents below 1024.  A double is a
    [spec_float] of the standard library, and the arithmetic is the
    library's IEEE arithmetic at this format: every operation rounds its
    exact result to the nearest double, ties to the even mantissa. *)
Definition prec : Z := 53.
Definition emax : Z := 1024.

Definition fexp : Z -> Z := SpecFloat.fexp prec emax.
Definition round_aux : bool -> Z -> Z -> location -> spec_float := binary_round_aux prec emax.
Definition round_pos : bool -> positive -> Z -> spec_float := binary_round prec emax.

Definition zero : spec_float := S754_zero false.

(** An integral number as a double; exact below [2 ^ 53]. *)
Definition of_Z (n : Z) : spec_float := binary_normalize prec emax n 0 false.

Definition add : spec_float -> spec_float -> spec_float := SFadd prec emax.
Definition sub : spec_float -> spec_float -> spec_float := SFsub prec emax.
Definition mul : spec_float -> spec_float -> spec_float := SFmul prec emax.
Definition div : spec_float -> spec_float -> spec_float := SFdiv prec emax.

(** [a === b] on numbers. *)
Definition eqb : spec_float -> spec_float -> bool := SFeqb.

(** The number a double denotes.  [Infinity] is read as [2 ^ 1024], which is
    above every finite double; no division of this program yields [NaN]. *)
Definition to_Q (x : spec_float) : Q :=
  match x with
  | S754_zero _ => 0
  | S754_nan => 0
  | S754_infinity s => inject_Z (if s then - 2 ^ emax else 2 ^ emax)
  | S754_finite s m e => (inject_Z (if s then Z.neg m else Z.pos m) * 2 ^ e)%Q
  end.

(** The double nearest to a rational, ties to the even mantissa.  The
    quotient is developed to at least 64 bits, with one more bit that tells
    whether anything is left below them, and [binary_normalize] rounds that
    to 53 bits. *)
Definition of_Q (q : Q) : spec_float :=
  let n := Z.abs (Qnum q) in
  let d := Z.pos (Qden q) in
  let k := Z.max 0 (Z.log2 d - Z.log2 n + 64) in
  let (m, r) := Z.div_eucl (Z.shiftl n k) d in
  let sticky := if r =? 0 then 0 else 1 in
  binary_normalize prec emax (Z.sgn (Qnum q) * (2 * m + sticky)) (- k - 1) false.

(** The value of an arithmetic operation on doubles whose exact result is
    [q]: [+], [-], [*] and [/] round their exact result to the nearest
    double. *)
Definition round (q : Q) : Q := to_Q (of_Q q).

(** Not negative and not [NaN]. *)
Definition nonneg (x : spec_float) : Prop :=
  match x with
  | S754_zero _ | S754_finite false _ _ | S754_infinity false => True
  | _ => False
  end.

(** Neither [NaN] nor an infinity. *)
Definition finite (x : spec_float) : Prop :=
  match x with
  | S754_zero _ | S754_finite _ _ _ => True
  | _ => False
  end.

Definition is_zero (x : spec_float) : Prop :=
  match x with
  | S754_zero _ => True
  | _ => False
  end.

(** What rounding returns on a mantissa that is not negative: a zero, a
    finite number with an exponent of the format, or an infinity, of the
    sign asked for. *)
Inductive rounded (s : bool) : spec_float -> Prop :=
| rounded_zero : rounded s (S754_zero s)
| rounded_finite (m : positive) (e : Z) : -1074 <= e -> rounded s (S754_finite s m e)
| rounded_infinity : rounded s (S754_infinity s).

(** A zero, or a finite number of sign [s] whose magnitude is at most the
    integer [B]. *)
Definition bounded (s : bool) (B : Z) (x : spec_float) : Prop :=
  match x with
  | S754_zero _ => True
  | S754_finite s' m e => s' = s /\ e <= 0 /\ Z.pos m <= B * 2 ^ (- e)
  | _ => False
  end.

(** At most [B], or negative. *)
Definition at_most (B : Z) (x : spec_float) : Prop := bounded false B x \/ rounded true x.

Definition nonzero (x : spec_float) : Prop :=
  match x with
  | S754_finite _ _ _ | S754_infinity _ => True
  | _ => False
  end.

(** Zero, or a positive finite number with an exponent of the format. *)
Definition zero_or_positive (x : spec_float) : Prop :=
  match x with
  | S754_zero _ => True
  | S754_finite false _ e => -1074 <= e
  | _ => False
  end.

End Double.

(** ** Math *)

Module Math.

(** A value of [Math.random()]: a number in [0, 1). *)
Record UnitDraw : Type := mkDraw {
  draw : Q;
  draw_unit : Qle_bool 0 draw && Js.Qltb draw 1 = true
}.

(** The values the coming calls of [Math.random()] return, in order. *)
Definition RandState : Type := nat -> UnitDraw.

Definition random : Js.M RandState UnitDraw :=
  fun g => (Js.Return (g 0%nat), fun n => g (S n)).

Definition floor (x : Q) : Z := Qfloor x.

(** Rounds to the nearest integer, halves upwards. *)
Definition round (x : Q) : Z := Qfloor (x + (1 # 2)).

(** [Math.max(x, ...rest)] of at least one number. *)
Definition max (x : Q) (rest : list Q) : Q := fold_left Qmax rest x.

(** [Math.floor(Math.random() * n)]. *)
Definition randomIndex (n : Z) : Js.M RandState Z :=
  (let* u := random in Js.ret (floor (draw u * inject_Z n)))%js.

(** [Math.max(a, b)] on doubles: [NaN] when one of them is. *)
Definition maxDouble (a b : spec_float) : spec_float :=
  match SFcompare a b with
  | Some Lt => b
  | Some _ => a
  | None => S754_nan
  end.

(** The integer nearest to the finite double of sign [s], mantissa [m] and
    exponent [e], halves upwards: the floor of its value plus 1/2. *)
Definition nearest (s : bool) (m : positive) (e : Z) : Z :=
  let v := if s then Z.neg m else Z.pos m in
  if 0 <=? e then v * 2 ^ e else (2 * v + 2 ^ (- e)) / 2 ^ (1 - e).

(** [Math.round(x)] on doubles; [NaN] and the infinities are returned as
    they are. *)
Definition roundDouble (x : spec_float) : spec_float :=
  match x with
  | S754_finite s m e => Double.of_Z (nearest s m e)
  | _ => x
  end.

End Math.

(** ** Request *)

Module Request.

Record t : Type := mk {
  id : Z;
  cpuLoad : Z;
  memoryLoad : Z;
  processingTime : Q;
  startTime : Z
}.

(** [isComplete()] when [Date.now()] reads [now]. *)
Definition isComplete (now : Z) (req : t) : bool :=
  Qle_bool (processingTime req) (inject_Z (now - startTime req)).

(** [getProgress()] when [Date.now()] reads [now]; [Math.min(1, x)] is
    [Qmin 1 x].  The quotient is the JavaScript one for a non-zero
    [processingTime]. *)
Definition getProgress (now : Z) (req : t) : Q :=
  Qmin 1 (inject_Z (now - startTime req) / processingTime req).

End Request.

(** ** Server *)

Module Server.

Record t : Type := mk {
  requests : list Request.t;
  maxCpu : Z;
  maxMemory : Z;
  rejectedRequests : Z;
  completedRequests : Z;
  totalResponseTime : Q
}.

(** [new Server(position)]. *)
Definition new : t :=
  {| requests := [];
     maxCpu := 100;
     maxMemory := 100;
     rejectedRequests := 0;
     completedRequests := 0;
     totalResponseTime := 0 |}.

Definition set_requests (l : list Request.t) (s : t) : t :=
  {| requests := l;
     maxCpu := maxCpu s;
     maxMemory := maxMemory s;
     rejectedRequests := rejectedRequests s;
     completedRequests := completedRequests s;
     totalResponseTime := totalResponseTime s |}.

Definition set_rejectedRequests (n : Z) (s : t) : t :=
  {| requests := requests s;
     maxCpu := maxCpu s;
     maxMemory := maxMemory s;
     rejectedRequests := n;
     completedRequests := completedRequests s;
     totalResponseTime := totalResponseTime s |}.

(** [getAverageResponseTime()], the quotient taken exactly; the double the
    call returns is [Double.round] of it. *)
Definition getAverageResponseTime (s : t) : Q :=
  if completedRequests s =? 0 then 0%Q
  else (totalResponseTime s / inject_Z (completedRequests s))%Q.

Record Load : Type := mkLoad { cpu : Z; memory : Z }.

Definition getCurrentLoad (s : t) : Load :=
  let totalCpu := fold_left (fun sum req => sum + Request.cpuLoad req) (requests s) 0 in
  let totalMemory := fold_left (fun sum req => sum + Request.memoryLoad req) (requests s) 0 in
  {| cpu := totalCpu; memory := totalMemory |}.

Definition canHandleRequest (s : t) (request : Request.t) : bool :=
  let currentLoad := getCurrentLoad s in
  (cpu currentLoad + Request.cpuLoad request <=? maxCpu s)
  && (memory currentLoad + Request.memoryLoad request <=? maxMemory s).

(** [server.canHandleRequest] read as a property, without calling it: the
    method object found on the prototype of every [Server]. *)
Definition canHandleRequest_property (s : t) : Js.Value := Js.Function.

Definition addRequest (s : t) (request : Request.t) : t :=
  set_requests (requests s ++ [request]) s.

(** The callback of [completedNow.forEach]; the sum is the exact one. *)
Definition recordCompletion (s : t) (req : Request.t) : t :=
  {| requests := requests s;
     maxCpu := maxCpu s;
     maxMemory := maxMemory s;
     rejectedRequests := rejectedRequests s;
     completedRequests := completedRequests s + 1;
     totalResponseTime := (totalResponseTime s + Request.processingTime req)%Q |}.

(** [updateRequests()] when [Date.now()] reads [now] in every [isComplete()]
    of the two filters. *)
Definition updateRequests (now : Z) (s : t) : t :=
  let completedNow := List.filter (Request.isComplete now) (requests s) in
  let s' := fold_left recordCompletion completedNow s in
  set_requests (List.filter (fun req => negb (Request.isComplete now req)) (requests s)) s'.

(** [updateRequests()] when the clock moves during the call: the [k]-th
    [Date.now()] of the call, counted from 0, reads [clock k].  The first
    filter reads the clock once for each request, then the second one does. *)
Definition updateRequestsAt (clock : nat -> Z) (s : t) : t :=
  let n := List.length (requests s) in
  let completedNow :=
    Js.filter_from (fun k req => Request.isComplete (clock k) req) (requests s) 0 in
  let s' := fold_left recordCompletion completedNow s in
  set_requests
    (Js.filter_from (fun k req => negb (Request.isComplete (clock (n + k)%nat) req))
       (requests s) 0)
    s'.

End Server.

(** ** The load-balancing algorithms *)

(** [class LoadBalancerAlgorithm]: one method, [selectServer(servers,
    currentIndex)].  Only [RandomAlgorithm] reads the random source. *)
Record LoadBalancerAlgorithm : Type := mkAlgorithm {
  selectServer : list Server.t -> Z -> Js.M Math.RandState Z
}.

Module RoundRobinAlgorithm.

(** The [for] loop from counter [i] on, [todo] iterations before
    [i = servers.length]. *)
Fixpoint loop (servers : list Server.t) (currentIndex i : Z) (todo : nat) : Js.Result Z :=
  match todo with
  | O => Js.Return currentIndex
  | S todo' =>
      let serverIndex := Js.rem (currentIndex + i) (Js.length servers) in
      match Js.index servers serverIndex with
      | None => Js.TypeError
      | Some server =>
          if Js.truthy (Server.canHandleRequest_property server) then Js.Return serverIndex
          else loop servers currentIndex (i + 1) todo'
      end
  end.

Definition selectServer (servers : list Server.t) (currentIndex : Z) : Js.M Math.RandState Z :=
  fun g => (loop servers currentIndex 0 (List.length servers), g).

End RoundRobinAlgorithm.

Module RandomAlgorithm.

(** The [while] loop; [fuel] bounds the iterations the model follows. *)
Fixpoint loop (fuel : nat) (servers : list Server.t) (tried : gset Z) : Js.M Math.RandState Z :=
  if Z.of_nat (size tried) <? Js.length servers then
    match fuel with
    | O => Js.out_of_fuel
    | S fuel' =>
        (let* index := Math.randomIndex (Js.length servers) in
         let* server := Js.defined (Js.index servers index) in
         if Js.truthy (Server.canHandleRequest_property server) then Js.ret index
         else loop fuel' servers ({[ index ]} ∪ tried))%js
    end
  else Math.randomIndex (Js.length servers).

Definition selectServer (fuel : nat) (servers : list Server.t) (currentIndex : Z)
    : Js.M Math.RandState Z :=
  loop fuel servers ∅.

End RandomAlgorithm.

Module LeastRequestsAlgorithm.

Definition visit (st : Js.Ext Z * Z) (server : Server.t) (index : Z) : Js.Ext Z * Z :=
  let '(minRequests, selectedIndex) := st in
  if Js.lt_ext Z.ltb (Js.length (Server.requests server)) minRequests
  then (Js.Fin (Js.length (Server.requests server)), index)
  else (minRequests, selectedIndex).

Definition selectServer (servers : list Server.t) (currentIndex : Z) : Js.M Math.RandState Z :=
  let '(minRequests, selectedIndex) := Js.forEach visit servers (Js.Infinity, 0) in
  Js.ret selectedIndex.

End LeastRequestsAlgorithm.

Module LeastResponseTimeAlgorithm.

(** [server.getAverageResponseTime()] hands over a double: 0, or the
    quotient of the two counters rounded by the division. *)
Definition effectiveTime (server : Server.t) : Q :=
  let avgResponseTime := Double.round (Server.getAverageResponseTime server) in
  if Qeq_bool avgResponseTime 0
  then inject_Z (Js.length (Server.requests server) * 100)
  else avgResponseTime.

Definition visit (st : Js.Ext Q * Z) (server : Server.t) (index : Z) : Js.Ext Q * Z :=
  let '(minResponseTime, selectedIndex) := st in
  if Js.lt_ext Js.Qltb (effectiveTime server) minResponseTime
  then (Js.Fin (effectiveTime server), index)
  else (minResponseTime, selectedIndex).

Definition selectServer (servers : list Server.t) (currentIndex : Z) : Js.M Math.RandState Z :=
  let '(minResponseTime, selectedIndex) := Js.forEach visit servers (Js.Infinity, 0) in
  Js.ret selectedIndex.

End LeastResponseTimeAlgorithm.

Module DynamicAlgorithm.

Definition visit (st : Js.Ext Z * Z) (server : Server.t) (index : Z) : Js.Ext Z * Z :=
  let '(minCpuLoad, selectedIndex) := st in
  let currentLoad := Server.getCurrentLoad server in
  if Js.lt_ext Z.ltb (Server.cpu currentLoad) minCpuLoad
  then (Js.Fin (Server.cpu currentLoad), index)
  else (minCpuLoad, selectedIndex).

Definition selectServer (servers : list Server.t) (currentIndex : Z) : Js.M Math.RandState Z :=
  let '(minCpuLoad, selectedIndex) := Js.forEach visit servers (Js.Infinity, 0) in
  Js.ret selectedIndex.

End DynamicAlgorithm.

(** The keys of the [algorithms] table. *)
Inductive AlgorithmName : Type :=
| RoundRobin
| Random
| LeastRequests
| LeastResponseTime
| DynamicCPU.

Definition algorithms (fuel : nat) (name : AlgorithmName) : LoadBalancerAlgorithm :=
  match name with
  | RoundRobin => mkAlgorithm RoundRobinAlgorithm.selectServer
  | Random => mkAlgorithm (RandomAlgorithm.selectServer fuel)
  | LeastRequests => mkAlgorithm LeastRequestsAlgorithm.selectServer
  | LeastResponseTime => mkAlgorithm LeastResponseTimeAlgorithm.selectServer
  | DynamicCPU => mkAlgorithm DynamicAlgorithm.selectServer
  end.

(** ** The driver *)

Module LoadBalancerSimulation.

Record RequestType : Type := mkType { cpu : Z; memory : Z }.

(** [this.requestTypes], assigned once in the constructor. *)
Definition requestTypes : list RequestType :=
  [ mkType 5 3; mkType 8 4; mkType 4 8; mkType 10 6 ].

Record t : Type := mk {
  algorithm : LoadBalancerAlgorithm;
  numServers : Z;
  servers : list Server.t;
  currentServerIndex : Z;
  requestCount : Z;
  cpuBalanceHistory : list Z;
  memoryBalanceHistory : list Z;
  maxDataPoints : Z;
  totalRejectedRequests : Z
}.

Definition set_algorithm (a : LoadBalancerAlgorithm) (s : t) : t :=
  mk a (numServers s) (servers s) (currentServerIndex s) (requestCount s)
     (cpuBalanceHistory s) (memoryBalanceHistory s) (maxDataPoints s) (totalRejectedRequests s).

Definition set_numServers (n : Z) (s : t) : t :=
  mk (algorithm s) n (servers s) (currentServerIndex s) (requestCount s)
     (cpuBalanceHistory s) (memoryBalanceHistory s) (maxDataPoints s) (totalRejectedRequests s).

Definition set_servers (l : list Server.t) (s : t) : t :=
  mk (algorithm s) (numServers s) l (currentServerIndex s) (requestCount s)
     (cpuBalanceHistory s) (memoryBalanceHistory s) (maxDataPoints s) (totalRejectedRequests s).

Definition set_currentServerIndex (i : Z) (s : t) : t :=
  mk (algorithm s) (numServers s) (servers s) i (requestCount s)
     (cpuBalanceHistory s) (memoryBalanceHistory s) (maxDataPoints s) (totalRejectedRequests s).

Definition set_requestCount (n : Z) (s : t) : t :=
  mk (algorithm s) (numServers s) (servers s) (currentServerIndex s) n
     (cpuBalanceHistory s) (memoryBalanceHistory s) (maxDataPoints s) (totalRejectedRequests s).

Definition set_cpuBalanceHistory (h : list Z) (s : t) : t :=
  mk (algorithm s) (numServers s) (servers s) (currentServerIndex s) (requestCount s)
     h (memoryBalanceHistory s) (maxDataPoints s) (totalRejectedRequests s).

Definition set_memoryBalanceHistory (h : list Z) (s : t) : t :=
  mk (algorithm s) (numServers s) (servers s) (currentServerIndex s) (requestCount s)
     (cpuBalanceHistory s) h (maxDataPoints s) (totalRejectedRequests s).

Definition set_totalRejectedRequests (n : Z) (s : t) : t :=
  mk (algorithm s) (numServers s) (servers s) (currentServerIndex s) (requestCount s)
     (cpuBalanceHistory s) (memoryBalanceHistory s) (maxDataPoints s) n.

(** The simulation object together with the random source its code reads. *)
Record World : Type := mkWorld { simulation : t; randomSource : Math.RandState }.

Definition rand {A : Type} (m : Js.M Math.RandState A) : Js.M World A :=
  fun w => let '(r, g) := m (randomSource w) in (r, mkWorld (simulation w) g).

Definition read : Js.M World t := fun w => (Js.Return (simulation w), w).

Definition update (f : t -> t) : Js.M World unit :=
  fun w => (Js.Return tt, mkWorld (f (simulation w)) (randomSource w)).

(** [initializeServers()]: the old servers are dropped, [numServers] new
    ones pushed. *)
Definition initializeServers (s : t) : t :=
  set_servers (replicate (Z.to_nat (numServers s)) Server.new) s.

(** [calculateBalanceScore(values)] read in exact arithmetic: what the
    driver's bookkeeping is proved on. *)
Definition calculateBalanceScore (values : list Q) : Z :=
  match values with
  | [] => 100
  | _ :: _ =>
      let mean := (fold_left Qplus values 0 / inject_Z (Js.length values))%Q in
      if Qeq_bool mean 0 then 100
      else
        match map (fun v => Qabs (v - mean)) values with
        | [] => 100
        | d :: ds =>
            let maxDeviation := Math.max d ds in
            let score := Qmax 0 (100 * (1 - maxDeviation / (mean * 2))) in
            Math.round score
        end
  end.

(** [calculateBalanceScore(values)] as the program computes it, on doubles:
    [reduce] adds from 0 on, and every [+], [-], [*] and [/] rounds. *)
Definition calculateBalanceScoreDouble (values : list spec_float) : spec_float :=
  match values with
  | [] => Double.of_Z 100
  | _ :: _ =>
      let mean :=
        Double.div (fold_left Double.add values Double.zero) (Double.of_Z (Js.length values)) in
      if Double.eqb mean Double.zero then Double.of_Z 100
      else
        match map (fun v => SFabs (Double.sub v mean)) values with
        | [] => Double.of_Z 100
        | d :: ds =>
            let maxDeviation := fold_left Math.maxDouble ds d in
            let score :=
              Math.maxDouble Double.zero
                (Double.mul (Double.of_Z 100)
                   (Double.sub (Double.of_Z 1)
                      (Double.div maxDeviation (Double.mul mean (Double.of_Z 2))))) in
            Math.roundDouble score
        end
  end.

(** The part of [updateStatsDisplay] that touches the state: the two balance
    scores are pushed, and the oldest pair shifted out past [maxDataPoints]. *)
Definition updateStatsDisplay (s : t) : t :=
  let cpuLoads := map (fun server => inject_Z (Server.cpu (Server.getCurrentLoad server))) (servers s) in
  let memoryLoads := map (fun server => inject_Z (Server.memory (Server.getCurrentLoad server))) (servers s) in
  let cpuBalance := calculateBalanceScore cpuLoads in
  let memoryBalance := calculateBalanceScore memoryLoads in
  let s1 := set_cpuBalanceHistory (cpuBalanceHistory s ++ [cpuBalance]) s in
  let s2 := set_memoryBalanceHistory (memoryBalanceHistory s1 ++ [memoryBalance]) s1 in
  if maxDataPoints s2 <? Js.length (cpuBalanceHistory s2) then
    set_memoryBalanceHistory (tail (memoryBalanceHistory s2))
      (set_cpuBalanceHistory (tail (cpuBalanceHistory s2)) s2)
  else s2.

(** [updateServerVisuals()] when [Date.now()] reads [now]. *)
Definition updateServerVisuals (now : Z) (s : t) : t :=
  let s1 := updateStatsDisplay s in
  set_servers (map (Server.updateRequests now) (servers s1)) s1.

(** One animation frame. *)
Definition animate (now : Z) (s : t) : t :=
  updateServerVisuals now (updateStatsDisplay s).

Definition setNumServers (count : Z) (s : t) : t :=
  initializeServers (set_currentServerIndex 0 (set_numServers count s)).

Definition clearRequests (s : t) : t :=
  let s1 :=
    set_servers
      (map (fun server => Server.set_rejectedRequests 0 (Server.set_requests [] server))
           (servers s)) s in
  set_totalRejectedRequests 0 (set_requestCount 0 s1).

(** [new LoadBalancerSimulation(containerId, algorithm)]: the fields, then
    [setupScene()] (which ends in [initializeServers()]) and the first
    [animate()]. *)
Definition constructor (algorithm : LoadBalancerAlgorithm) (now : Z) : t :=
  let s :=
    {| algorithm := algorithm;
       numServers := 4;
       servers := [];
       currentServerIndex := 0;
       requestCount := 0;
       cpuBalanceHistory := [];
       memoryBalanceHistory := [];
       maxDataPoints := 50;
       totalRejectedRequests := 0 |} in
  animate now (initializeServers s).

(** [createRequest()] when [Date.now()] reads [now]. *)
Definition createRequest (now : Z) : Js.M World unit :=
  (let* k := rand (Math.randomIndex (Js.length requestTypes)) in
   let requestType := Js.index requestTypes k in
   let* self := read in
   let id := requestCount self in
   let* _ := update (set_requestCount (id + 1)) in
   let* requestType := Js.defined requestType in
   let* u := rand Math.random in
   let request :=
     Request.mk id (cpu requestType) (memory requestType) (Math.draw u * 499 + 1)%Q now in
   let* serverIndex := rand (selectServer (algorithm self) (servers self) (currentServerIndex self)) in
   let server := Js.index (servers self) serverIndex in
   let* server := Js.defined server in
   if Server.canHandleRequest server request then
     let* _ := update (fun self =>
                 set_currentServerIndex (Js.rem (serverIndex + 1) (numServers self)) self) in
     update (fun self =>
       set_servers (alter (fun server => Server.addRequest server request)
                          (Z.to_nat serverIndex) (servers self)) self)
   else
     let* _ := update (fun self =>
                 set_totalRejectedRequests (totalRejectedRequests self + 1) self) in
     update (fun self =>
       set_servers (alter (fun server =>
                             Server.set_rejectedRequests (Server.rejectedRequests server + 1) server)
                          (Z.to_nat serverIndex) (servers self)) self))%js.

Section Page.

(** How many iterations of [RandomAlgorithm]'s loop the model follows. *)
Variable fuel : nat.

(** [resetSimulation()] of the control panel: server count and algorithm go
    back to their initial values, then [clearRequests()]. *)
Definition resetSimulation (s : t) : t :=
  clearRequests (set_algorithm (algorithms fuel RoundRobin) (setNumServers 4 s)).

(** What the page can do to the simulation between two observations: the
    timer callback, an animation frame, the controls, and the public methods
    [clearRequests] and [updateStatsDisplay] called on their own. *)
Inductive Event : Type :=
| CreateRequest (now : Z)
| Animate (now : Z)
| SetNumServers (count : Z)
| SetAlgorithm (a : LoadBalancerAlgorithm)
| ClearRequests
| ResetSimulation
| UpdateStatsDisplay.

Definition exec (e : Event) : Js.M World unit :=
  match e with
  | CreateRequest now => createRequest now
  | Animate now => update (animate now)
  | SetNumServers count => update (setNumServers count)
  | SetAlgorithm a => update (set_algorithm a)
  | ClearRequests => update clearRequests
  | ResetSimulation => update resetSimulation
  | UpdateStatsDisplay => update updateStatsDisplay
  end.

(** The states the page can observe: the constructed simulation, and what an
    event that ended (by returning or by throwing) leaves behind. *)
Inductive reachable : World -> Prop :=
| reachable_new (a : LoadBalancerAlgorithm) (now : Z) (g : Math.RandState) :
    reachable (mkWorld (constructor a now) g)
| reachable_exec (e : Event) (w w' : World) (r : Js.Result unit) :
    reachable w -> exec e w = (r, w') -> r <> Js.OutOfFuel -> reachable w'.

End Page.

End LoadBalancerSimulation.

(** ** The admission rule and the scans as the specification words them *)

Module Spec.

(** The capacity test of the admission pre-check. *)
Definition admissible (server : Server.t) (request : Request.t) : bool :=
  (Server.cpu (Server.getCurrentLoad server) + Request.cpuLoad request <=? 100)
  && (Server.memory (Server.getCurrentLoad server) + Request.memoryLoad request <=? 100).

(** Round robin as specified: the first admissible index met from [cursor]
    on, circularly; [cursor] when a full cycle finds none. *)
Fixpoint roundRobinScan (request : Request.t) (servers : list Server.t)
    (cursor i : Z) (todo : nat) : Z :=
  match todo with
  | O => cursor
  | S todo' =>
      let candidate := (cursor + i) mod Js.length servers in
      match Js.index servers candidate with
      | Some server =>
          if admissible server request then candidate
          else roundRobinScan request servers cursor (i + 1) todo'
      | None => cursor
      end
  end.

Definition roundRobin (request : Request.t) (servers : list Server.t) (cursor : Z) : Z :=
  roundRobinScan request servers cursor 0 (List.length servers).

(** The effective score of least response time as specified. *)
Definition effectiveScore (server : Server.t) : Q :=
  if Server.completedRequests server =? 0
  then inject_Z (Js.length (Server.requests server) * 100)
  else (Server.totalResponseTime server / inject_Z (Server.completedRequests server))%Q.

(** The average response time as a double: 0 without completions, the
    quotient of the two counters rounded to the nearest double otherwise. *)
Definition doubleAverage (server : Server.t) : Q :=
  if Server.completedRequests server =? 0 then 0%Q
  else Double.round
         (Server.totalResponseTime server / inject_Z (Server.completedRequests server)).

(** The effective score on doubles: the active requests times 100 when the
    average response time is 0, that average otherwise. *)
Definition doubleScore (server : Server.t) : Q :=
  if Qeq_bool (doubleAverage server) 0
  then inject_Z (Js.length (Server.requests server) * 100)
  else doubleAverage server.

(** [average(values)]. *)
Definition average (values : list Q) : Q :=
  (fold_left Qplus values 0 / inject_Z (Js.length values))%Q.

(** [average(values)] on doubles. *)
Definition doubleMean (values : list spec_float) : spec_float :=
  Double.div (fold_left Double.add values Double.zero) (Double.of_Z (Js.length values)).

(** The largest [|v - mean|] over the values, on doubles. *)
Definition doubleMaxDeviation (values : list spec_float) : spec_float :=
  match map (fun v => SFabs (Double.sub v (doubleMean values))) values with
  | [] => Double.zero
  | d :: ds => fold_left Math.maxDouble ds d
  end.

(** [max(0, 100 * (1 - maxDeviation / (2 * mean)))], rounded to the nearest
    integer, in exact arithmetic. *)
Definition balanceScore (mean maxDeviation : Q) : Z :=
  Math.round (Qmax 0 (100 * (1 - maxDeviation / (2 * mean)))).

(** [m] is the largest [|v - mean|] over the values. *)
Definition is_max_deviation (values : list Q) (mean m : Q) : Prop :=
  (forall v, In v values -> (Qabs (v - mean) <= m)%Q)
  /\ (exists v, In v values /\ (Qabs (v - mean) == m)%Q).

End Spec.

(** ** Predicates the statements use *)

(** The shape shared by the callbacks of the three minimising algorithms. *)
Definition min_visit {K : Type} (ltb : K -> K -> bool) (key : Server.t -> K)
    (st : Js.Ext K * Z) (server : Server.t) (index : Z) : Js.Ext K * Z :=
  let '(m, selectedIndex) := st in
  if Js.lt_ext ltb (key server) m then (Js.Fin (key server), index) else (m, selectedIndex).

(** [sel] is the first position of [l] whose key no other key is below. *)
Definition first_min {K : Type} (ltb : K -> K -> bool) (key : Server.t -> K)
    (l : list Server.t) (sel : Z) (s : Server.t) : Prop :=
  Js.index l sel = Some s
  /\ (forall (j : nat) (t : Server.t), l !! j = Some t -> ltb (key t) (key s) = false)
  /\ (forall (j : nat) (t : Server.t),
        l !! j = Some t -> (j < Z.to_nat sel)%nat -> ltb (key s) (key t) = true).

(** Every completion adds one to [completedRequests] and a duration of at
    least one millisecond to [totalResponseTime]. *)
Definition counters_ok (s : Server.t) : Prop :=
  0 <= Server.completedRequests s
  /\ (inject_Z (Server.completedRequests s) <= Server.totalResponseTime s)%Q.

(** A request as [createRequest] builds them: loads of a catalogue type,
    a duration of at least one millisecond. *)
Definition request_ok (r : Request.t) : Prop :=
  0 <= Request.cpuLoad r /\ 0 <= Request.memoryLoad r /\ (1 <= Request.processingTime r)%Q.

(** The capacity bound of a server. *)
Definition within_capacity (s : Server.t) : Prop :=
  Server.cpu (Server.getCurrentLoad s) <= 100
  /\ Server.memory (Server.getCurrentLoad s) <= 100.

Definition server_ok (s : Server.t) : Prop :=
  Server.maxCpu s = 100
  /\ Server.maxMemory s = 100
  /\ within_capacity s
  /\ Forall request_ok (Server.requests s)
  /\ counters_ok s.

(** The two balance histories grow and shrink together and hold at most 50
    entries. *)
Definition history_ok (s : LoadBalancerSimulation.t) : Prop :=
  LoadBalancerSimulation.maxDataPoints s = 50
  /\ List.length (LoadBalancerSimulation.cpuBalanceHistory s)
     = List.length (LoadBalancerSimulation.memoryBalanceHistory s)
  /\ Js.length (LoadBalancerSimulation.cpuBalanceHistory s) <= 50.

Definition simulation_ok (s : LoadBalancerSimulation.t) : Prop :=
  Forall server_ok (LoadBalancerSimulation.servers s) /\ history_ok s.

(** The request type [createRequest] picks with its first draw, the request
    it builds with its second, and the random source it hands to the
    algorithm. *)
Definition drawnType (w : LoadBalancerSimulation.World) : option LoadBalancerSimulation.RequestType :=
  Js.index LoadBalancerSimulation.requestTypes
    (Math.floor (Math.draw (LoadBalancerSimulation.randomSource w 0%nat)
                 * inject_Z (Js.length LoadBalancerSimulation.requestTypes))).

Definition builtRequest (now : Z) (w : LoadBalancerSimulation.World)
    (requestType : LoadBalancerSimulation.RequestType) : Request.t :=
  Request.mk
    (LoadBalancerSimulation.requestCount (LoadBalancerSimulation.simulation w))
    (LoadBalancerSimulation.cpu requestType)
    (LoadBalancerSimulation.memory requestType)
    (Math.draw (LoadBalancerSimulation.randomSource w 1%nat) * 499 + 1)%Q
    now.

Definition afterDraws (w : LoadBalancerSimulation.World) : Math.RandState :=
  fun n => LoadBalancerSimulation.randomSource w (S (S n)).

(** The algorithm's answer to [createRequest] in world [w]. *)
Definition selected (w : LoadBalancerSimulation.World) : Js.Result Z * Math.RandState :=
  selectServer
    (LoadBalancerSimulation.algorithm (LoadBalancerSimulation.simulation w))
    (LoadBalancerSimulation.servers (LoadBalancerSimulation.simulation w))
    (LoadBalancerSimulation.currentServerIndex (LoadBalancerSimulation.simulation w))
    (afterDraws w).

(** The balance scores a statistics sample computes in state [s]. *)
Definition sampledCpuBalance (s : LoadBalancerSimulation.t) : Z :=
  LoadBalancerSimulation.calculateBalanceScore
    (map (fun server => inject_Z (Server.cpu (Server.getCurrentLoad server)))
         (LoadBalancerSimulation.servers s)).

Definition sampledMemoryBalance (s : LoadBalancerSimulation.t) : Z :=
  LoadBalancerSimulation.calculateBalanceScore
    (map (fun server => inject_Z (Server.memory (Server.getCurrentLoad server)))
         (LoadBalancerSimulation.servers s)).

(** A history after one more sample: the oldest entry leaves a full buffer,
    the new score goes to the end. *)
Definition pushed (history : list Z) (score : Z) : list Z :=
  (if Js.length history =? 50 then tail history else history) ++ [score].

(** ** Sample data *)

Module Sample.

Definition zero : Math.UnitDraw := Math.mkDraw 0 eq_refl.
Definition half : Math.UnitDraw := Math.mkDraw (1 # 2) eq_refl.

(** A random source whose every draw is 0, and one whose every draw is 1/2. *)
Definition zeros : Math.RandState := fun _ => zero.
Definition halves : Math.RandState := fun _ => half.

(** A request of the red type (cpu 10, memory 6) and one of the green type
    (cpu 5, memory 3). *)
Definition red (id : Z) : Request.t := Request.mk id 10 6 1 0.
Definition green (id : Z) : Request.t := Request.mk id 5 3 1 0.

(** A server hosting ten red requests: cpu load 100, memory load 60. *)
Definition busy : Server.t :=
  Server.set_requests (map red [0; 1; 2; 3; 4; 5; 6; 7; 8; 9]) Server.new.

(** A server with one active request and no completion, and one with no
    active request whose two completions took 100 ms together. *)
Definition fresh : Server.t := Server.set_requests [green 0] Server.new.
Definition seasoned : Server.t := Server.mk [] 100 100 0 2 100.

(** A custom algorithm that answers [servers.length], one past the last
    index. *)
Definition pastEnd : LoadBalancerAlgorithm :=
  mkAlgorithm (fun servers _ => Js.ret (Js.length servers)).

(** The simulation of the page as constructed, with draws that are all 0;
    the same after one timer callback; and one driven by [pastEnd]. *)
Definition world0 : LoadBalancerSimulation.World :=
  LoadBalancerSimulation.mkWorld
    (LoadBalancerSimulation.constructor (algorithms 1 RoundRobin) 0) zeros.

Definition world1 : LoadBalancerSimulation.World :=
  snd (LoadBalancerSimulation.exec 1 (LoadBalancerSimulation.CreateRequest 5) world0).

Definition worldPastEnd : LoadBalancerSimulation.World :=
  LoadBalancerSimulation.mkWorld (LoadBalancerSimulation.constructor pastEnd 0) zeros.

End Sample.

(** ** Further predicates and sample data *)

(** The server list has [numServers] entries and the cursor points into it
    (or is 0 when there is no server). *)
Definition shape_ok (s : LoadBalancerSimulation.t) : Prop :=
  List.length (LoadBalancerSimulation.servers s)
  = Z.to_nat (LoadBalancerSimulation.numServers s)
  /\ 0 <= LoadBalancerSimulation.currentServerIndex s
  /\ (LoadBalancerSimulation.currentServerIndex s < LoadBalancerSimulation.numServers s
      \/ LoadBalancerSimulation.currentServerIndex s = 0).

(** The ids of the active requests of all servers, server by server. *)
Definition activeIds (servers : list Server.t) : list Z :=
  concat (map (fun server => map Request.id (Server.requests server)) servers).

(** The sum of the servers' own rejection counters. *)
Definition rejectedSum (servers : list Server.t) : Z :=
  foldr Z.add 0 (map Server.rejectedRequests servers).

(** The sum of the durations of some requests. *)
Definition totalTime (l : list Request.t) : Q :=
  fold_left (fun acc req => (acc + Request.processingTime req)%Q) l 0%Q.

(** No counter of [after] is below the one of [before]. *)
Definition counters_le (before after : Server.t) : Prop :=
  Server.rejectedRequests before <= Server.rejectedRequests after
  /\ Server.completedRequests before <= Server.completedRequests after
  /\ (Server.totalResponseTime before <= Server.totalResponseTime after)%Q.

(** The requests [updateRequests] counts as completed when the clock moves
    as [clock] says, and those that complete between the two filters: the
    first filter finds them running and the second one drops them. *)
Definition countedRequests (clock : nat -> Z) (s : Server.t) : list Request.t :=
  Js.filter_from (fun k req => Request.isComplete (clock k) req) (Server.requests s) 0.

Definition lostRequests (clock : nat -> Z) (s : Server.t) : list Request.t :=
  Js.filter_from
    (fun k req =>
       negb (Request.isComplete (clock k) req)
       && Request.isComplete (clock (List.length (Server.requests s) + k)%nat) req)
    (Server.requests s) 0.

(** The answer of a built-in algorithm on an empty server list. *)
Definition emptyAnswer (name : AlgorithmName) (cursor : Z) : Z :=
  match name with
  | RoundRobin => cursor
  | _ => 0
  end.

(** The active requests carry distinct ids, all handed out already. *)
Definition ids_ok (s : LoadBalancerSimulation.t) : Prop :=
  NoDup (activeIds (LoadBalancerSimulation.servers s))
  /\ Forall (fun i => 0 <= i < LoadBalancerSimulation.requestCount s)
            (activeIds (LoadBalancerSimulation.servers s))
  /\ 0 <= LoadBalancerSimulation.requestCount s.

(** The servers' rejection counters are not negative and sum to at most the
    simulation-wide one. *)
Definition rejected_ok (s : LoadBalancerSimulation.t) : Prop :=
  Forall (fun server => 0 <= Server.rejectedRequests server) (LoadBalancerSimulation.servers s)
  /\ rejectedSum (LoadBalancerSimulation.servers s)
     <= LoadBalancerSimulation.totalRejectedRequests s.

(** A request of a catalogue type whose duration is one of those
    [createRequest] draws: at least 1 ms, below 500 ms. *)
Definition request_typed (r : Request.t) : Prop :=
  In (LoadBalancerSimulation.mkType (Request.cpuLoad r) (Request.memoryLoad r))
     LoadBalancerSimulation.requestTypes
  /\ (1 <= Request.processingTime r)%Q
  /\ (Request.processingTime r < 500)%Q.

Definition typed_ok (s : LoadBalancerSimulation.t) : Prop :=
  Forall (fun server => Forall request_typed (Server.requests server))
         (LoadBalancerSimulation.servers s).

(** The operations that keep the servers they find: all but changing the
    server count, clearing and resetting. *)
Definition keepsServers (e : LoadBalancerSimulation.Event) : bool :=
  match e with
  | LoadBalancerSimulation.CreateRequest _
  | LoadBalancerSimulation.Animate _
  | LoadBalancerSimulation.SetAlgorithm _
  | LoadBalancerSimulation.UpdateStatsDisplay => true
  | LoadBalancerSimulation.SetNumServers _
  | LoadBalancerSimulation.ClearRequests
  | LoadBalancerSimulation.ResetSimulation => false
  end.

Module Sample2.

(** A request issued at time 0 that takes 100 ms. *)
Definition slow : Request.t := Request.mk 0 5 3 100 0.

(** A server hosting a red request (1 ms), and one hosting a red and a slow
    one. *)
Definition one : Server.t := Server.set_requests [Sample.red 0] Server.new.
Definition two : Server.t := Server.set_requests [Sample.red 1; slow] Server.new.

(** The page's simulation after [setNumServers(0)]. *)
Definition worldEmpty : LoadBalancerSimulation.World :=
  LoadBalancerSimulation.mkWorld
    (LoadBalancerSimulation.setNumServers 0
       (LoadBalancerSimulation.simulation Sample.world0))
    Sample.zeros.

End Sample2.

Module Sample3.

(** A server with one active request whose two completions took no time. *)
Definition stalled : Server.t := Server.mk [Sample.green 0] 100 100 0 2 0.

(** A server whose one completion took 133.33333333333334 ms, the double
    4691249611844267 * 2^-45, and one whose three completions took 400 ms
    together. *)
Definition oneLong : Server.t :=
  Server.mk [] 100 100 0 1 (4691249611844267 # 35184372088832).
Definition threeShort : Server.t := Server.mk [] 100 100 0 3 400.

(** A clock that reads 99 first and moves by 1 ms at every reading, and a
    server hosting one request that takes 100 ms from time 0. *)
Definition ticking : nat -> Z := fun k => 99 + Z.of_nat k.
Definition waiting : Server.t := Server.set_requests [Sample2.slow] Server.new.

(** A random source whose every draw is 3/4: the request type is the last
    of the table (cpu 10, memory 6). *)
Definition threeQuarters : Math.RandState := fun _ => Math.mkDraw (3 # 4) eq_refl.

(** The page's simulation reduced to two servers, and the same after twenty
    timer callbacks at time 0: round robin has given each server ten
    requests of cpu 10, and the cursor is back at the first one. *)
Definition worldTwo : LoadBalancerSimulation.World :=
  snd (LoadBalancerSimulation.exec 1 (LoadBalancerSimulation.SetNumServers 2)
         (LoadBalancerSimulation.mkWorld
            (LoadBalancerSimulation.constructor (algorithms 1 RoundRobin) 0) threeQuarters)).

Definition worldFull : LoadBalancerSimulation.World :=
  Nat.iter 20
    (fun w => snd (LoadBalancerSimulation.exec 1 (LoadBalancerSimulation.CreateRequest 0) w))
    worldTwo.

(** The first server of [worldFull]. *)
Definition full : Server.t :=
  default Server.new (LoadBalancerSimulation.servers
                        (LoadBalancerSimulation.simulation worldFull) !! 0%nat).

End Sample3.

(** ** Numbers *)

Lemma Qltb_lt (a b : Q) : Js.Qltb a b = true <-> (a < b)%Q.
Proof.
  unfold Js.Qltb. rewrite negb_true_iff. split.
  - intros H. apply Qnot_le_lt. intros Hle. apply Qle_bool_iff in Hle. congruence.
  - intros H. destruct (Qle_bool b a) eqn:E; [|reflexivity].
    apply Qle_bool_iff in E. exfalso. exact (Qlt_not_le _ _ H E).
Qed.

Lemma Qltb_ge (a b : Q) : Js.Qltb a b = false <-> (b <= a)%Q.
Proof.
  unfold Js.Qltb. rewrite negb_false_iff. apply Qle_bool_iff.
Qed.

Lemma draw_bounds (u : Math.UnitDraw) : (0 <= Math.draw u)%Q /\ (Math.draw u < 1)%Q.
Proof.
  destruct u as [q Hq]. simpl. apply andb_true_iff in Hq as [H0 H1].
  split; [now apply Qle_bool_iff | now apply Qltb_lt].
Qed.

Lemma floor_scaled_range (u : Math.UnitDraw) (n : Z) :
  0 < n -> 0 <= Math.floor (Math.draw u * inject_Z n) < n.
Proof.
  intros Hn. destruct (draw_bounds u) as [H0 H1]. unfold Math.floor.
  assert (Hn' : (inject_Z 0 < inject_Z n)%Q) by (rewrite <- Zlt_Qlt; exact Hn).
  split.
  - change 0 with (Qfloor 0). apply Qfloor_resp_le.
    apply Qmult_le_0_compat; [exact H0 | now apply Qlt_le_weak].
  - rewrite Zlt_Qlt.
    apply Qle_lt_trans with (y := (Math.draw u * inject_Z n)%Q); [apply Qfloor_le|].
    apply Qlt_le_trans with (y := (1 * inject_Z n)%Q).
    + apply Qmult_lt_compat_r; assumption.
    + rewrite Qmult_1_l. apply Qle_refl.
Qed.

Lemma index_Some {A : Type} (l : list A) (i : Z) :
  0 <= i < Js.length l -> exists x, Js.index l i = Some x /\ l !! Z.to_nat i = Some x.
Proof.
  intros [H0 H1]. unfold Js.index, Js.length in *.
  destruct (lookup_lt_is_Some_2 l (Z.to_nat i)) as [x Hx]; [lia|].
  exists x. split; [|exact Hx].
  destruct (Z.leb_spec 0 i); [exact Hx | lia].
Qed.

Lemma index_inv {A : Type} (l : list A) (i : Z) (x : A) :
  Js.index l i = Some x -> 0 <= i < Js.length l /\ l !! Z.to_nat i = Some x.
Proof.
  unfold Js.index, Js.length. destruct (Z.leb_spec 0 i); [|discriminate].
  intros Hx. split; [|exact Hx]. apply lookup_lt_Some in Hx. lia.
Qed.

Lemma index_None {A : Type} (l : list A) (i : Z) :
  Js.index l i = None <-> ~ (0 <= i < Js.length l).
Proof.
  split.
  - intros Hn Hr. destruct (index_Some l i Hr) as (x & Hx & _). congruence.
  - intros Hr. destruct (Js.index l i) eqn:E; [|reflexivity].
    apply index_inv in E. tauto.
Qed.

(** ** Round robin and random: what the scans return *)

Lemma length_pos (servers : list Server.t) : servers <> [] -> 0 < Js.length servers.
Proof.
  destruct servers; [congruence|]. intros _. unfold Js.length. simpl. lia.
Qed.

(** The test of the scan reads a property that every server has, so the
    first candidate is returned. *)
Lemma RoundRobin_loop_first (servers : list Server.t) (currentIndex : Z) (todo : nat) :
  0 <= currentIndex < Js.length servers ->
  RoundRobinAlgorithm.loop servers currentIndex 0 (S todo) = Js.Return currentIndex.
Proof.
  intros Hc. simpl. unfold Js.rem. rewrite Z.add_0_r, Z.rem_small by lia.
  destruct (index_Some servers currentIndex Hc) as (server & -> & _). reflexivity.
Qed.

Lemma RoundRobin_returns_cursor (servers : list Server.t) (currentIndex : Z) (g : Math.RandState) :
  0 <= currentIndex < Js.length servers ->
  RoundRobinAlgorithm.selectServer servers currentIndex g = (Js.Return currentIndex, g).
Proof.
  intros Hc. unfold RoundRobinAlgorithm.selectServer.
  destruct servers as [|server rest]; [unfold Js.length in Hc; simpl in Hc; lia|].
  change (List.length (server :: rest)) with (S (List.length rest)).
  now rewrite RoundRobin_loop_first.
Qed.

Lemma Random_returns_first_draw (fuel : nat) (servers : list Server.t) (currentIndex : Z)
    (g : Math.RandState) :
  servers <> [] ->
  RandomAlgorithm.selectServer (S fuel) servers currentIndex g
  = (Js.Return (Math.floor (Math.draw (g 0%nat) * inject_Z (Js.length servers))),
     fun i => g (S i)).
Proof.
  intros Hne. pose proof (length_pos servers Hne) as Hlen.
  unfold RandomAlgorithm.selectServer.
  cbn [RandomAlgorithm.loop].
  rewrite size_empty.
  destruct (Z.ltb_spec (Z.of_nat 0) (Js.length servers)); [|lia].
  unfold Js.bind, Math.randomIndex, Js.bind, Math.random, Js.ret. cbn beta iota.
  destruct (index_Some servers (Math.floor (Math.draw (g 0%nat) * inject_Z (Js.length servers))))
    as (server & -> & _); [now apply floor_scaled_range|].
  reflexivity.
Qed.

(** ** Selection by a running minimum *)

Section RunningMinimum.

Context {K : Type} (ltb : K -> K -> bool) (key : Server.t -> K).

Hypothesis ltb_irrefl : forall a, ltb a a = false.
Hypothesis ltb_trans : forall a b c, ltb a b = true -> ltb b c = true -> ltb a c = true.
Hypothesis ltb_below : forall a b c, ltb a b = true -> ltb c b = false -> ltb a c = true.

Lemma first_min_snoc_keep (pre : list Server.t) (sel : Z) (s x : Server.t) :
  first_min ltb key pre sel s -> ltb (key x) (key s) = false -> first_min ltb key (pre ++ [x]) sel s.
Proof.
  intros (Hs & Hmin & Hfirst) Hx. apply index_inv in Hs as [Hr Hl].
  split; [|split].
  - destruct (index_Some (pre ++ [x]) sel) as (y & Hy & Hy').
    + unfold Js.length in *. rewrite length_app. simpl. lia.
    + rewrite Hy. rewrite lookup_app_l in Hy' by (unfold Js.length in Hr; lia). congruence.
  - intros j t Hj. apply lookup_app_Some in Hj as [Hj | [_ Hj]]; [eauto|].
    apply list_lookup_singleton_Some in Hj as [_ <-]. exact Hx.
  - intros j t Hj Hlt. rewrite lookup_app_l in Hj; [eauto|].
    unfold Js.length in Hr. lia.
Qed.

Lemma first_min_snoc_take (pre : list Server.t) (sel : Z) (s x : Server.t) :
  first_min ltb key pre sel s -> ltb (key x) (key s) = true ->
  first_min ltb key (pre ++ [x]) (Js.length pre) x.
Proof.
  intros (Hs & Hmin & Hfirst) Hx.
  assert (Hlast : (pre ++ [x]) !! Z.to_nat (Js.length pre) = Some x).
  { unfold Js.length. rewrite Nat2Z.id. apply list_lookup_middle. reflexivity. }
  split; [|split].
  - destruct (index_Some (pre ++ [x]) (Js.length pre)) as (y & Hy & Hy').
    + unfold Js.length. rewrite length_app. simpl. lia.
    + congruence.
  - intros j t Hj. apply lookup_app_Some in Hj as [Hj | [_ Hj]].
    + destruct (ltb (key t) (key x)) eqn:E; [|reflexivity].
      pose proof (ltb_trans _ _ _ E Hx) as Hts. pose proof (Hmin j t Hj) as Hts'. congruence.
    + apply list_lookup_singleton_Some in Hj as [_ <-]. apply ltb_irrefl.
  - intros j t Hj Hlt. unfold Js.length in Hlt. rewrite Nat2Z.id in Hlt.
    rewrite lookup_app_l in Hj by exact Hlt.
    apply ltb_below with (b := key s); eauto.
Qed.

Lemma first_min_single (x : Server.t) : first_min ltb key [x] 0 x.
Proof.
  split; [reflexivity|]. split.
  - intros j t Hj. apply list_lookup_singleton_Some in Hj as [_ <-]. apply ltb_irrefl.
  - intros j t _ Hlt. simpl in Hlt. lia.
Qed.

Lemma forEach_from_min (rest pre : list Server.t) (sel : Z) (s : Server.t) :
  first_min ltb key pre sel s ->
  exists sel' s',
    Js.forEach_from (min_visit ltb key) rest (Js.length pre) (Js.Fin (key s), sel) = (Js.Fin (key s'), sel')
    /\ first_min ltb key (pre ++ rest) sel' s'.
Proof.
  revert pre sel s. induction rest as [|x rest IH]; intros pre sel s Hmin.
  - exists sel, s. rewrite app_nil_r. split; [reflexivity | exact Hmin].
  - simpl.
    replace (Js.length pre + 1) with (Js.length (pre ++ [x]))
      by (unfold Js.length; rewrite length_app; simpl; lia).
    replace (pre ++ x :: rest) with ((pre ++ [x]) ++ rest) by (now rewrite <- app_assoc).
    destruct (ltb (key x) (key s)) eqn:E.
    + apply IH. eapply first_min_snoc_take; eauto.
    + apply IH. now apply first_min_snoc_keep.
Qed.

Lemma forEach_min (servers : list Server.t) :
  servers <> [] ->
  exists sel s,
    Js.forEach (min_visit ltb key) servers (Js.Infinity, 0) = (Js.Fin (key s), sel)
    /\ first_min ltb key servers sel s.
Proof.
  destruct servers as [|x rest]; [congruence|]. intros _.
  unfold Js.forEach. simpl.
  destruct (forEach_from_min rest [x] 0 x (first_min_single x)) as (sel & s & Hrun & Hmin).
  exists sel, s. split; [exact Hrun | exact Hmin].
Qed.

End RunningMinimum.

(** *** The orders the three algorithms compare with *)

Lemma Zltb_below (a b c : Z) : (a <? b) = true -> (c <? b) = false -> (a <? c) = true.
Proof. rewrite !Z.ltb_lt, Z.ltb_ge. lia. Qed.

Lemma Zltb_trans (a b c : Z) : (a <? b) = true -> (b <? c) = true -> (a <? c) = true.
Proof. rewrite !Z.ltb_lt. lia. Qed.

Lemma Qltb_irrefl (a : Q) : Js.Qltb a a = false.
Proof. apply Qltb_ge. apply Qle_refl. Qed.

Lemma Qltb_trans (a b c : Q) : Js.Qltb a b = true -> Js.Qltb b c = true -> Js.Qltb a c = true.
Proof. rewrite !Qltb_lt. apply Qlt_trans. Qed.

Lemma Qltb_below (a b c : Q) : Js.Qltb a b = true -> Js.Qltb c b = false -> Js.Qltb a c = true.
Proof. rewrite !Qltb_lt, Qltb_ge. apply Qlt_le_trans. Qed.

Lemma LeastRequests_visit_eq :
  LeastRequestsAlgorithm.visit
  = min_visit Z.ltb (fun server => Js.length (Server.requests server)).
Proof. reflexivity. Qed.

Lemma LeastResponseTime_visit_eq :
  LeastResponseTimeAlgorithm.visit = min_visit Js.Qltb LeastResponseTimeAlgorithm.effectiveTime.
Proof. reflexivity. Qed.

Lemma Dynamic_visit_eq :
  DynamicAlgorithm.visit
  = min_visit Z.ltb (fun server => Server.cpu (Server.getCurrentLoad server)).
Proof. reflexivity. Qed.

Lemma LeastRequests_first_min (servers : list Server.t) (currentIndex : Z) (g : Math.RandState) :
  servers <> [] ->
  exists idx s,
    LeastRequestsAlgorithm.selectServer servers currentIndex g = (Js.Return idx, g)
    /\ first_min Z.ltb (fun server => Js.length (Server.requests server)) servers idx s.
Proof.
  intros Hne. unfold LeastRequestsAlgorithm.selectServer. rewrite LeastRequests_visit_eq.
  destruct (forEach_min Z.ltb (fun server => Js.length (Server.requests server))
              Z.ltb_irrefl Zltb_trans Zltb_below servers Hne)
    as (idx & s & -> & Hmin).
  exists idx, s. split; [reflexivity | exact Hmin].
Qed.

Lemma LeastResponseTime_first_min (servers : list Server.t) (currentIndex : Z)
    (g : Math.RandState) :
  servers <> [] ->
  exists idx s,
    LeastResponseTimeAlgorithm.selectServer servers currentIndex g = (Js.Return idx, g)
    /\ first_min Js.Qltb LeastResponseTimeAlgorithm.effectiveTime servers idx s.
Proof.
  intros Hne. unfold LeastResponseTimeAlgorithm.selectServer.
  rewrite LeastResponseTime_visit_eq.
  destruct (forEach_min Js.Qltb LeastResponseTimeAlgorithm.effectiveTime
              Qltb_irrefl Qltb_trans Qltb_below servers Hne)
    as (idx & s & -> & Hmin).
  exists idx, s. split; [reflexivity | exact Hmin].
Qed.

Lemma Dynamic_first_min (servers : list Server.t) (currentIndex : Z) (g : Math.RandState) :
  servers <> [] ->
  exists idx s,
    DynamicAlgorithm.selectServer servers currentIndex g = (Js.Return idx, g)
    /\ first_min Z.ltb (fun server => Server.cpu (Server.getCurrentLoad server)) servers idx s.
Proof.
  intros Hne. unfold DynamicAlgorithm.selectServer. rewrite Dynamic_visit_eq.
  destruct (forEach_min Z.ltb (fun server => Server.cpu (Server.getCurrentLoad server))
              Z.ltb_irrefl Zltb_trans Zltb_below servers Hne)
    as (idx & s & -> & Hmin).
  exists idx, s. split; [reflexivity | exact Hmin].
Qed.

(** ** The score of least response time *)

(** [Double.of_Q] on samples: a double is left as it is, and the double
    nearest to a quotient of two integers is the one the division of the
    library returns. *)
Example of_Q_samples :
  Double.of_Q (4691249611844267 # 35184372088832) = S754_finite false 4691249611844267 (-45)
  /\ Double.of_Q (400 # 3) = Double.div (Double.of_Z 400) (Double.of_Z 3)
  /\ Double.of_Q (400 # 3) = S754_finite false 4691249611844267 (-45)
  /\ Double.of_Q (1 # 10) = Double.div (Double.of_Z 1) (Double.of_Z 10)
  /\ Double.of_Q (- 7 # 3) = Double.div (Double.of_Z (- 7)) (Double.of_Z 3)
  /\ Double.of_Q 100 = Double.of_Z 100
  /\ Double.of_Q 0 = Double.zero.
Proof. repeat split; vm_compute; reflexivity. Qed.

Lemma effectiveTime_doubleScore (s : Server.t) :
  LeastResponseTimeAlgorithm.effectiveTime s = Spec.doubleScore s.
Proof.
  unfold LeastResponseTimeAlgorithm.effectiveTime, Spec.doubleScore, Spec.doubleAverage,
    Server.getAverageResponseTime.
  destruct (Server.completedRequests s =? 0); reflexivity.
Qed.

(** ** The built-in algorithms *)

(** C10: on a non-empty server list and a cursor inside it, each of the five
    algorithms of the [algorithms] table returns (given at least one loop
    iteration to follow in [RandomAlgorithm]) an index inside the list, so
    [this.servers[serverIndex]] in [createRequest] is a server. *)
Theorem builtin_selectServer_in_range (fuel : nat) (name : AlgorithmName)
    (servers : list Server.t) (cursor : Z) (g : Math.RandState) :
  (0 < fuel)%nat -> servers <> [] -> 0 <= cursor < Js.length servers ->
  exists idx g' server,
    selectServer (algorithms fuel name) servers cursor g = (Js.Return idx, g')
    /\ 0 <= idx < Js.length servers
    /\ Js.index servers idx = Some server.
Proof.
  intros Hfuel Hne Hcur.
  assert (Hgoal : exists idx g',
             selectServer (algorithms fuel name) servers cursor g = (Js.Return idx, g')
             /\ 0 <= idx < Js.length servers).
  { destruct name; simpl.
    - exists cursor, g. split; [now apply RoundRobin_returns_cursor | exact Hcur].
    - destruct fuel as [|fuel]; [lia|].
      eexists _, _. split; [now apply Random_returns_first_draw|].
      apply floor_scaled_range. now apply length_pos.
    - destruct (LeastRequests_first_min servers cursor g Hne) as (idx & s & Hrun & Hs & _).
      exists idx, g. split; [exact Hrun | now apply index_inv in Hs].
    - destruct (LeastResponseTime_first_min servers cursor g Hne) as (idx & s & Hrun & Hs & _).
      exists idx, g. split; [exact Hrun | now apply index_inv in Hs].
    - destruct (Dynamic_first_min servers cursor g Hne) as (idx & s & Hrun & Hs & _).
      exists idx, g. split; [exact Hrun | now apply index_inv in Hs]. }
  destruct Hgoal as (idx & g' & Hrun & Hidx).
  destruct (index_Some servers idx Hidx) as (server & Hserver & _).
  now exists idx, g', server.
Qed.

Lemma builtin_selectServer_in_range_witness :
  exists idx g' server,
    selectServer (algorithms 1 Random) [Server.new; Sample.busy] 1 Sample.halves
    = (Js.Return idx, g')
    /\ 0 <= idx < Js.length [Server.new; Sample.busy]
    /\ Js.index [Server.new; Sample.busy] idx = Some server.
Proof.
  apply builtin_selectServer_in_range.
  - apply Nat.lt_0_1.
  - discriminate.
  - split; [discriminate | reflexivity].
Defined.

(** C8: on a non-empty list of servers the least-response-time algorithm
    returns the lowest index that minimises the effective score on doubles.
    A server's average response time is 0 without completions and the double
    nearest to [totalResponseTime / completedRequests] otherwise; its score
    is [requests.length * 100] when that average is 0 and the average
    otherwise.  Every other score is at least the selected one, and every
    score at a lower index is strictly greater. *)
Theorem LeastResponseTime_selects_first_minimum (servers : list Server.t) (cursor : Z)
    (g : Math.RandState) :
  servers <> [] ->
  exists idx s,
    LeastResponseTimeAlgorithm.selectServer servers cursor g = (Js.Return idx, g)
    /\ Js.index servers idx = Some s
    /\ (forall (j : nat) (t : Server.t),
          servers !! j = Some t -> (Spec.doubleScore s <= Spec.doubleScore t)%Q)
    /\ (forall (j : nat) (t : Server.t),
          servers !! j = Some t -> (j < Z.to_nat idx)%nat ->
          (Spec.doubleScore s < Spec.doubleScore t)%Q).
Proof.
  intros Hne.
  destruct (LeastResponseTime_first_min servers cursor g Hne)
    as (idx & s & Hrun & Hs & Hmin & Hfirst).
  exists idx, s. split; [exact Hrun|]. split; [exact Hs|].
  apply index_inv in Hs as [_ Hs].
  split.
  - intros j t Hj. rewrite <- !effectiveTime_doubleScore. apply Qltb_ge. eauto.
  - intros j t Hj Hlt. rewrite <- !effectiveTime_doubleScore. apply Qltb_lt. eauto.
Qed.

Lemma LeastResponseTime_selects_first_minimum_witness :
  exists idx s,
    LeastResponseTimeAlgorithm.selectServer [Sample.fresh; Sample3.threeShort; Sample3.oneLong]
      0 Sample.zeros
    = (Js.Return idx, Sample.zeros)
    /\ Js.index [Sample.fresh; Sample3.threeShort; Sample3.oneLong] idx = Some s
    /\ (forall (j : nat) (t : Server.t),
          [Sample.fresh; Sample3.threeShort; Sample3.oneLong] !! j = Some t ->
          (Spec.doubleScore s <= Spec.doubleScore t)%Q)
    /\ (forall (j : nat) (t : Server.t),
          [Sample.fresh; Sample3.threeShort; Sample3.oneLong] !! j = Some t ->
          (j < Z.to_nat idx)%nat ->
          (Spec.doubleScore s < Spec.doubleScore t)%Q).
Proof.
  apply LeastResponseTime_selects_first_minimum. discriminate.
Defined.

(** The score is not the one of the completions and the exact quotient.  A
    server with two completions that took no time has the quotient 0, below
    the 50 ms of [Sample.seasoned], and yet is passed over: its average is
    0, and its one active request gives it the score 100.  And 400 ms over
    three completions is less than 133.33333333333334 ms over one, yet the
    two averages are the same double and the lower index is returned. *)
Lemma LeastResponseTime_not_exact_quotient :
  fst (LeastResponseTimeAlgorithm.selectServer [Sample3.stalled; Sample.seasoned] 0 Sample.zeros)
  = Js.Return 1
  /\ (Spec.effectiveScore Sample3.stalled < Spec.effectiveScore Sample.seasoned)%Q
  /\ fst (LeastResponseTimeAlgorithm.selectServer [Sample3.oneLong; Sample3.threeShort] 0
            Sample.zeros)
     = Js.Return 0
  /\ (Spec.effectiveScore Sample3.threeShort < Spec.effectiveScore Sample3.oneLong)%Q
  /\ (Spec.doubleScore Sample3.threeShort == Spec.doubleScore Sample3.oneLong)%Q.
Proof. repeat split; vm_compute; reflexivity. Qed.

(** A server without completions is not preferred as such: with one active
    request its score is 100, above the 50 ms average of a server that has
    completed two requests, and the latter is selected. *)
Example LeastResponseTime_prefers_lower_average (g : Math.RandState) :
  LeastResponseTimeAlgorithm.selectServer [Sample.fresh; Sample.seasoned] 0 g
  = (Js.Return 1, g).
Proof. reflexivity. Qed.

(** C3: with a first server that is full and a second one that is idle, the
    round-robin scan from cursor 0 returns index 0, which the capacity test
    refuses for a green request; the scan as specified returns index 1. *)
Theorem RoundRobin_ignores_capacity (g : Math.RandState) :
  RoundRobinAlgorithm.selectServer [Sample.busy; Server.new] 0 g = (Js.Return 0, g)
  /\ Server.canHandleRequest Sample.busy (Sample.green 10) = false
  /\ Server.canHandleRequest Server.new (Sample.green 10) = true
  /\ Spec.roundRobin (Sample.green 10) [Sample.busy; Server.new] 0 = 1.
Proof. repeat split. Qed.

(** C7: with the same two servers and a first draw of 0, the random
    algorithm returns index 0 although the capacity test refuses it for a
    green request and accepts the server at index 1. *)
Theorem Random_ignores_capacity (fuel : nat) (cursor : Z) :
  fst (RandomAlgorithm.selectServer (S fuel) [Sample.busy; Server.new] cursor Sample.zeros)
  = Js.Return 0
  /\ Server.canHandleRequest Sample.busy (Sample.green 10) = false
  /\ Server.canHandleRequest Server.new (Sample.green 10) = true.
Proof.
  split; [|split; reflexivity].
  rewrite Random_returns_first_draw by discriminate. reflexivity.
Qed.

(** ** The balance score *)

Lemma fold_Qplus_zero (values : list Q) (acc : Q) :
  (acc == 0)%Q -> Forall (fun v => (v == 0)%Q) values -> (fold_left Qplus values acc == 0)%Q.
Proof.
  revert acc. induction values as [|v values IH]; intros acc Hacc Hall; simpl; [exact Hacc|].
  inversion Hall; subst. apply IH; [|assumption].
  rewrite Hacc, H1. ring.
Qed.


Lemma average_zero (values : list Q) :
  Forall (fun v => (v == 0)%Q) values -> (Spec.average values == 0)%Q.
Proof.
  intros Hall. unfold Spec.average.
  rewrite (fold_Qplus_zero values 0 (Qeq_refl 0) Hall). unfold Qdiv. apply Qmult_0_l.
Qed.



Lemma calculateBalanceScore_zero_mean (values : list Q) :
  (Spec.average values == 0)%Q -> LoadBalancerSimulation.calculateBalanceScore values = 100.
Proof.
  intros E. destruct values as [|v values]; [reflexivity|].
  unfold LoadBalancerSimulation.calculateBalanceScore.
  change (fold_left Qplus (v :: values) 0 / inject_Z (Js.length (v :: values)))%Q
    with (Spec.average (v :: values)).
  apply Qeq_bool_iff in E. now rewrite E.
Qed.



(** ** Rounding to a double

    [binary_round_aux] drops the low bits of a mantissa in two stages,
    rounding to the nearest even in between.  Three facts about it carry the
    balance score: what it returns has the sign asked for and an exponent of
    the format; a number that is at most an integer below [2 ^ 52] is not
    rounded past it; and a number with a bit above the smallest exponent is
    not rounded to zero. *)

(** The exponent of the last bit kept for a number of [x] bits. *)
Lemma fexp_eq (x : Z) : Double.fexp x = Z.max (x - 53) (-1074).
Proof. reflexivity. Qed.

Lemma digits2_pos_bounds (m : positive) :
  2 ^ (Z.pos (digits2_pos m) - 1) <= Z.pos m < 2 ^ Z.pos (digits2_pos m).
Proof.
  induction m as [m IH|m IH|]; simpl digits2_pos.
  - rewrite Pos2Z.inj_succ.
    replace (Z.succ (Z.pos (digits2_pos m)) - 1) with (Z.pos (digits2_pos m)) by lia.
    rewrite Z.pow_succ_r by lia.
    replace (2 ^ Z.pos (digits2_pos m)) with (2 * 2 ^ (Z.pos (digits2_pos m) - 1)) in *
      by (rewrite <- Z.pow_succ_r by lia; f_equal; lia).
    lia.
  - rewrite Pos2Z.inj_succ.
    replace (Z.succ (Z.pos (digits2_pos m)) - 1) with (Z.pos (digits2_pos m)) by lia.
    rewrite Z.pow_succ_r by lia.
    replace (2 ^ Z.pos (digits2_pos m)) with (2 * 2 ^ (Z.pos (digits2_pos m) - 1)) in *
      by (rewrite <- Z.pow_succ_r by lia; f_equal; lia).
    lia.
  - simpl. lia.
Qed.

Lemma Zdigits2_bounds (m : Z) :
  0 < m -> 0 < Zdigits2 m /\ 2 ^ (Zdigits2 m - 1) <= m < 2 ^ Zdigits2 m.
Proof.
  destruct m as [|p|p]; try lia. intros _. simpl. split; [lia | apply digits2_pos_bounds].
Qed.

Lemma Zdigits2_nonneg (m : Z) : 0 <= m -> 0 <= Zdigits2 m.
Proof. destruct m; simpl; lia. Qed.

Lemma pow2_xO (p : positive) : 2 ^ Z.pos p~0 = 2 ^ Z.pos p * 2 ^ Z.pos p.
Proof.
  rewrite (Pos2Z.inj_xO p). replace (2 * Z.pos p) with (Z.pos p + Z.pos p) by lia.
  apply Z.pow_add_r; lia.
Qed.

Lemma pow2_xI (p : positive) : 2 ^ Z.pos p~1 = 2 * (2 ^ Z.pos p * 2 ^ Z.pos p).
Proof.
  rewrite (Pos2Z.inj_xI p). replace (2 * Z.pos p + 1) with (Z.succ (Z.pos p + Z.pos p)) by lia.
  rewrite Z.pow_succ_r by lia. f_equal. apply Z.pow_add_r; lia.
Qed.

(** Dropping low bits: [shr_1] halves the mantissa and remembers in two
    flags what it dropped; the flags stay clear when nothing is lost. *)
Lemma shr_1_m (mrs : shr_record) : 0 <= shr_m mrs -> shr_m (shr_1 mrs) = shr_m mrs / 2.
Proof.
  destruct mrs as [m r s]. simpl. intros Hm. rewrite <- Z.div2_div.
  destruct m as [|[p|p|]|p]; try reflexivity. lia.
Qed.

Lemma shr_1_exact (mrs : shr_record) :
  0 <= shr_m mrs -> shr_r mrs = false -> shr_s mrs = false -> shr_m mrs mod 2 = 0 ->
  shr_r (shr_1 mrs) = false /\ shr_s (shr_1 mrs) = false.
Proof.
  destruct mrs as [m r s]. simpl. intros Hm -> -> Hmod.
  destruct m as [|[p|p|]|p]; simpl; try (split; reflexivity); try lia.
  - rewrite Pos2Z.inj_xI in Hmod.
    rewrite Z.add_comm, Z.mul_comm, Z.mod_add in Hmod by lia. discriminate.
  - discriminate.
Qed.

Lemma iter_pos_shr_m (p : positive) (mrs : shr_record) :
  0 <= shr_m mrs -> shr_m (SpecFloat.iter_pos shr_1 p mrs) = shr_m mrs / 2 ^ Z.pos p.
Proof.
  revert mrs. induction p as [p IH|p IH|]; intros mrs Hm; simpl SpecFloat.iter_pos.
  - assert (H1 : 0 <= shr_m (shr_1 mrs)) by (rewrite shr_1_m by lia; apply Z.div_pos; lia).
    assert (H2 : 0 <= shr_m (SpecFloat.iter_pos shr_1 p (shr_1 mrs)))
      by (rewrite IH by lia; apply Z.div_pos; [lia | apply Z.pow_pos_nonneg; lia]).
    rewrite IH, IH, shr_1_m by lia.
    rewrite !Z.div_div by (try apply Z.pow_pos_nonneg; lia).
    f_equal. now rewrite pow2_xI.
  - assert (H2 : 0 <= shr_m (SpecFloat.iter_pos shr_1 p mrs))
      by (rewrite IH by lia; apply Z.div_pos; [lia | apply Z.pow_pos_nonneg; lia]).
    rewrite IH, IH by lia.
    rewrite !Z.div_div by (try apply Z.pow_pos_nonneg; lia).
    f_equal. now rewrite pow2_xO.
  - now apply shr_1_m.
Qed.

Lemma mod_mul_split (m a b : Z) :
  0 < a -> 0 < b -> m mod (a * b) = 0 -> m mod a = 0 /\ (m / a) mod b = 0.
Proof.
  intros Ha Hb Hm. apply Z.mod_divide in Hm; [|lia]. destruct Hm as [k Hk]. subst m.
  split.
  - apply Z.mod_divide; [lia|]. exists (k * b). lia.
  - replace (k * (a * b)) with (k * b * a) by lia. rewrite Z.div_mul by lia.
    apply Z.mod_divide; [lia|]. exists k. lia.
Qed.

Lemma iter_pos_shr_exact (p : positive) (mrs : shr_record) :
  0 <= shr_m mrs -> shr_r mrs = false -> shr_s mrs = false ->
  shr_m mrs mod 2 ^ Z.pos p = 0 ->
  shr_r (SpecFloat.iter_pos shr_1 p mrs) = false /\ shr_s (SpecFloat.iter_pos shr_1 p mrs) = false.
Proof.
  revert mrs. induction p as [p IH|p IH|]; intros mrs Hm Hr Hs Hmod; simpl SpecFloat.iter_pos.
  - rewrite pow2_xI in Hmod.
    assert (Hp : 0 < 2 ^ Z.pos p) by (apply Z.pow_pos_nonneg; lia).
    apply mod_mul_split in Hmod as [H1 H2]; [| lia | lia].
    apply mod_mul_split in H2 as [H2 H3]; [| lia | lia].
    destruct (shr_1_exact mrs Hm Hr Hs H1) as [Hr1 Hs1].
    assert (Hm1 : 0 <= shr_m (shr_1 mrs)) by (rewrite shr_1_m by lia; apply Z.div_pos; lia).
    assert (E1 : shr_m (shr_1 mrs) = shr_m mrs / 2) by (apply shr_1_m; lia).
    destruct (IH (shr_1 mrs) Hm1 Hr1 Hs1) as [Hr2 Hs2]; [now rewrite E1|].
    apply IH; try assumption.
    + rewrite iter_pos_shr_m by lia. apply Z.div_pos; lia.
    + rewrite iter_pos_shr_m, E1 by lia. exact H3.
  - rewrite pow2_xO in Hmod.
    assert (Hp : 0 < 2 ^ Z.pos p) by (apply Z.pow_pos_nonneg; lia).
    apply mod_mul_split in Hmod as [H1 H2]; [| lia | lia].
    destruct (IH mrs Hm Hr Hs H1) as [Hr2 Hs2].
    apply IH; try assumption.
    + rewrite iter_pos_shr_m by lia. apply Z.div_pos; lia.
    + rewrite iter_pos_shr_m by lia. exact H2.
  - now apply shr_1_exact.
Qed.

Lemma shr_record_of_loc_m (m : Z) (l : location) : shr_m (shr_record_of_loc m l) = m.
Proof. destruct l as [|[]]; reflexivity. Qed.

Lemma round_nearest_even_bounds (m : Z) (l : location) :
  m <= round_nearest_even m l <= m + 1.
Proof. destruct l as [|[]]; simpl; try destruct (Z.even m); lia. Qed.

(** [shr_fexp]: the mantissa is divided by [2 ^ n], [n] the number of bits
    to drop, and nothing is lost when that division is exact. *)
Lemma shr_fexp_spec (m e : Z) (l : location) :
  0 <= m ->
  let n := Z.max 0 (Double.fexp (Zdigits2 m + e) - e) in
  exists mrs,
    shr_fexp Double.prec Double.emax m e l = (mrs, e + n)
    /\ shr_m mrs = m / 2 ^ n
    /\ (l = loc_Exact -> m mod 2 ^ n = 0 -> loc_of_shr_record mrs = loc_Exact).
Proof.
  intros Hm n. subst n. unfold shr_fexp, shr, Double.fexp.
  destruct (SpecFloat.fexp Double.prec Double.emax (Zdigits2 m + e) - e) as [|p|p] eqn:E.
  - exists (shr_record_of_loc m l). rewrite Z.max_l by lia. rewrite Z.add_0_r.
    split; [reflexivity|]. split; [rewrite shr_record_of_loc_m; simpl; now rewrite Z.div_1_r|].
    intros -> _. reflexivity.
  - exists (SpecFloat.iter_pos shr_1 p (shr_record_of_loc m l)). rewrite Z.max_r by lia.
    split; [reflexivity|].
    split; [rewrite iter_pos_shr_m; rewrite shr_record_of_loc_m; [reflexivity | lia]|].
    intros -> Hmod.
    destruct (iter_pos_shr_exact p (shr_record_of_loc m loc_Exact)) as [Hr Hs];
      try reflexivity; try (simpl; lia); try exact Hmod.
    destruct (SpecFloat.iter_pos shr_1 p _) as [m' r' s']. simpl in *. now rewrite Hr, Hs.
  - exists (shr_record_of_loc m l). rewrite Z.max_l by lia. rewrite Z.add_0_r.
    split; [reflexivity|]. split; [rewrite shr_record_of_loc_m; simpl; now rewrite Z.div_1_r|].
    intros -> _. reflexivity.
Qed.

(** The two stages of [binary_round_aux]. *)
Lemma round_aux_spec (s : bool) (M e : Z) (l : location) :
  0 <= M ->
  let n1 := Z.max 0 (Double.fexp (Zdigits2 M + e) - e) in
  exists m1,
    M / 2 ^ n1 <= m1 <= M / 2 ^ n1 + 1
    /\ (l = loc_Exact -> M mod 2 ^ n1 = 0 -> m1 = M / 2 ^ n1)
    /\ let n2 := Z.max 0 (Double.fexp (Zdigits2 m1 + (e + n1)) - (e + n1)) in
       Double.round_aux s M e l
       = match m1 / 2 ^ n2 with
         | Z0 => S754_zero s
         | Z.pos m => if e + n1 + n2 <=? Double.emax - Double.prec
                      then S754_finite s m (e + n1 + n2) else S754_infinity s
         | Z.neg _ => S754_nan
         end.
Proof.
  intros HM n1. unfold Double.round_aux, binary_round_aux.
  destruct (shr_fexp_spec M e l HM) as (mrs & E1 & Hm1 & Hex1). fold n1 in E1, Hm1, Hex1.
  rewrite E1.
  set (m1 := round_nearest_even (shr_m mrs) (loc_of_shr_record mrs)).
  assert (Hb : M / 2 ^ n1 <= m1 <= M / 2 ^ n1 + 1).
  { rewrite <- Hm1. apply round_nearest_even_bounds. }
  assert (H0 : 0 <= M / 2 ^ n1) by (apply Z.div_pos; [lia | apply Z.pow_pos_nonneg; lia]).
  exists m1. split; [exact Hb|]. split.
  - intros Hl Hmod. unfold m1. rewrite (Hex1 Hl Hmod). simpl. exact Hm1.
  - destruct (shr_fexp_spec m1 (e + n1) loc_Exact) as (mrs2 & E2 & Hm2 & _); [lia|].
    cbv zeta in E2, Hm2. rewrite E2, Hm2. reflexivity.
Qed.

Lemma pow2_pos (k : Z) : 0 <= k -> 0 < 2 ^ k.
Proof. intros. apply Z.pow_pos_nonneg; lia. Qed.

Lemma pow2_split (a b : Z) : 0 <= b <= a -> 2 ^ a = 2 ^ (a - b) * 2 ^ b.
Proof. intros H. rewrite <- Z.pow_add_r by lia. f_equal. lia. Qed.

Lemma pow2_le_inv (a b : Z) : 0 <= b -> 2 ^ a <= 2 ^ b -> a <= b.
Proof. intros Hb H. apply (Z.pow_le_mono_r_iff 2); lia. Qed.

(** A quotient by a power of two keeps a bound that is a multiple of it. *)
Lemma div_pow2_le (m K n : Z) : 0 <= n -> m <= K * 2 ^ n -> m / 2 ^ n <= K.
Proof.
  intros Hn H. pose proof (pow2_pos n Hn).
  apply Z.div_le_upper_bound; [lia | lia].
Qed.

Lemma div_pow2_ge (m K n : Z) : 0 <= n -> K * 2 ^ n <= m -> K <= m / 2 ^ n.
Proof.
  intros Hn H. pose proof (pow2_pos n Hn).
  apply Z.div_le_lower_bound; [lia | lia].
Qed.

Lemma round_aux_rounded (s : bool) (M e : Z) (l : location) :
  0 <= M -> Double.rounded s (Double.round_aux s M e l).
Proof.
  intros HM. destruct (round_aux_spec s M e l HM) as (m1 & [Hlo _] & _ & ->).
  set (n1 := Z.max 0 (Double.fexp (Zdigits2 M + e) - e)) in *.
  set (n2 := Z.max 0 (Double.fexp (Zdigits2 m1 + (e + n1)) - (e + n1))).
  assert (H0 : 0 <= M / 2 ^ n1) by (apply Z.div_pos; [lia | apply pow2_pos; lia]).
  assert (H1 : 0 <= m1 / 2 ^ n2) by (apply Z.div_pos; [lia | apply pow2_pos; lia]).
  destruct (m1 / 2 ^ n2) as [|m|m]; [constructor | | lia].
  destruct (_ <=? _); [|constructor]. constructor.
  pose proof (fexp_eq (Zdigits2 M + e)). lia.
Qed.

Lemma digits_le_wide (m B k : Z) :
  0 <= m -> 0 <= k -> 0 <= B <= 2 ^ 52 -> m <= B * 2 ^ k -> Zdigits2 m <= k + 53.
Proof.
  intros Hm Hk HB Hle. destruct (Z.eq_dec m 0) as [-> | Hne]; [simpl; lia|].
  destruct (Zdigits2_bounds m ltac:(lia)) as [Hd [Hlo _]].
  pose proof (pow2_pos k Hk) as Hp.
  assert (H : 2 ^ (Zdigits2 m - 1) <= 2 ^ (k + 52)).
  { rewrite (Z.pow_add_r 2 k 52) by lia. nia. }
  apply pow2_le_inv in H; lia.
Qed.

(** Rounding does not go past an integer below [2 ^ 52], whatever the sign
    and whatever was dropped before, as long as the number itself is at most
    that integer. *)
Lemma round_aux_bounded (s : bool) (M e B : Z) (l : location) :
  0 <= M -> e <= 0 -> 0 <= B <= 2 ^ 52 -> M <= B * 2 ^ (- e) ->
  (M = B * 2 ^ (- e) -> l = loc_Exact) ->
  Double.bounded s B (Double.round_aux s M e l).
Proof.
  intros HM He HB Hle Hexl.
  destruct (round_aux_spec s M e l HM) as (m1 & [Hlo Hhi] & Hexact & ->).
  set (n1 := Z.max 0 (Double.fexp (Zdigits2 M + e) - e)) in *.
  set (n2 := Z.max 0 (Double.fexp (Zdigits2 m1 + (e + n1)) - (e + n1))).
  pose proof (digits_le_wide M B (- e) HM ltac:(lia) HB Hle) as Hd.
  pose proof (fexp_eq (Zdigits2 M + e)) as F1.
  assert (Hn1 : 0 <= n1 <= - e) by lia.
  pose proof (pow2_pos n1 ltac:(lia)) as Hp1.
  assert (HK : B * 2 ^ (- e) = B * 2 ^ (- e - n1) * 2 ^ n1).
  { rewrite <- Z.mul_assoc, <- (pow2_split (- e) n1) by lia. reflexivity. }
  assert (Hm1 : 0 <= m1 <= B * 2 ^ (- e - n1)).
  { assert (H0 : 0 <= M / 2 ^ n1) by (apply Z.div_pos; lia).
    split; [lia|].
    pose proof (div_pow2_le M (B * 2 ^ (- e - n1)) n1 ltac:(lia) ltac:(lia)) as Hq.
    destruct (Z.eq_dec (M / 2 ^ n1) (B * 2 ^ (- e - n1))) as [E|E]; [|lia].
    pose proof (Z.div_mod M (2 ^ n1) ltac:(lia)) as Hdm.
    pose proof (Z.mod_pos_bound M (2 ^ n1) Hp1) as Hr.
    rewrite E in Hdm.
    assert (HMeq : M = B * 2 ^ (- e)) by nia.
    rewrite Hexact; [lia | now apply Hexl | nia]. }
  pose proof (digits_le_wide m1 B (- e - n1) ltac:(lia) ltac:(lia) HB (proj2 Hm1)) as Hd1.
  pose proof (fexp_eq (Zdigits2 m1 + (e + n1))) as F2.
  assert (Hn2 : 0 <= n2 <= - e - n1) by lia.
  pose proof (pow2_pos n2 ltac:(lia)) as Hp2.
  assert (Hq : m1 / 2 ^ n2 <= B * 2 ^ (- e - n1 - n2)).
  { apply div_pow2_le; [lia|].
    rewrite <- Z.mul_assoc, <- (pow2_split (- e - n1) n2) by lia. lia. }
  assert (H0 : 0 <= m1 / 2 ^ n2) by (apply Z.div_pos; lia).
  destruct (m1 / 2 ^ n2) as [|m|m] eqn:Em; [exact I | | lia].
  replace (e + n1 + n2 <=? Double.emax - Double.prec) with true
    by (symmetry; apply Z.leb_le; unfold Double.emax, Double.prec; lia).
  simpl. split; [reflexivity|]. split; [lia|].
  replace (- (e + n1 + n2)) with (- e - n1 - n2) by lia. exact Hq.
Qed.

Lemma round_aux_nonzero (s : bool) (M e : Z) (l : location) :
  0 < M -> -1074 < Zdigits2 M + e -> Double.nonzero (Double.round_aux s M e l).
Proof.
  intros HM Hd.
  destruct (round_aux_spec s M e l) as (m1 & [Hlo Hhi] & _ & ->); [lia|].
  set (n1 := Z.max 0 (Double.fexp (Zdigits2 M + e) - e)) in *.
  set (n2 := Z.max 0 (Double.fexp (Zdigits2 m1 + (e + n1)) - (e + n1))).
  destruct (Zdigits2_bounds M HM) as [Hd0 [HMlo _]].
  pose proof (fexp_eq (Zdigits2 M + e)) as F1.
  assert (Hn1 : 0 <= n1 <= Zdigits2 M - 1) by lia.
  assert (H1 : 1 <= M / 2 ^ n1).
  { apply div_pow2_ge; [lia|]. rewrite Z.mul_1_l.
    apply Z.le_trans with (2 ^ (Zdigits2 M - 1)); [|exact HMlo].
    apply Z.pow_le_mono_r; lia. }
  assert (Hm1 : 0 < m1) by lia.
  destruct (Zdigits2_bounds m1 Hm1) as [Hd1 [Hm1lo _]].
  pose proof (fexp_eq (Zdigits2 m1 + (e + n1))) as F2.
  assert (Hn2 : 0 <= n2 <= Zdigits2 m1 - 1) by lia.
  assert (H2 : 1 <= m1 / 2 ^ n2).
  { apply div_pow2_ge; [lia|]. rewrite Z.mul_1_l.
    apply Z.le_trans with (2 ^ (Zdigits2 m1 - 1)); [|exact Hm1lo].
    apply Z.pow_le_mono_r; lia. }
  destruct (m1 / 2 ^ n2) as [|m|m]; [lia | | lia].
  destruct (_ <=? _); exact I.
Qed.

(** [shl_align] lowers the exponent and keeps the value. *)
Lemma shl_align_spec (mx : positive) (ex ex' : Z) :
  exists mz ez,
    shl_align mx ex ex' = (mz, ez)
    /\ ez = Z.min ex ex'
    /\ Z.pos mz = Z.pos mx * 2 ^ (ex - ez)
    /\ Z.pos (digits2_pos mz) + ez = Z.pos (digits2_pos mx) + ex.
Proof.
  unfold shl_align. destruct (ex' - ex) as [|d|d] eqn:E.
  - exists mx, ex. rewrite Z.sub_diag, Z.pow_0_r. repeat split; lia.
  - exists mx, ex. rewrite Z.sub_diag, Z.pow_0_r. repeat split; lia.
  - exists (Pos.iter xO mx d), ex'. split; [reflexivity|]. split; [lia|].
    replace (ex - ex') with (Z.pos d) by lia. split.
    + change (Pos.iter xO mx d) with (Zpower.shift_pos d mx).
      rewrite Zpower.shift_pos_correct. change (Z.pow_pos 2 d) with (2 ^ Z.pos d). apply Z.mul_comm.
    + assert (H : digits2_pos (Pos.iter xO mx d) = (digits2_pos mx + d)%positive).
      { clear E. induction d as [|d IH] using Pos.peano_ind.
        - simpl. now rewrite Pos.add_1_r.
        - rewrite Pos.iter_succ. simpl. rewrite IH. now rewrite Pos.add_succ_r. }
      rewrite H. lia.
Qed.

Lemma shl_align_fst (mx : positive) (ex ez : Z) :
  ez <= ex -> Z.pos (fst (shl_align mx ex ez)) = Z.pos mx * 2 ^ (ex - ez).
Proof.
  intros Hle. unfold shl_align. destruct (ez - ex) as [|d|d] eqn:E; simpl.
  - replace (ex - ez) with 0 by lia. rewrite Z.pow_0_r. lia.
  - lia.
  - replace (ex - ez) with (Z.pos d) by lia.
    change (Pos.iter xO mx d) with (Zpower.shift_pos d mx).
    rewrite Zpower.shift_pos_correct. change (Z.pow_pos 2 d) with (2 ^ Z.pos d). apply Z.mul_comm.
Qed.

Lemma round_pos_rounded (s : bool) (mx : positive) (ex : Z) :
  Double.rounded s (Double.round_pos s mx ex).
Proof.
  unfold Double.round_pos, binary_round.
  destruct (shl_align_spec mx ex
              (SpecFloat.fexp Double.prec Double.emax (Z.pos (digits2_pos mx) + ex)))
    as (mz & ez & -> & _).
  apply round_aux_rounded. lia.
Qed.

Lemma round_pos_bounded (s : bool) (mx : positive) (ex B : Z) :
  ex <= 0 -> 0 <= B <= 2 ^ 52 -> Z.pos mx <= B * 2 ^ (- ex) ->
  Double.bounded s B (Double.round_pos s mx ex).
Proof.
  intros He HB Hle. unfold Double.round_pos, binary_round.
  destruct (shl_align_spec mx ex
              (SpecFloat.fexp Double.prec Double.emax (Z.pos (digits2_pos mx) + ex)))
    as (mz & ez & -> & Hez & Hmz & _).
  apply round_aux_bounded; try lia; [|reflexivity].
  rewrite Hmz. rewrite (pow2_split (- ez) (ex - ez)) by lia.
  replace (- ez - (ex - ez)) with (- ex) by lia.
  pose proof (pow2_pos (ex - ez) ltac:(lia)). nia.
Qed.

Lemma bounded_mono (s : bool) (A B : Z) (x : spec_float) :
  A <= B -> Double.bounded s A x -> Double.bounded s B x.
Proof.
  intros HAB. destruct x as [| | |s' m e]; simpl; try tauto.
  intros (-> & He & Hm). split; [reflexivity|]. split; [exact He|].
  pose proof (pow2_pos (- e) ltac:(lia)). nia.
Qed.

(** The aligned mantissa of a Double.bounded number. *)
Lemma aligned_bounded (m : positive) (e ez B : Z) :
  e <= 0 -> ez <= e -> Z.pos m <= B * 2 ^ (- e) ->
  Z.pos (fst (shl_align m e ez)) <= B * 2 ^ (- ez).
Proof.
  intros He Hez Hm. rewrite shl_align_fst by exact Hez.
  rewrite (pow2_split (- ez) (e - ez)) by lia.
  replace (- ez - (e - ez)) with (- e) by lia.
  pose proof (pow2_pos (e - ez) ltac:(lia)). nia.
Qed.

Lemma round_pos_nonzero (s : bool) (mx : positive) (ex : Z) :
  -1074 < Z.pos (digits2_pos mx) + ex -> Double.nonzero (Double.round_pos s mx ex).
Proof.
  intros Hd. unfold Double.round_pos, binary_round.
  destruct (shl_align_spec mx ex
              (SpecFloat.fexp Double.prec Double.emax (Z.pos (digits2_pos mx) + ex)))
    as (mz & ez & -> & _ & _ & Hdz).
  apply round_aux_nonzero; [lia|]. unfold Zdigits2. lia.
Qed.

(** ** The balance score on doubles *)

Lemma rounded_nonneg (x : spec_float) : Double.rounded false x -> Double.nonneg x.
Proof. now intros []. Qed.

Lemma abs_rounded (s : bool) (x : spec_float) : Double.rounded s x -> Double.nonneg (SFabs x).
Proof. now intros []. Qed.

Lemma normalize_rounded (m e : Z) :
  match m with
  | Z0 => binary_normalize Double.prec Double.emax m e false = S754_zero false
  | Z.pos _ => Double.rounded false (binary_normalize Double.prec Double.emax m e false)
  | Z.neg _ => Double.rounded true (binary_normalize Double.prec Double.emax m e false)
  end.
Proof. destruct m; simpl; [reflexivity | apply round_pos_rounded | apply round_pos_rounded]. Qed.

Lemma add_nonneg (a b : spec_float) :
  Double.nonneg a -> Double.nonneg b -> Double.nonneg (Double.add a b).
Proof.
  destruct a as [sa|[]| |[] ma ea]; try contradiction;
    destruct b as [sb|[]| |[] mb eb]; try contradiction; intros _ _; try exact I.
  - destruct sa, sb; exact I.
  - unfold Double.add, SFadd. unfold cond_Zopp.
    apply rounded_nonneg.
    apply (normalize_rounded (Z.pos _ + Z.pos _)).
Qed.

Lemma sum_nonneg (values : list spec_float) (acc : spec_float) :
  Double.nonneg acc -> Forall Double.nonneg values ->
  Double.nonneg (fold_left Double.add values acc).
Proof.
  revert acc. induction values as [|v values IH]; intros acc Hacc Hall; simpl; [exact Hacc|].
  inversion Hall; subst. apply IH; [now apply add_nonneg | assumption].
Qed.

Lemma of_Z_pos (p : positive) :
  Double.rounded false (Double.of_Z (Z.pos p)) /\ Double.nonzero (Double.of_Z (Z.pos p)).
Proof.
  split; [apply round_pos_rounded|]. apply round_pos_nonzero. lia.
Qed.

Lemma div_core_nonneg (m1 : positive) (e1 : Z) (m2 : positive) (e2 : Z) :
  0 <= fst (fst (SFdiv_core_binary Double.prec Double.emax (Z.pos m1) e1 (Z.pos m2) e2)).
Proof.
  unfold SFdiv_core_binary.
  set (m' := match _ - _ - _ with Z.pos _ => _ | Z0 => _ | Z.neg _ => _ end).
  assert (Hm' : 0 <= m').
  { unfold m'. destruct (_ - _ - _); [lia | apply Z.shiftl_nonneg; lia | lia]. }
  pose proof (Z.div_pos m' (Z.pos m2) Hm' ltac:(lia)) as Hq.
  unfold Z.div in Hq. destruct (Z.div_eucl m' (Z.pos m2)) as [q r]. exact Hq.
Qed.

Lemma div_finite_rounded (m1 : positive) (e1 : Z) (m2 : positive) (e2 : Z) :
  Double.rounded false (Double.div (S754_finite false m1 e1) (S754_finite false m2 e2)).
Proof.
  unfold Double.div, SFdiv. pose proof (div_core_nonneg m1 e1 m2 e2) as H.
  destruct (SFdiv_core_binary _ _ _ _ _ _) as [[mz ez] lz]. simpl in H.
  now apply round_aux_rounded.
Qed.

(** The quotient of a number that is not negative by a positive one. *)
Lemma div_nonneg (x y : spec_float) :
  Double.nonneg x -> Double.rounded false y -> Double.nonzero y -> Double.finite (Double.div x y) ->
  Double.zero_or_positive (Double.div x y).
Proof.
  intros Hx Hy Hy0 Hfin.
  destruct Hy as [|m2 e2 He2|]; [contradiction | |];
    destruct x as [sx|[]| |[] m1 e1]; try contradiction; try exact I; try contradiction.
  pose proof (div_finite_rounded m1 e1 m2 e2) as H.
  destruct H; try exact I; [assumption | contradiction].
Qed.

Lemma div_nonneg' (x y : spec_float) :
  Double.nonneg x -> Double.finite x -> Double.rounded false y -> Double.nonzero y ->
  Double.nonneg (Double.div x y).
Proof.
  intros Hx Hfx Hy Hy0.
  destruct Hy as [|m2 e2 He2|]; [contradiction | |];
    destruct x as [sx|[]| |[] m1 e1]; try contradiction; try exact I.
  apply rounded_nonneg, div_finite_rounded.
Qed.

Lemma sub_rounded (v : spec_float) (m : positive) (e : Z) :
  Double.nonneg v -> Double.nonneg (SFabs (Double.sub v (S754_finite false m e))).
Proof.
  destruct v as [sv|[]| |[] mv ev]; try contradiction; intros _; try exact I.
  unfold Double.sub, SFsub, cond_Zopp.
  pose proof (normalize_rounded
                (Z.pos (fst (shl_align mv ev (Z.min ev e)))
                 - Z.pos (fst (shl_align m e (Z.min ev e)))) (Z.min ev e)) as H.
  destruct (_ - _); [rewrite H; exact I | |]; eapply abs_rounded; exact H.
Qed.

Lemma max_nonneg (a b : spec_float) :
  Double.nonneg a -> Double.nonneg b -> Math.maxDouble a b = a \/ Math.maxDouble a b = b.
Proof.
  intros Ha Hb. unfold Math.maxDouble.
  destruct a as [sa|[]| |[] ma ea]; try contradiction;
    destruct b as [sb|[]| |[] mb eb]; try contradiction; simpl; auto.
  destruct (ea ?= eb); auto. destruct (Pos.compare_cont Eq ma mb); auto.
Qed.

Lemma max_list_nonneg (ds : list spec_float) (d : spec_float) :
  Double.nonneg d -> Forall Double.nonneg ds -> Double.nonneg (fold_left Math.maxDouble ds d).
Proof.
  revert d. induction ds as [|x ds IH]; intros d Hd Hall; simpl; [exact Hd|].
  inversion Hall; subst. apply IH; [|assumption].
  destruct (max_nonneg d x Hd H1) as [-> | ->]; assumption.
Qed.

Lemma one_eq : Double.of_Z 1 = S754_finite false 4503599627370496 (-52).
Proof. reflexivity. Qed.
Lemma two_eq : Double.of_Z 2 = S754_finite false 4503599627370496 (-51).
Proof. reflexivity. Qed.
Lemma hundred_eq : Double.of_Z 100 = S754_finite false 7036874417766400 (-46).
Proof. reflexivity. Qed.

(** Doubling a positive double does not underflow. *)
Lemma mul_two (m : positive) (e : Z) :
  -1074 <= e ->
  Double.rounded false (Double.mul (S754_finite false m e) (Double.of_Z 2))
  /\ Double.nonzero (Double.mul (S754_finite false m e) (Double.of_Z 2)).
Proof.
  intros He. rewrite two_eq. unfold Double.mul, SFmul. simpl xorb.
  split; [apply round_aux_rounded; lia|].
  apply round_aux_nonzero; [lia|].
  destruct (Zdigits2_bounds (Z.pos (m * 4503599627370496)) ltac:(lia)) as [Hd0 [_ Hhi]].
  assert (H : 2 ^ 52 < 2 ^ Zdigits2 (Z.pos (m * 4503599627370496))).
  { eapply Z.le_lt_trans; [|exact Hhi]. rewrite Pos2Z.inj_mul.
    change (2 ^ 52) with (Z.pos 4503599627370496). lia. }
  apply Z.pow_lt_mono_r_iff in H; lia.
Qed.

(** [1 - q] for a [q] that is not negative. *)
Lemma one_minus (q : spec_float) :
  Double.nonneg q -> Double.at_most 1 (Double.sub (Double.of_Z 1) q).
Proof.
  rewrite one_eq.
  destruct q as [sq|[]| |[] mq eq]; try contradiction; intros _.
  - left. simpl. repeat split; lia.
  - right. constructor.
  - unfold Double.sub, SFsub, cond_Zopp.
    set (ez := Z.min (-52) eq).
    pose proof (shl_align_fst 4503599627370496 (-52) ez ltac:(lia)) as HX.
    set (X := Z.pos (fst (shl_align 4503599627370496 (-52) ez))) in *.
    set (Y := Z.pos (fst (shl_align mq eq ez))).
    assert (HY : 0 < Y) by (unfold Y; lia).
    assert (HXe : X = 2 ^ (- ez)).
    { rewrite HX. change (Z.pos 4503599627370496) with (2 ^ 52).
      rewrite <- Z.pow_add_r by lia. f_equal. lia. }
    pose proof (normalize_rounded (X - Y) ez) as H.
    destruct (X - Y) as [|p|p] eqn:E.
    + left. rewrite H. exact I.
    + left. apply round_pos_bounded; [lia | lia | lia].
    + right. exact H.
Qed.

(** [100 * a] for an [a] that is at most 1. *)
Lemma hundred_times (a : spec_float) :
  Double.at_most 1 a -> Double.at_most 100 (Double.mul (Double.of_Z 100) a).
Proof.
  rewrite hundred_eq. intros [Ha | Ha].
  - destruct a as [sa| | |sa ma ea]; try contradiction.
    + left. exact I.
    + left. destruct Ha as (-> & Hea & Hma). unfold Double.mul, SFmul. simpl xorb.
      apply round_aux_bounded; [lia | lia | lia | | reflexivity].
      rewrite Pos2Z.inj_mul.
      replace (- (-46 + ea)) with (46 + - ea) by lia. rewrite Z.pow_add_r by lia.
      change (Z.pos 7036874417766400) with (100 * 2 ^ 46).
      pose proof (pow2_pos (- ea) ltac:(lia)). nia.
  - destruct Ha as [|ma ea Hea|].
    + left. exact I.
    + right. unfold Double.mul, SFmul. simpl xorb. apply round_aux_rounded. lia.
    + right. constructor.
Qed.

Lemma nearest_below (m : positive) (e : Z) :
  e <= 0 -> Z.pos m <= 100 * 2 ^ (- e) -> 0 <= Math.nearest false m e <= 100.
Proof.
  intros He Hm. unfold Math.nearest.
  destruct (Z.leb_spec 0 e) as [H0 | H0].
  - replace e with 0 in * by lia. simpl in *. lia.
  - pose proof (pow2_pos (- e) ltac:(lia)) as Hp.
    assert (E : 2 ^ (1 - e) = 2 * 2 ^ (- e)).
    { replace (1 - e) with (Z.succ (- e)) by lia. apply Z.pow_succ_r. lia. }
    rewrite E. split.
    + apply Z.div_pos; lia.
    + apply Z.lt_succ_r. apply Z.div_lt_upper_bound; lia.
Qed.

(** [Math.round(Math.max(0, b))] for a [b] that is at most 100. *)
Lemma round_max (b : spec_float) :
  Double.at_most 100 b ->
  exists r, Math.roundDouble (Math.maxDouble Double.zero b) = Double.of_Z r /\ 0 <= r <= 100.
Proof.
  intros [Hb | Hb].
  - destruct b as [sb| | |sb mb eb]; try contradiction.
    + exists 0. split; [reflexivity | lia].
    + destruct Hb as (-> & He & Hm). exists (Math.nearest false mb eb).
      split; [reflexivity | now apply nearest_below].
  - destruct Hb; exists 0; (split; [reflexivity | lia]).
Qed.

Lemma calculateBalanceScoreDouble_unfold (v : spec_float) (values : list spec_float) :
  Double.eqb (Spec.doubleMean (v :: values)) Double.zero = false ->
  LoadBalancerSimulation.calculateBalanceScoreDouble (v :: values)
  = Math.roundDouble
      (Math.maxDouble Double.zero
         (Double.mul (Double.of_Z 100)
            (Double.sub (Double.of_Z 1)
               (Double.div (Spec.doubleMaxDeviation (v :: values))
                  (Double.mul (Spec.doubleMean (v :: values)) (Double.of_Z 2)))))).
Proof.
  intros E. unfold LoadBalancerSimulation.calculateBalanceScoreDouble.
  fold (Spec.doubleMean (v :: values)). rewrite E. reflexivity.
Qed.

Lemma calculateBalanceScoreDouble_range (values : list spec_float) :
  Forall Double.nonneg values ->
  Double.finite (Spec.doubleMean values) ->
  Double.finite (Spec.doubleMaxDeviation values) ->
  exists r,
    LoadBalancerSimulation.calculateBalanceScoreDouble values = Double.of_Z r /\ 0 <= r <= 100.
Proof.
  intros Hall Hmean Hdev. destruct values as [|v values].
  { exists 100. split; [reflexivity | lia]. }
  assert (Hm : Double.zero_or_positive (Spec.doubleMean (v :: values))).
  { unfold Spec.doubleMean in *. apply div_nonneg; try assumption.
    - apply sum_nonneg; [exact I | exact Hall].
    - change (Js.length (v :: values)) with (Z.pos (Pos.of_succ_nat (length values))).
      apply of_Z_pos.
    - change (Js.length (v :: values)) with (Z.pos (Pos.of_succ_nat (length values))).
      apply of_Z_pos. }
  destruct (Double.eqb (Spec.doubleMean (v :: values)) Double.zero) eqn:E.
  { exists 100. unfold LoadBalancerSimulation.calculateBalanceScoreDouble.
    fold (Spec.doubleMean (v :: values)). rewrite E. split; [reflexivity | lia]. }
  rewrite calculateBalanceScoreDouble_unfold by exact E.
  destruct (Spec.doubleMean (v :: values)) as [sm|[]| |[] m e] eqn:Em; try contradiction;
    [destruct sm; discriminate|].
  simpl in Hm.
  assert (Hd : Double.nonneg (Spec.doubleMaxDeviation (v :: values))).
  { unfold Spec.doubleMaxDeviation. rewrite Em. simpl map. apply max_list_nonneg.
    - inversion Hall; subst. now apply sub_rounded.
    - inversion Hall; subst. apply List.Forall_map. eapply List.Forall_impl; [|eassumption].
      intros x Hx. now apply sub_rounded. }
  destruct (mul_two m e Hm) as [H2 H2'].
  apply round_max, hundred_times, one_minus.
  now apply div_nonneg'.
Qed.

Lemma sum_zero (values : list spec_float) (acc : spec_float) :
  Double.is_zero acc -> Forall Double.is_zero values ->
  Double.is_zero (fold_left Double.add values acc).
Proof.
  revert acc. induction values as [|v values IH]; intros acc Hacc Hall; simpl; [exact Hacc|].
  inversion Hall; subst. apply IH; [|assumption].
  destruct acc as [[]| | |]; try contradiction; destruct v as [[]| | |]; try contradiction; exact I.
Qed.

Lemma calculateBalanceScoreDouble_zero (values : list spec_float) :
  Forall Double.is_zero values ->
  LoadBalancerSimulation.calculateBalanceScoreDouble values = Double.of_Z 100.
Proof.
  intros Hall. destruct values as [|v values]; [reflexivity|].
  pose proof (sum_zero (v :: values) Double.zero I Hall) as Hs.
  unfold LoadBalancerSimulation.calculateBalanceScoreDouble.
  change (Js.length (v :: values)) with (Z.pos (Pos.of_succ_nat (length values))).
  destruct (of_Z_pos (Pos.of_succ_nat (length values))) as [Hr Hn].
  destruct (fold_left Double.add (v :: values) Double.zero) as [s| | |]; try contradiction.
  destruct Hr; try contradiction; destruct s; reflexivity.
Qed.


Lemma add_bounded (A B : Z) (a b : spec_float) :
  0 <= A -> 0 <= B -> A + B <= 2 ^ 52 ->
  Double.bounded false A a -> Double.bounded false B b ->
  Double.bounded false (A + B) (Double.add a b).
Proof.
  intros HA HB HAB Ha Hb.
  destruct a as [sa| | |sa ma ea]; try contradiction;
    destruct b as [sb| | |sb mb eb]; try contradiction.
  - destruct sa, sb; exact I.
  - apply (bounded_mono false B); [lia | exact Hb].
  - apply (bounded_mono false A); [lia | exact Ha].
  - destruct Ha as (-> & Hea & Hma). destruct Hb as (-> & Heb & Hmb).
    unfold Double.add, SFadd, cond_Zopp.
    pose proof (aligned_bounded ma ea (Z.min ea eb) A Hea ltac:(lia) Hma) as HX.
    pose proof (aligned_bounded mb eb (Z.min ea eb) B Heb ltac:(lia) Hmb) as HY.
    set (X := fst (shl_align ma ea (Z.min ea eb))) in *.
    set (Y := fst (shl_align mb eb (Z.min ea eb))) in *.
    change (Z.pos X + Z.pos Y) with (Z.pos (X + Y)).
    apply round_pos_bounded; [lia | lia |]. rewrite Pos2Z.inj_add. lia.
Qed.

Lemma sum_bounded (values : list spec_float) (A : Z) (acc : spec_float) :
  0 <= A -> A + 100 * Js.length values <= 2 ^ 52 ->
  Double.bounded false A acc -> Forall (Double.bounded false 100) values ->
  Double.bounded false (A + 100 * Js.length values) (fold_left Double.add values acc).
Proof.
  unfold Js.length.
  revert A acc. induction values as [|v values IH]; intros A acc HA Hlen Hacc Hall.
  - simpl. now rewrite Z.add_0_r.
  - inversion Hall; subst. simpl fold_left.
    replace (A + 100 * Z.of_nat (List.length (v :: values)))
      with (A + 100 + 100 * Z.of_nat (List.length values)) in *
      by (cbn [List.length]; lia).
    apply IH; [lia | lia | | assumption].
    apply add_bounded; try lia; assumption.
Qed.

(** A positive integer below [2 ^ 53] is a double. *)
Lemma of_Z_exact (p : positive) :
  Z.pos p < 2 ^ 53 ->
  exists m e,
    Double.of_Z (Z.pos p) = S754_finite false m e /\ e <= 0 /\ Z.pos m = Z.pos p * 2 ^ (- e).
Proof.
  intros Hp. unfold Double.of_Z, binary_normalize, binary_round.
  destruct (digits2_pos_bounds p) as [Hlo Hhi].
  assert (Hd : Z.pos (digits2_pos p) <= 53).
  { assert (H : 2 ^ (Z.pos (digits2_pos p) - 1) < 2 ^ 53) by lia.
    apply Z.pow_lt_mono_r_iff in H; lia. }
  destruct (shl_align_spec p 0
              (SpecFloat.fexp Double.prec Double.emax (Z.pos (digits2_pos p) + 0)))
    as (mz & ez & -> & Hez & Hmz & Hdz).
  change (SpecFloat.fexp Double.prec Double.emax) with Double.fexp in Hez.
  rewrite fexp_eq in Hez.
  destruct (round_aux_spec false (Z.pos mz) ez loc_Exact ltac:(lia)) as (m1 & _ & Hexact & E).
  fold Double.round_aux. rewrite E. clear E.
  simpl Zdigits2 in *.
  pose proof (fexp_eq (Z.pos (digits2_pos mz) + ez)) as F1.
  assert (Hn1 : Z.max 0 (Double.fexp (Z.pos (digits2_pos mz) + ez) - ez) = 0) by lia.
  rewrite Hn1 in *. rewrite Z.pow_0_r, Z.div_1_r in Hexact.
  rewrite Hexact by (try reflexivity; apply Z.mod_1_r).
  simpl Zdigits2.
  pose proof (fexp_eq (Z.pos (digits2_pos mz) + (ez + 0))) as F2.
  assert (Hn2 : Z.max 0 (Double.fexp (Z.pos (digits2_pos mz) + (ez + 0)) - (ez + 0)) = 0) by lia.
  rewrite Hn2. rewrite Z.pow_0_r, Z.div_1_r.
  replace (ez + 0 + 0 <=? Double.emax - Double.prec) with true
    by (symmetry; apply Z.leb_le; unfold Double.emax, Double.prec; lia).
  exists mz, (ez + 0 + 0). split; [reflexivity|]. split; [lia|].
  rewrite Hmz. f_equal. f_equal. lia.
Qed.

Lemma bounded_finite (s : bool) (B : Z) (x : spec_float) : Double.bounded s B x -> Double.finite x.
Proof. destruct x; simpl; tauto. Qed.

Lemma bounded_nonneg (B : Z) (x : spec_float) : Double.bounded false B x -> Double.nonneg x.
Proof. destruct x as [| | |[] m e]; simpl; try tauto. intros [? _]. discriminate. Qed.

Lemma abs_bounded (s : bool) (B : Z) (x : spec_float) :
  Double.bounded s B x -> Double.bounded false B (SFabs x).
Proof. destruct x as [| | |s' m e]; simpl; try tauto. Qed.

Lemma new_location_exact (nb_steps : Z) : new_location nb_steps 0 = loc_Exact.
Proof. unfold new_location. destruct (Z.even nb_steps); reflexivity. Qed.

(** The Spec.doubleMean of values that sum to at most [B * n] is at most [B]. *)
Lemma div_bounded (B n : Z) (x : spec_float) (m2 : positive) (e2 : Z) :
  0 <= B -> 1 <= n -> B * n <= 2 ^ 52 ->
  Double.bounded false (B * n) x ->
  e2 <= 0 -> Z.pos m2 = n * 2 ^ (- e2) ->
  Double.bounded false B (Double.div x (S754_finite false m2 e2)).
Proof.
  intros HB Hn HBn Hx He2 Hm2.
  destruct x as [sx| | |sx m1 e1]; try contradiction; [exact I|].
  destruct Hx as (-> & He1 & Hm1).
  unfold Double.div, SFdiv, SFdiv_core_binary. simpl xorb.
  set (d1 := Zdigits2 (Z.pos m1)). set (d2 := Zdigits2 (Z.pos m2)).
  set (e' := Z.min (SpecFloat.fexp Double.prec Double.emax (d1 + e1 - (d2 + e2))) (e1 - e2)).
  pose proof (fexp_eq (d1 + e1 - (d2 + e2))) as F. unfold Double.fexp in F.
  pose proof (digits_le_wide (Z.pos m1) (B * n) (- e1) ltac:(lia) ltac:(lia) ltac:(lia) Hm1)
    as Hd1. fold d1 in Hd1.
  pose proof (pow2_pos (- e2) ltac:(lia)) as Hp2.
  assert (Hd2 : - e2 < d2).
  { destruct (Zdigits2_bounds (Z.pos m2) ltac:(lia)) as [Hd [_ Hhi]]. fold d2 in Hd, Hhi.
    assert (H : 2 ^ (- e2) < 2 ^ d2) by nia.
    apply Z.pow_lt_mono_r_iff in H; lia. }
  assert (He' : e' <= -1) by lia.
  assert (Hs : 0 <= e1 - e2 - e') by lia.
  set (m' := match e1 - e2 - e' with
             | Z.pos _ => Z.shiftl (Z.pos m1) (e1 - e2 - e')
             | Z0 => Z.pos m1
             | Z.neg _ => 0
             end).
  assert (Hm' : m' = Z.pos m1 * 2 ^ (e1 - e2 - e')).
  { unfold m'. destruct (e1 - e2 - e') as [|p|p] eqn:E.
    - rewrite Z.pow_0_r. lia.
    - rewrite Z.shiftl_mul_pow2 by lia. reflexivity.
    - lia. }
  pose proof (pow2_pos (- e') ltac:(lia)) as Hpe.
  pose proof (pow2_pos (e1 - e2 - e') Hs) as Hps.
  pose proof (pow2_pos (- e1) ltac:(lia)) as Hp1.
  assert (Hbound : m' <= B * 2 ^ (- e') * Z.pos m2).
  { rewrite Hm', Hm2.
    assert (E : 2 ^ (- e1) * 2 ^ (e1 - e2 - e') = 2 ^ (- e2) * 2 ^ (- e')).
    { rewrite <- !Z.pow_add_r by lia. f_equal. lia. }
    nia. }
  pose proof (Z.div_mod m' (Z.pos m2) ltac:(lia)) as Hdm.
  pose proof (Z.mod_pos_bound m' (Z.pos m2) ltac:(lia)) as Hr.
  unfold Z.div, Z.modulo in Hdm, Hr.
  destruct (Z.div_eucl m' (Z.pos m2)) as [q r].
  assert (Hq0 : 0 <= q) by nia.
  assert (Hq : q <= B * 2 ^ (- e')) by nia.
  apply round_aux_bounded; try lia.
  intros E. assert (r = 0) by nia. subst r. apply new_location_exact.
Qed.

(** The distance between two numbers that are at most [B] and not negative
    is at most [B]. *)
Lemma sub_bounded (B : Z) (v x : spec_float) :
  0 <= B <= 2 ^ 52 -> Double.bounded false B v -> Double.bounded false B x ->
  Double.bounded false B (SFabs (Double.sub v x)).
Proof.
  intros HB Hv Hx.
  destruct v as [sv| | |sv mv ev]; try contradiction;
    destruct x as [sx| | |sx mx ex]; try contradiction.
  - destruct sv, sx; exact I.
  - destruct Hx as (-> & Hex & Hmx). simpl. auto.
  - destruct Hv as (-> & Hev & Hmv). simpl. auto.
  - destruct Hv as (-> & Hev & Hmv). destruct Hx as (-> & Hex & Hmx).
    unfold Double.sub, SFsub, cond_Zopp.
    pose proof (aligned_bounded mv ev (Z.min ev ex) B Hev ltac:(lia) Hmv) as HX.
    pose proof (aligned_bounded mx ex (Z.min ev ex) B Hex ltac:(lia) Hmx) as HY.
    set (X := fst (shl_align mv ev (Z.min ev ex))) in *.
    set (Y := fst (shl_align mx ex (Z.min ev ex))) in *.
    destruct (Z.pos X - Z.pos Y) as [|p|p] eqn:E; simpl binary_normalize.
    + exact I.
    + eapply abs_bounded. apply round_pos_bounded; lia.
    + eapply abs_bounded. apply round_pos_bounded; lia.
Qed.

Lemma max_list_in (ds : list spec_float) (d : spec_float) :
  Double.nonneg d -> Forall Double.nonneg ds -> In (fold_left Math.maxDouble ds d) (d :: ds).
Proof.
  revert d. induction ds as [|x ds IH]; intros d Hd Hall; simpl fold_left; [now left|].
  inversion Hall; subst.
  destruct (max_nonneg d x Hd H1) as [E | E]; rewrite E.
  - destruct (IH d Hd H2) as [<- | Hin]; [now left | right; now right].
  - right. apply IH; assumption.
Qed.

(** Values between 0 and 100, at most [2 ^ 45] of them: the sum is at most
    [2 ^ 52], the mean at most 100, and so is every deviation. *)
Lemma calculateBalanceScoreDouble_loads (values : list spec_float) :
  Forall (Double.bounded false 100) values -> Js.length values <= 2 ^ 45 ->
  exists r,
    LoadBalancerSimulation.calculateBalanceScoreDouble values = Double.of_Z r /\ 0 <= r <= 100.
Proof.
  intros Hall Hlen.
  assert (Hnn : Forall Double.nonneg values).
  { eapply List.Forall_impl; [|exact Hall]. intros x. apply bounded_nonneg. }
  destruct values as [|v values]; [exists 100; split; [reflexivity | lia]|].
  assert (Hmean : Double.bounded false 100 (Spec.doubleMean (v :: values))).
  { unfold Spec.doubleMean.
    pose proof (sum_bounded (v :: values) 0 Double.zero ltac:(lia) ltac:(lia) I Hall) as Hsum.
    rewrite Z.add_0_l in Hsum.
    change (Js.length (v :: values)) with (Z.pos (Pos.of_succ_nat (length values))) in *.
    destruct (of_Z_exact (Pos.of_succ_nat (length values))) as (m2 & e2 & -> & He2 & Hm2);
      [lia|].
    apply (div_bounded 100 (Z.pos (Pos.of_succ_nat (length values)))); try lia; assumption. }
  apply calculateBalanceScoreDouble_range; [exact Hnn | eapply bounded_finite; exact Hmean |].
  unfold Spec.doubleMaxDeviation. simpl map.
  assert (Hdev : Forall (Double.bounded false 100)
                   (map (fun x => SFabs (Double.sub x (Spec.doubleMean (v :: values))))
                      (v :: values))).
  { apply List.Forall_map. eapply List.Forall_impl; [|exact Hall].
    intros x Hx. apply sub_bounded; [lia | exact Hx | exact Hmean]. }
  simpl map in Hdev.
  assert (Hin : In (fold_left Math.maxDouble
                      (map (fun x => SFabs (Double.sub x (Spec.doubleMean (v :: values)))) values)
                      (SFabs (Double.sub v (Spec.doubleMean (v :: values)))))
                   (SFabs (Double.sub v (Spec.doubleMean (v :: values)))
                    :: map (fun x => SFabs (Double.sub x (Spec.doubleMean (v :: values)))) values)).
  { apply max_list_in.
    - inversion Hdev; subst. eapply bounded_nonneg; eassumption.
    - inversion Hdev; subst. eapply List.Forall_impl; [|eassumption].
      intros x. apply bounded_nonneg. }
  rewrite List.Forall_forall in Hdev. eapply bounded_finite. apply Hdev. exact Hin.
Qed.

(** C6: on doubles the balance score is 100 for no value and for a mean
    that is zero; otherwise it is [100 * (1 - maxDeviation / (mean * 2))],
    every operation rounded to the nearest double, then [Math.max] with 0
    and [Math.round], [maxDeviation] being [Math.max] of the [|v - mean|].
    For values that are not negative, when neither the mean nor the largest
    deviation overflows, it is an integer between 0 and 100; so it is for
    values between 0 and 100, up to [2 ^ 45] of them, where nothing
    overflows; and it is 100 when every value is zero. *)
Theorem calculateBalanceScore_spec (values : list spec_float) :
  (values = [] -> LoadBalancerSimulation.calculateBalanceScoreDouble values = Double.of_Z 100)
  /\ (values <> [] -> Double.eqb (Spec.doubleMean values) Double.zero = true ->
      LoadBalancerSimulation.calculateBalanceScoreDouble values = Double.of_Z 100)
  /\ (values <> [] -> Double.eqb (Spec.doubleMean values) Double.zero = false ->
      LoadBalancerSimulation.calculateBalanceScoreDouble values
      = Math.roundDouble
          (Math.maxDouble Double.zero
             (Double.mul (Double.of_Z 100)
                (Double.sub (Double.of_Z 1)
                   (Double.div (Spec.doubleMaxDeviation values)
                      (Double.mul (Spec.doubleMean values) (Double.of_Z 2)))))))
  /\ (Forall Double.nonneg values ->
      Double.finite (Spec.doubleMean values) ->
      Double.finite (Spec.doubleMaxDeviation values) ->
      exists r,
        LoadBalancerSimulation.calculateBalanceScoreDouble values = Double.of_Z r
        /\ 0 <= r <= 100)
  /\ (Forall (Double.bounded false 100) values -> Js.length values <= 2 ^ 45 ->
      exists r,
        LoadBalancerSimulation.calculateBalanceScoreDouble values = Double.of_Z r
        /\ 0 <= r <= 100)
  /\ (Forall Double.is_zero values ->
      LoadBalancerSimulation.calculateBalanceScoreDouble values = Double.of_Z 100).
Proof.
  split; [|split; [|split; [|split; [|split]]]].
  - intros ->. reflexivity.
  - intros Hne E. destruct values as [|v values]; [congruence|].
    unfold LoadBalancerSimulation.calculateBalanceScoreDouble.
    fold (Spec.doubleMean (v :: values)). now rewrite E.
  - intros Hne E. destruct values as [|v values]; [congruence|].
    now apply calculateBalanceScoreDouble_unfold.
  - apply calculateBalanceScoreDouble_range.
  - apply calculateBalanceScoreDouble_loads.
  - apply calculateBalanceScoreDouble_zero.
Qed.

Lemma calculateBalanceScore_spec_witness :
  (exists r,
     LoadBalancerSimulation.calculateBalanceScoreDouble
       [Double.of_Z 30; Double.of_Z 10; Double.of_Z 20; Double.of_Z 20]
     = Double.of_Z r
     /\ 0 <= r <= 100)
  /\ (exists r,
        LoadBalancerSimulation.calculateBalanceScoreDouble [Double.of_Z 3; Double.of_Z 37]
        = Double.of_Z r
        /\ 0 <= r <= 100)
  /\ LoadBalancerSimulation.calculateBalanceScoreDouble
       [Double.of_Z 0; Double.of_Z 0; Double.of_Z 0]
     = Double.of_Z 100.
Proof.
  split; [|split].
  - apply (proj1 (proj2 (proj2 (proj2
             (calculateBalanceScore_spec
                [Double.of_Z 30; Double.of_Z 10; Double.of_Z 20; Double.of_Z 20]))))).
    + repeat constructor.
    + exact I.
    + exact I.
  - apply (proj1 (proj2 (proj2 (proj2 (proj2
             (calculateBalanceScore_spec [Double.of_Z 3; Double.of_Z 37])))))).
    + repeat constructor; vm_compute; discriminate.
    + vm_compute. discriminate.
  - apply (calculateBalanceScore_spec [Double.of_Z 0; Double.of_Z 0; Double.of_Z 0]).
    repeat constructor.
Defined.

(** The score is not the exactly computed formula.  On the loads 3 and 37
    the mean is 20 and the largest deviation 17: the formula gives 57.5,
    which rounds to 58, and the doubles give 57.49999999999999 and 57.  And
    two values near the largest double are not negative, but their sum
    overflows and the score is [NaN]. *)
Lemma calculateBalanceScore_not_exact :
  LoadBalancerSimulation.calculateBalanceScoreDouble [Double.of_Z 3; Double.of_Z 37]
  = Double.of_Z 57
  /\ (Spec.average [3; 37] == 20)%Q
  /\ Spec.is_max_deviation [3; 37]%Q 20 17
  /\ Spec.balanceScore 20 17 = 58
  /\ LoadBalancerSimulation.calculateBalanceScore [3; 37]%Q = 58
  /\ Forall Double.nonneg [SFmax_float Double.prec Double.emax; SFmax_float Double.prec Double.emax]
  /\ LoadBalancerSimulation.calculateBalanceScoreDouble
       [SFmax_float Double.prec Double.emax; SFmax_float Double.prec Double.emax]
     = S754_nan.
Proof.
  split; [vm_compute; reflexivity|]. split; [reflexivity|]. split.
  - split.
    + intros v [<- | [<- | []]]; vm_compute; discriminate.
    + exists 3%Q. split; [now left | reflexivity].
  - split; [reflexivity|]. split; [reflexivity|].
    split; [repeat constructor | vm_compute; reflexivity].
Qed.

(** ** One call of [createRequest] *)

Import LoadBalancerSimulation.

Lemma drawnType_Some (w : World) :
  exists requestType, drawnType w = Some requestType /\ In requestType requestTypes.
Proof.
  unfold drawnType.
  destruct (index_Some requestTypes
              (Math.floor (Math.draw (randomSource w 0%nat) * inject_Z (Js.length requestTypes))))
    as (rt & Hrt & Hl); [apply floor_scaled_range; reflexivity|].
  exists rt. split; [exact Hrt|]. apply list_elem_of_In. eapply list_elem_of_lookup_2. exact Hl.
Qed.

Lemma builtRequest_ok (now : Z) (w : World) (requestType : RequestType) :
  In requestType requestTypes -> request_ok (builtRequest now w requestType).
Proof.
  intros Hin. unfold request_ok, builtRequest. cbn [Request.cpuLoad Request.memoryLoad Request.processingTime].
  split; [|split].
  - simpl in Hin. destruct Hin as [<- | [<- | [<- | [<- | []]]]]; simpl; lia.
  - simpl in Hin. destruct Hin as [<- | [<- | [<- | [<- | []]]]]; simpl; lia.
  - destruct (draw_bounds (randomSource w 1%nat)) as [H0 _].
    apply Qle_trans with (y := (0 + 1)%Q); [discriminate|].
    apply Qplus_le_compat; [|apply Qle_refl].
    apply Qmult_le_0_compat; [exact H0 | discriminate].
Qed.

(** The call returns when the algorithm answers an index of the server
    list: the request went to that server, or the rejection was counted. *)
Lemma createRequest_returns (now : Z) (w : World) (requestType : RequestType)
    (idx : Z) (g' : Math.RandState) (server : Server.t) :
  drawnType w = Some requestType ->
  selected w = (Js.Return idx, g') ->
  Js.index (servers (simulation w)) idx = Some server ->
  createRequest now w
  = (Js.Return tt,
     mkWorld
       (let self := set_requestCount (requestCount (simulation w) + 1) (simulation w) in
        let request := builtRequest now w requestType in
        if Server.canHandleRequest server request then
          set_servers
            (alter (fun server => Server.addRequest server request) (Z.to_nat idx) (servers self))
            (set_currentServerIndex (Js.rem (idx + 1) (numServers self)) self)
        else
          set_servers
            (alter (fun server =>
                      Server.set_rejectedRequests (Server.rejectedRequests server + 1) server)
                   (Z.to_nat idx) (servers self))
            (set_totalRejectedRequests (totalRejectedRequests self + 1) self))
       g').
Proof.
  intros Htype Hsel Hidx. destruct w as [self g].
  unfold drawnType, selected, afterDraws in *. cbn [simulation randomSource] in *.
  unfold createRequest, Js.bind, rand, read, update, Math.randomIndex, Js.bind, Math.random,
    Js.ret. cbn [simulation randomSource].
  rewrite Htype. unfold Js.defined at 1. unfold Js.ret. cbn [simulation randomSource].
  rewrite Hsel. rewrite Hidx. unfold Js.defined, Js.ret. unfold builtRequest.
  cbn [simulation randomSource].
  destruct (Server.canHandleRequest server _); reflexivity.
Qed.

(** Without a server at the answered index, [server.canHandleRequest]
    throws; only the request counter has moved. *)
Lemma createRequest_throws (now : Z) (w : World) (requestType : RequestType)
    (idx : Z) (g' : Math.RandState) :
  drawnType w = Some requestType ->
  selected w = (Js.Return idx, g') ->
  Js.index (servers (simulation w)) idx = None ->
  createRequest now w
  = (Js.TypeError,
     mkWorld (set_requestCount (requestCount (simulation w) + 1) (simulation w)) g').
Proof.
  intros Htype Hsel Hidx. destruct w as [self g].
  unfold drawnType, selected, afterDraws in *. cbn [simulation randomSource] in *.
  unfold createRequest, Js.bind, rand, read, update, Math.randomIndex, Js.bind, Math.random,
    Js.ret. cbn [simulation randomSource].
  rewrite Htype. unfold Js.defined at 1. unfold Js.ret. cbn [simulation randomSource].
  rewrite Hsel. rewrite Hidx. reflexivity.
Qed.

Lemma createRequest_no_answer (now : Z) (w : World) (requestType : RequestType)
    (r : Js.Result Z) (g' : Math.RandState) :
  drawnType w = Some requestType ->
  selected w = (r, g') ->
  (forall idx, r <> Js.Return idx) ->
  exists r' : Js.Result unit,
    createRequest now w
    = (r', mkWorld (set_requestCount (requestCount (simulation w) + 1) (simulation w)) g').
Proof.
  intros Htype Hsel Hr. destruct w as [self g].
  unfold drawnType, selected, afterDraws in *. cbn [simulation randomSource] in *.
  unfold createRequest, Js.bind, rand, read, update, Math.randomIndex, Js.bind, Math.random,
    Js.ret. cbn [simulation randomSource].
  rewrite Htype. unfold Js.defined at 1. unfold Js.ret. cbn [simulation randomSource].
  rewrite Hsel. destruct r as [idx| |]; [now destruct (Hr idx) | |]; eexists; reflexivity.
Qed.

(** ** Loads *)

Section Sums.

Variable f : Request.t -> Z.

Lemma sum_shift (l : list Request.t) (a : Z) :
  fold_left (fun sum req => sum + f req) l a = a + fold_left (fun sum req => sum + f req) l 0.
Proof.
  revert a. induction l as [|r l IH]; intros a; simpl; [lia|].
  rewrite (IH (a + f r)), (IH (0 + f r)). lia.
Qed.

Lemma sum_snoc (l : list Request.t) (r : Request.t) :
  fold_left (fun sum req => sum + f req) (l ++ [r]) 0
  = fold_left (fun sum req => sum + f req) l 0 + f r.
Proof. rewrite fold_left_app. reflexivity. Qed.

Lemma sum_filter_le (p : Request.t -> bool) (l : list Request.t) :
  Forall (fun r => 0 <= f r) l ->
  fold_left (fun sum req => sum + f req) (List.filter p l) 0
  <= fold_left (fun sum req => sum + f req) l 0.
Proof.
  induction 1 as [|r l Hr _ IH]; simpl; [lia|].
  rewrite (sum_shift l (0 + f r)).
  destruct (p r); simpl; [rewrite (sum_shift _ (0 + f r))|]; lia.
Qed.

End Sums.

Lemma Forall_filter_req (P : Request.t -> Prop) (p : Request.t -> bool) (l : list Request.t) :
  Forall P l -> Forall P (List.filter p l).
Proof.
  induction 1 as [|r l Hr _ IH]; simpl; [constructor|].
  destruct (p r); [constructor|]; assumption.
Qed.

(** ** Servers keep their bound *)

Lemma new_ok : server_ok Server.new.
Proof.
  repeat split; simpl; try lia; try constructor; discriminate.
Qed.

Lemma addRequest_ok (s : Server.t) (r : Request.t) :
  server_ok s -> request_ok r -> Server.canHandleRequest s r = true ->
  server_ok (Server.addRequest s r).
Proof.
  intros (Hcpu & Hmem & Hcap & Hreqs & Hcnt) Hr Hcan.
  unfold Server.canHandleRequest in Hcan. apply andb_true_iff in Hcan as [Hc Hm].
  apply Z.leb_le in Hc, Hm. rewrite Hcpu in Hc. rewrite Hmem in Hm.
  unfold Server.getCurrentLoad in Hc, Hm. cbn [Server.cpu Server.memory] in Hc, Hm.
  split; [exact Hcpu|]. split; [exact Hmem|]. split; [|split].
  - unfold within_capacity, Server.getCurrentLoad, Server.addRequest.
    cbn [Server.cpu Server.memory Server.requests Server.set_requests].
    rewrite !sum_snoc. lia.
  - unfold Server.addRequest. cbn [Server.requests Server.set_requests].
    apply Forall_app. split; [exact Hreqs | now constructor].
  - exact Hcnt.
Qed.

Lemma set_rejectedRequests_ok (n : Z) (s : Server.t) :
  server_ok s -> server_ok (Server.set_rejectedRequests n s).
Proof. intros H. exact H. Qed.

Lemma cleared_ok (s : Server.t) :
  server_ok s -> server_ok (Server.set_rejectedRequests 0 (Server.set_requests [] s)).
Proof.
  intros (Hcpu & Hmem & _ & _ & Hcnt).
  split; [exact Hcpu|]. split; [exact Hmem|]. split; [|split].
  - split; simpl; lia.
  - constructor.
  - exact Hcnt.
Qed.

Lemma recordCompletion_fold (completedNow : list Request.t) (s : Server.t) :
  Forall request_ok completedNow -> counters_ok s ->
  let s' := fold_left Server.recordCompletion completedNow s in
  counters_ok s'
  /\ Server.maxCpu s' = Server.maxCpu s
  /\ Server.maxMemory s' = Server.maxMemory s
  /\ Server.rejectedRequests s' = Server.rejectedRequests s.
Proof.
  intros Hall. revert s. induction Hall as [|r l Hr _ IH]; intros s Hcnt; simpl.
  - split; [exact Hcnt | repeat split].
  - destruct (IH (Server.recordCompletion s r)) as (H1 & H2 & H3 & H4).
    + destruct Hcnt as [Hc Ht]. destruct Hr as (_ & _ & Hp).
      unfold counters_ok, Server.recordCompletion.
      cbn [Server.completedRequests Server.totalResponseTime].
      split; [lia|]. rewrite inject_Z_plus. now apply Qplus_le_compat.
    + split; [exact H1 | repeat split; assumption].
Qed.

Lemma updateRequests_ok (now : Z) (s : Server.t) :
  server_ok s -> server_ok (Server.updateRequests now s).
Proof.
  intros (Hcpu & Hmem & [Hc Hm] & Hreqs & Hcnt).
  unfold Server.updateRequests.
  destruct (recordCompletion_fold (List.filter (Request.isComplete now) (Server.requests s)) s
              (Forall_filter_req _ _ _ Hreqs) Hcnt) as (H1 & H2 & H3 & _).
  unfold server_ok, within_capacity, counters_ok, Server.getCurrentLoad in *.
  cbn [Server.set_requests Server.requests Server.maxCpu Server.maxMemory
       Server.completedRequests Server.totalResponseTime Server.cpu Server.memory] in *.
  split; [congruence|]. split; [congruence|]. split; [|split].
  - split.
    + etransitivity; [apply sum_filter_le|exact Hc].
      eapply Forall_impl; [exact Hreqs|]. intros r Hr. apply Hr.
    + etransitivity; [apply sum_filter_le|exact Hm].
      eapply Forall_impl; [exact Hreqs|]. intros r Hr. apply Hr.
  - now apply Forall_filter_req.
  - exact H1.
Qed.

(** ** The balance histories *)

Lemma updateStatsDisplay_servers (s : t) : servers (updateStatsDisplay s) = servers s.
Proof.
  unfold updateStatsDisplay. cbv zeta.
  match goal with |- context [if ?c then _ else _] => destruct c end; reflexivity.
Qed.

Lemma tail_snoc (h : list Z) (x : Z) : h <> [] -> tail (h ++ [x]) = tail h ++ [x].
Proof. destruct h; [congruence | reflexivity]. Qed.

Lemma updateStatsDisplay_history (s : t) :
  history_ok s ->
  cpuBalanceHistory (updateStatsDisplay s) = pushed (cpuBalanceHistory s) (sampledCpuBalance s)
  /\ memoryBalanceHistory (updateStatsDisplay s)
     = pushed (memoryBalanceHistory s) (sampledMemoryBalance s)
  /\ maxDataPoints (updateStatsDisplay s) = maxDataPoints s.
Proof.
  intros (Hmax & Hlen & Hcap).
  assert (Hlen' : Js.length (memoryBalanceHistory s) = Js.length (cpuBalanceHistory s))
    by (unfold Js.length; lia).
  unfold updateStatsDisplay, pushed. fold (sampledCpuBalance s) (sampledMemoryBalance s).
  cbv zeta.
  cbn [maxDataPoints cpuBalanceHistory memoryBalanceHistory set_cpuBalanceHistory
       set_memoryBalanceHistory].
  rewrite Hmax, Hlen'.
  assert (Hgrow : Js.length (cpuBalanceHistory s ++ [sampledCpuBalance s])
                  = Js.length (cpuBalanceHistory s) + 1)
    by (unfold Js.length; rewrite length_app; simpl; lia).
  rewrite Hgrow.
  destruct (Z.eqb_spec (Js.length (cpuBalanceHistory s)) 50) as [E|E].
  - destruct (Z.ltb_spec 50 (Js.length (cpuBalanceHistory s) + 1)); [|lia].
    cbn [maxDataPoints cpuBalanceHistory memoryBalanceHistory].
    assert (cpuBalanceHistory s <> []) by (intros E0; rewrite E0 in E; discriminate).
    assert (memoryBalanceHistory s <> []) by (intros E0; rewrite E0 in Hlen'; rewrite E in Hlen'; discriminate).
    rewrite !tail_snoc by assumption. now repeat split.
  - destruct (Z.ltb_spec 50 (Js.length (cpuBalanceHistory s) + 1)); [lia|].
    cbn [maxDataPoints cpuBalanceHistory memoryBalanceHistory]. now repeat split.
Qed.

Lemma pushed_length (h : list Z) (x : Z) :
  Js.length h <= 50 ->
  Js.length (pushed h x) <= 50
  /\ List.length (pushed h x) = (if Js.length h =? 50 then List.length h else S (List.length h)).
Proof.
  intros Hcap. unfold pushed, Js.length in *.
  destruct (Z.eqb_spec (Z.of_nat (List.length h)) 50) as [E|E];
    rewrite length_app; simpl.
  - destruct h; simpl in *; lia.
  - lia.
Qed.

Lemma updateStatsDisplay_ok (s : t) : simulation_ok s -> simulation_ok (updateStatsDisplay s).
Proof.
  intros [Hservers Hhist]. split; [now rewrite updateStatsDisplay_servers|].
  destruct (updateStatsDisplay_history s Hhist) as (Hc & Hm & Hmax).
  destruct Hhist as (Hmax0 & Hlen & Hcap).
  assert (Hcap' : Js.length (memoryBalanceHistory s) <= 50)
    by (unfold Js.length in *; lia).
  unfold history_ok. rewrite Hc, Hm, Hmax.
  destruct (pushed_length (cpuBalanceHistory s) (sampledCpuBalance s) Hcap) as [H1 H2].
  destruct (pushed_length (memoryBalanceHistory s) (sampledMemoryBalance s) Hcap') as [_ H3].
  split; [exact Hmax0|]. split; [|exact H1].
  rewrite H2, H3. unfold Js.length. rewrite Hlen. reflexivity.
Qed.

(** ** Every operation of the page keeps the invariant *)

Lemma updateServerVisuals_ok (now : Z) (s : t) :
  simulation_ok s -> simulation_ok (updateServerVisuals now s).
Proof.
  intros Hok. apply updateStatsDisplay_ok in Hok as [Hservers Hhist].
  unfold updateServerVisuals. split; [|exact Hhist].
  cbn [servers set_servers]. apply Forall_map.
  eapply Forall_impl; [exact Hservers|]. intros server. apply updateRequests_ok.
Qed.

Lemma animate_ok (now : Z) (s : t) : simulation_ok s -> simulation_ok (animate now s).
Proof.
  intros Hok. unfold animate. now apply updateServerVisuals_ok, updateStatsDisplay_ok.
Qed.

Lemma setNumServers_ok (count : Z) (s : t) : history_ok s -> simulation_ok (setNumServers count s).
Proof.
  intros Hhist. split; [|exact Hhist].
  unfold setNumServers, initializeServers. cbn [servers set_servers].
  apply Forall_replicate. exact new_ok.
Qed.

Lemma clearRequests_ok (s : t) : simulation_ok s -> simulation_ok (clearRequests s).
Proof.
  intros [Hservers Hhist]. split; [|exact Hhist].
  unfold clearRequests. cbn [servers set_servers set_requestCount set_totalRejectedRequests].
  apply Forall_map. eapply Forall_impl; [exact Hservers|]. intros server. apply cleared_ok.
Qed.

Lemma resetSimulation_ok (fuel : nat) (s : t) :
  history_ok s -> simulation_ok (resetSimulation fuel s).
Proof.
  intros Hhist. unfold resetSimulation. apply clearRequests_ok.
  destruct (setNumServers_ok 4 s Hhist) as [H1 H2]. split; assumption.
Qed.

Lemma constructor_ok (a : LoadBalancerAlgorithm) (now : Z) : simulation_ok (constructor a now).
Proof.
  unfold constructor. apply animate_ok. split.
  - unfold initializeServers. cbn [servers set_servers numServers].
    apply Forall_replicate. exact new_ok.
  - unfold history_ok, initializeServers, Js.length. simpl. lia.
Qed.

Lemma createRequest_ok (now : Z) (w w' : World) (r : Js.Result unit) :
  simulation_ok (simulation w) -> createRequest now w = (r, w') -> simulation_ok (simulation w').
Proof.
  intros Hok Hrun.
  destruct (drawnType_Some w) as (requestType & Htype & Hin).
  destruct (selected w) as [res g'] eqn:Hsel.
  destruct res as [idx| |].
  - destruct (Js.index (servers (simulation w)) idx) as [server|] eqn:Hidx.
    + rewrite (createRequest_returns now w requestType idx g' server Htype Hsel Hidx) in Hrun.
      injection Hrun as _ <-. cbn [simulation]. destruct Hok as [Hservers Hhist].
      apply index_inv in Hidx as [_ Hl].
      pose proof (builtRequest_ok now w requestType Hin) as Hreq.
      cbv zeta. destruct (Server.canHandleRequest server _) eqn:Hcan.
      * split; [|exact Hhist]. cbn [servers set_servers set_currentServerIndex set_requestCount].
        apply Forall_alter; [exact Hservers|].
        intros x Hx Hxok. assert (x = server) as -> by congruence.
        now apply addRequest_ok.
      * split; [|exact Hhist].
        cbn [servers set_servers set_totalRejectedRequests set_requestCount].
        apply Forall_alter; [exact Hservers|].
        intros x _ Hxok. now apply set_rejectedRequests_ok.
    + rewrite (createRequest_throws now w requestType idx g' Htype Hsel Hidx) in Hrun.
      injection Hrun as _ <-. exact Hok.
  - destruct (createRequest_no_answer now w requestType Js.TypeError g' Htype Hsel) as (r' & Hr');
      [discriminate|].
    rewrite Hr' in Hrun. injection Hrun as _ <-. exact Hok.
  - destruct (createRequest_no_answer now w requestType Js.OutOfFuel g' Htype Hsel) as (r' & Hr');
      [discriminate|].
    rewrite Hr' in Hrun. injection Hrun as _ <-. exact Hok.
Qed.

Lemma exec_ok (fuel : nat) (e : Event) (w w' : World) (r : Js.Result unit) :
  simulation_ok (simulation w) -> exec fuel e w = (r, w') -> simulation_ok (simulation w').
Proof.
  intros Hok Hrun. destruct e; simpl in Hrun.
  - eapply createRequest_ok; eassumption.
  - injection Hrun as _ <-. now apply animate_ok.
  - injection Hrun as _ <-. apply setNumServers_ok, Hok.
  - injection Hrun as _ <-. exact Hok.
  - injection Hrun as _ <-. now apply clearRequests_ok.
  - injection Hrun as _ <-. apply resetSimulation_ok, Hok.
  - injection Hrun as _ <-. now apply updateStatsDisplay_ok.
Qed.

Lemma reachable_ok (fuel : nat) (w : World) : reachable fuel w -> simulation_ok (simulation w).
Proof.
  induction 1 as [a now g | e w w' r _ IH Hrun _].
  - apply constructor_ok.
  - eapply exec_ok; eassumption.
Qed.

(** ** The driver's guarantees *)

Lemma world1_reachable : reachable 1 Sample.world1.
Proof.
  apply reachable_exec with (e := CreateRequest 5) (w := Sample.world0)
                            (r := fst (exec 1 (CreateRequest 5) Sample.world0)).
  - apply reachable_new.
  - apply surjective_pairing.
  - vm_compute. discriminate.
Defined.

(** C1: in every state the page can observe, each server's active requests
    sum to at most 100 in cpu and at most 100 in memory; and whatever the
    page does next, however that call ends, the state it leaves keeps the
    bound. *)
Theorem capacity_invariant (fuel : nat) (w : World) :
  reachable fuel w ->
  Forall within_capacity (servers (simulation w))
  /\ (forall (e : Event) (r : Js.Result unit) (w' : World),
        exec fuel e w = (r, w') -> Forall within_capacity (servers (simulation w'))).
Proof.
  intros Hreach. pose proof (reachable_ok fuel w Hreach) as Hok.
  assert (Hcap : forall s, simulation_ok s -> Forall within_capacity (servers s)).
  { intros s [Hservers _]. eapply Forall_impl; [exact Hservers|].
    intros server Hserver. apply Hserver. }
  split; [now apply Hcap|].
  intros e r w' Hrun. apply Hcap. eapply exec_ok; eassumption.
Qed.

Lemma capacity_invariant_witness :
  Forall within_capacity (servers (simulation Sample.world1))
  /\ (forall (e : Event) (r : Js.Result unit) (w' : World),
        exec 1 e Sample.world1 = (r, w') -> Forall within_capacity (servers (simulation w'))).
Proof.
  apply (capacity_invariant 1 Sample.world1). exact world1_reachable.
Defined.

(** C9: in every state the page can observe the two balance histories have
    the same length, at most 50; a statistics sample appends its pair of
    scores at the end of each, after dropping the oldest entry of a full
    history, and the lengths are again equal and at most 50. *)
Theorem balance_history_bounded (fuel : nat) (w : World) :
  reachable fuel w ->
  let s := simulation w in
  let s' := updateStatsDisplay s in
  List.length (cpuBalanceHistory s) = List.length (memoryBalanceHistory s)
  /\ Js.length (cpuBalanceHistory s) <= 50
  /\ cpuBalanceHistory s' = pushed (cpuBalanceHistory s) (sampledCpuBalance s)
  /\ memoryBalanceHistory s' = pushed (memoryBalanceHistory s) (sampledMemoryBalance s)
  /\ List.length (cpuBalanceHistory s') = List.length (memoryBalanceHistory s')
  /\ Js.length (cpuBalanceHistory s') <= 50.
Proof.
  intros Hreach s s'. pose proof (reachable_ok fuel w Hreach) as Hok. fold s in Hok.
  destruct (updateStatsDisplay_ok s Hok) as [_ (_ & Hlen' & Hcap')].
  destruct Hok as [_ Hhist].
  destruct (updateStatsDisplay_history s Hhist) as (Hc & Hm & _).
  destruct Hhist as (_ & Hlen & Hcap).
  repeat split; assumption.
Qed.

Lemma balance_history_bounded_witness :
  let s := simulation Sample.world1 in
  let s' := updateStatsDisplay s in
  List.length (cpuBalanceHistory s) = List.length (memoryBalanceHistory s)
  /\ Js.length (cpuBalanceHistory s) <= 50
  /\ cpuBalanceHistory s' = pushed (cpuBalanceHistory s) (sampledCpuBalance s)
  /\ memoryBalanceHistory s' = pushed (memoryBalanceHistory s) (sampledMemoryBalance s)
  /\ List.length (cpuBalanceHistory s') = List.length (memoryBalanceHistory s')
  /\ Js.length (cpuBalanceHistory s') <= 50.
Proof.
  apply (balance_history_bounded 1 Sample.world1). exact world1_reachable.
Defined.

Lemma alter_requests_differ (l : list Server.t) (i : nat) (server : Server.t) (request : Request.t) :
  l !! i = Some server ->
  map Server.requests (alter (fun sv => Server.addRequest sv request) i l)
  <> map Server.requests l.
Proof.
  intros Hl Heq.
  assert (H1 : map Server.requests (alter (fun sv => Server.addRequest sv request) i l) !! i
               = Some (Server.requests server ++ [request])).
  { rewrite list_lookup_fmap, list_lookup_alter_eq, Hl. reflexivity. }
  rewrite Heq, list_lookup_fmap, Hl in H1. simpl in H1.
  injection H1 as H1. apply (f_equal List.length) in H1.
  rewrite length_app in H1. simpl in H1. lia.
Qed.

Lemma alter_requests_same (l : list Server.t) (i : nat) (f : Server.t -> Server.t) :
  (forall sv, Server.requests (f sv) = Server.requests sv) ->
  map Server.requests (alter f i l) = map Server.requests l.
Proof.
  intros Hf. revert i. induction l as [|x l IH]; intros [|i]; simpl; try reflexivity.
  - now rewrite Hf.
  - f_equal. apply IH.
Qed.

(** C4: [resetSimulation] leaves four new servers, each with no active
    request and with zero rejected, completed and response-time counters;
    the request counter, the simulation-wide rejection counter and the
    cursor are zero; the two balance histories are what they were. *)
Theorem resetSimulation_state (fuel : nat) (s : t) :
  servers (resetSimulation fuel s) = replicate 4 Server.new
  /\ Forall (fun server =>
              Server.requests server = []
              /\ Server.rejectedRequests server = 0
              /\ Server.completedRequests server = 0
              /\ Server.totalResponseTime server = 0%Q)
            (servers (resetSimulation fuel s))
  /\ requestCount (resetSimulation fuel s) = 0
  /\ totalRejectedRequests (resetSimulation fuel s) = 0
  /\ currentServerIndex (resetSimulation fuel s) = 0
  /\ cpuBalanceHistory (resetSimulation fuel s) = cpuBalanceHistory s
  /\ memoryBalanceHistory (resetSimulation fuel s) = memoryBalanceHistory s.
Proof.
  repeat split. repeat constructor.
Qed.

(** C4, the sentence as written fails: after the constructor's first frame
    both histories hold two scores of 100, and [resetSimulation] keeps
    them. *)
Lemma resetSimulation_keeps_history :
  cpuBalanceHistory (resetSimulation 1 (simulation Sample.world0)) = [100; 100]
  /\ memoryBalanceHistory (resetSimulation 1 (simulation Sample.world0)) = [100; 100]
  /\ cpuBalanceHistory (clearRequests (simulation Sample.world0)) = [100; 100]
  /\ cpuBalanceHistory (resetSimulation 1 (simulation Sample.world0)) <> [].
Proof.
  repeat split. discriminate.
Qed.

(** C5: when the algorithm answers an index outside the server list,
    [createRequest] makes no bounds check: it throws a [TypeError] on the
    missing server.  No rejection is counted and no server changes; the
    request counter has moved by one. *)
Theorem createRequest_out_of_range (now : Z) (w : World) (idx : Z) (g' : Math.RandState) :
  selected w = (Js.Return idx, g') ->
  ~ (0 <= idx < Js.length (servers (simulation w))) ->
  exists s' : t,
    createRequest now w = (Js.TypeError, mkWorld s' g')
    /\ s' = set_requestCount (requestCount (simulation w) + 1) (simulation w)
    /\ servers s' = servers (simulation w)
    /\ totalRejectedRequests s' = totalRejectedRequests (simulation w)
    /\ requestCount s' = requestCount (simulation w) + 1.
Proof.
  intros Hsel Hout. apply index_None in Hout.
  destruct (drawnType_Some w) as (requestType & Htype & _).
  eexists. split; [exact (createRequest_throws now w requestType idx g' Htype Hsel Hout)|].
  repeat split.
Qed.

Lemma createRequest_out_of_range_witness :
  exists s' : t,
    createRequest 5 Sample.worldPastEnd = (Js.TypeError, mkWorld s' (afterDraws Sample.worldPastEnd))
    /\ s' = set_requestCount (requestCount (simulation Sample.worldPastEnd) + 1)
              (simulation Sample.worldPastEnd)
    /\ servers s' = servers (simulation Sample.worldPastEnd)
    /\ totalRejectedRequests s' = totalRejectedRequests (simulation Sample.worldPastEnd)
    /\ requestCount s' = requestCount (simulation Sample.worldPastEnd) + 1.
Proof.
  apply (createRequest_out_of_range 5 Sample.worldPastEnd 4 (afterDraws Sample.worldPastEnd)).
  - reflexivity.
  - unfold Js.length. simpl. lia.
Defined.

(** C5, the sentence as written fails: with an algorithm that answers
    [servers.length], the call throws and counts no rejection, neither
    simulation-wide nor on any server. *)
Lemma out_of_range_not_rejected :
  fst (createRequest 5 Sample.worldPastEnd) = Js.TypeError
  /\ totalRejectedRequests (simulation (snd (createRequest 5 Sample.worldPastEnd))) = 0
  /\ map Server.rejectedRequests (servers (simulation (snd (createRequest 5 Sample.worldPastEnd))))
     = [0; 0; 0; 0].
Proof.
  repeat split.
Qed.

(** ** Progress and completion of a request *)

Lemma elapsed_nonneg (now : Z) (req : Request.t) :
  Request.startTime req <= now -> (0 <= inject_Z (now - Request.startTime req))%Q.
Proof.
  intros H. change 0%Q with (inject_Z 0). rewrite <- Zle_Qle. lia.
Qed.

Lemma quotient_ge_1 (d p : Q) : (0 < p)%Q -> (1 <= d / p)%Q <-> (p <= d)%Q.
Proof.
  intros Hp. split.
  - intros H. apply (Qmult_le_r _ _ p Hp) in H.
    rewrite Qmult_1_l in H. unfold Qdiv in H.
    rewrite <- Qmult_assoc, (Qmult_comm (/ p) p), Qmult_inv_r, Qmult_1_r in H;
      [exact H|]. intros E. rewrite E in Hp. exact (Qlt_irrefl _ Hp).
  - intros H. apply Qle_shift_div_l; [exact Hp|]. now rewrite Qmult_1_l.
Qed.

(** X1: for a request with a positive duration that has started, the
    progress lies between 0 and 1, and it is 1 exactly when the request is
    complete. *)
Theorem getProgress_range (now : Z) (req : Request.t) :
  (0 < Request.processingTime req)%Q -> Request.startTime req <= now ->
  (0 <= Request.getProgress now req)%Q
  /\ (Request.getProgress now req <= 1)%Q
  /\ ((Request.getProgress now req == 1)%Q <-> Request.isComplete now req = true).
Proof.
  intros Hp Hstart. pose proof (elapsed_nonneg now req Hstart) as Hd.
  unfold Request.getProgress, Request.isComplete.
  split; [|split].
  - apply Q.min_glb; [discriminate|].
    apply Qle_shift_div_l; [exact Hp|]. now rewrite Qmult_0_l.
  - apply Q.le_min_l.
  - rewrite Q.min_l_iff, (quotient_ge_1 _ _ Hp). symmetry. apply Qle_bool_iff.
Qed.

Lemma getProgress_range_witness :
  (0 <= Request.getProgress 40 Sample2.slow)%Q
  /\ (Request.getProgress 40 Sample2.slow <= 1)%Q
  /\ ((Request.getProgress 40 Sample2.slow == 1)%Q <-> Request.isComplete 40 Sample2.slow = true).
Proof.
  apply getProgress_range; [reflexivity | discriminate].
Defined.

Lemma isComplete_later (now now' : Z) (req : Request.t) :
  now <= now' -> Request.isComplete now req = true -> Request.isComplete now' req = true.
Proof.
  unfold Request.isComplete. intros Hle H. apply Qle_bool_iff in H. apply Qle_bool_iff.
  eapply Qle_trans; [exact H|]. rewrite <- Zle_Qle. lia.
Qed.

(** ** What [updateRequests] books *)

Lemma time_shift (l : list Request.t) (a : Q) :
  (fold_left (fun acc req => acc + Request.processingTime req) l a == a + totalTime l)%Q.
Proof.
  unfold totalTime. revert a. induction l as [|r l IH]; intros a; simpl.
  - now rewrite Qplus_0_r.
  - rewrite (IH (a + Request.processingTime r)%Q), (IH (0 + Request.processingTime r)%Q).
    ring.
Qed.

Lemma totalTime_cons (r : Request.t) (l : list Request.t) :
  (totalTime (r :: l) == Request.processingTime r + totalTime l)%Q.
Proof.
  unfold totalTime at 1. simpl. rewrite time_shift. ring.
Qed.

Lemma recordCompletion_counts (l : list Request.t) (s : Server.t) :
  let s' := fold_left Server.recordCompletion l s in
  Server.completedRequests s' = Server.completedRequests s + Js.length l
  /\ Server.totalResponseTime s'
     = fold_left (fun acc req => (acc + Request.processingTime req)%Q) l
                 (Server.totalResponseTime s)
  /\ Server.requests s' = Server.requests s
  /\ Server.rejectedRequests s' = Server.rejectedRequests s
  /\ Server.maxCpu s' = Server.maxCpu s
  /\ Server.maxMemory s' = Server.maxMemory s.
Proof.
  revert s. induction l as [|r l IH]; intros s; simpl.
  - unfold Js.length. simpl. repeat split. lia.
  - destruct (IH (Server.recordCompletion s r)) as (H1 & H2 & H3 & H4 & H5 & H6).
    rewrite H1, H2, H3, H4, H5, H6. unfold Js.length. simpl. repeat split. lia.
Qed.

Lemma filter_length_split (p : Request.t -> bool) (l : list Request.t) :
  Js.length (List.filter (fun req => negb (p req)) l) + Js.length (List.filter p l)
  = Js.length l.
Proof.
  unfold Js.length. induction l as [|r l IH]; simpl; [reflexivity|].
  destruct (p r); simpl; lia.
Qed.

Lemma filter_rejects (p : Request.t -> bool) (l : list Request.t) :
  Forall (fun req => p req = false) (List.filter (fun req => negb (p req)) l).
Proof.
  induction l as [|r l IH]; simpl; [constructor|].
  destruct (p r) eqn:E; simpl; [exact IH | now constructor].
Qed.

Lemma updateRequests_books (now : Z) (s : Server.t) :
  let s' := Server.updateRequests now s in
  let completedNow := List.filter (Request.isComplete now) (Server.requests s) in
  Server.requests s'
  = List.filter (fun req => negb (Request.isComplete now req)) (Server.requests s)
  /\ Forall (fun req => Request.isComplete now req = false) (Server.requests s')
  /\ Server.completedRequests s' = Server.completedRequests s + Js.length completedNow
  /\ (Server.totalResponseTime s' == Server.totalResponseTime s + totalTime completedNow)%Q
  /\ Server.rejectedRequests s' = Server.rejectedRequests s
  /\ Js.length (Server.requests s') + Js.length completedNow = Js.length (Server.requests s).
Proof.
  cbv zeta. unfold Server.updateRequests.
  destruct (recordCompletion_counts
              (List.filter (Request.isComplete now) (Server.requests s)) s)
    as (H1 & H2 & _ & H4 & _).
  cbn [Server.requests Server.set_requests Server.completedRequests
       Server.totalResponseTime Server.rejectedRequests].
  split; [reflexivity|]. split; [apply filter_rejects|].
  split; [exact H1|]. split; [rewrite H2; apply time_shift|].
  split; [exact H4 | apply filter_length_split].
Qed.








(** A request that takes 100 ms from time 0, seen by the first filter at
    99 ms and by the second one at 100 ms: it is dropped, and no completion
    is counted. *)
Example updateRequests_between_filters :
  let s' := Server.updateRequestsAt Sample3.ticking Sample3.waiting in
  Server.requests Sample3.waiting = [Sample2.slow]
  /\ Server.requests s' = []
  /\ Server.completedRequests s' = 0
  /\ countedRequests Sample3.ticking Sample3.waiting = []
  /\ lostRequests Sample3.ticking Sample3.waiting = [Sample2.slow].
Proof. repeat split. Qed.

Lemma filter_filter_none (p : Request.t -> bool) (l : list Request.t) :
  List.filter p (List.filter (fun req => negb (p req)) l) = [].
Proof.
  induction l as [|r l IH]; simpl; [reflexivity|].
  destruct (p r) eqn:E; simpl; [exact IH | now rewrite E].
Qed.

Lemma filter_filter_under (p q : Request.t -> bool) (l : list Request.t) :
  (forall req, p req = true -> q req = true) ->
  List.filter (fun req => negb (q req)) (List.filter (fun req => negb (p req)) l)
  = List.filter (fun req => negb (q req)) l.
Proof.
  intros Hpq. induction l as [|r l IH]; simpl; [reflexivity|].
  destruct (p r) eqn:Ep; simpl.
  - rewrite (Hpq r Ep). simpl. exact IH.
  - destruct (q r); simpl; now rewrite IH.
Qed.

(** X3: a second [updateRequests] at the same clock value changes nothing:
    no completion is counted twice. *)
Theorem updateRequests_idempotent (now : Z) (s : Server.t) :
  Server.updateRequests now (Server.updateRequests now s) = Server.updateRequests now s.
Proof.
  unfold Server.updateRequests at 1.
  assert (Hreq : Server.requests (Server.updateRequests now s)
                 = List.filter (fun req => negb (Request.isComplete now req))
                               (Server.requests s)) by reflexivity.
  rewrite Hreq, filter_filter_none. cbn [fold_left].
  rewrite (filter_filter_under _ _ _ (fun req H => H)).
  unfold Server.updateRequests. reflexivity.
Qed.




(** ** The ways a call of [createRequest] can end *)

Lemma createRequest_cases (now : Z) (w w' : World) (r : Js.Result unit) :
  createRequest now w = (r, w') ->
  let s0 := set_requestCount (requestCount (simulation w) + 1) (simulation w) in
  (simulation w' = s0 /\ r <> Js.Return tt)
  \/ exists (requestType : RequestType) (idx : Z) (server : Server.t),
       In requestType requestTypes
       /\ fst (selected w) = Js.Return idx
       /\ Js.index (servers (simulation w)) idx = Some server
       /\ r = Js.Return tt
       /\ let request := builtRequest now w requestType in
          (Server.canHandleRequest server request = true
           /\ simulation w'
              = set_servers
                  (alter (fun sv => Server.addRequest sv request) (Z.to_nat idx) (servers s0))
                  (set_currentServerIndex (Js.rem (idx + 1) (numServers s0)) s0))
          \/ (Server.canHandleRequest server request = false
              /\ simulation w'
                 = set_servers
                     (alter (fun sv =>
                               Server.set_rejectedRequests (Server.rejectedRequests sv + 1) sv)
                            (Z.to_nat idx) (servers s0))
                     (set_totalRejectedRequests (totalRejectedRequests s0 + 1) s0)).
Proof.
  intros Hrun. cbv zeta.
  destruct (drawnType_Some w) as (requestType & Htype & Hin).
  destruct (selected w) as [res g'] eqn:Hsel.
  destruct res as [idx| |].
  - destruct (Js.index (servers (simulation w)) idx) as [server|] eqn:Hidx.
    + rewrite (createRequest_returns now w requestType idx g' server Htype Hsel Hidx) in Hrun.
      injection Hrun as <- <-. right. exists requestType, idx, server.
      split; [exact Hin|]. split; [reflexivity|]. split; [exact Hidx|]. split; [reflexivity|].
      cbn [simulation]. cbv zeta.
      destruct (Server.canHandleRequest server _); [left | right]; split; reflexivity.
    + rewrite (createRequest_throws now w requestType idx g' Htype Hsel Hidx) in Hrun.
      injection Hrun as <- <-. left. split; [reflexivity | discriminate].
  - destruct (createRequest_no_answer now w requestType Js.TypeError g' Htype Hsel) as (r' & Hr');
      [discriminate|].
    rewrite Hr' in Hrun. injection Hrun as <- <-. left. split; [reflexivity|].
    intros ->.
    destruct w as [self g]. unfold drawnType, selected, afterDraws in *.
    cbn [simulation randomSource] in *.
    unfold createRequest, Js.bind, rand, read, update, Math.randomIndex, Js.bind,
      Math.random, Js.ret in Hr'. cbn [simulation randomSource] in Hr'.
    rewrite Htype in Hr'. unfold Js.defined at 1 in Hr'. unfold Js.ret in Hr'.
    cbn [simulation randomSource] in Hr'. rewrite Hsel in Hr'. discriminate.
  - destruct (createRequest_no_answer now w requestType Js.OutOfFuel g' Htype Hsel) as (r' & Hr');
      [discriminate|].
    rewrite Hr' in Hrun. injection Hrun as <- <-. left. split; [reflexivity|].
    intros ->.
    destruct w as [self g]. unfold drawnType, selected, afterDraws in *.
    cbn [simulation randomSource] in *.
    unfold createRequest, Js.bind, rand, read, update, Math.randomIndex, Js.bind,
      Math.random, Js.ret in Hr'. cbn [simulation randomSource] in Hr'.
    rewrite Htype in Hr'. unfold Js.defined at 1 in Hr'. unfold Js.ret in Hr'.
    cbn [simulation randomSource] in Hr'. rewrite Hsel in Hr'. discriminate.
Qed.

(** Induction over the observable states, one case per operation. *)
Lemma reachable_invariant (P : t -> Prop) (fuel : nat) :
  (forall a now, P (constructor a now)) ->
  (forall now w r w', reachable fuel w -> P (simulation w) ->
                      createRequest now w = (r, w') -> P (simulation w')) ->
  (forall s, P s -> P (updateStatsDisplay s)) ->
  (forall now s, P s -> P (animate now s)) ->
  (forall count s, P s -> P (setNumServers count s)) ->
  (forall a s, P s -> P (set_algorithm a s)) ->
  (forall s, P s -> P (clearRequests s)) ->
  forall w, reachable fuel w -> P (simulation w).
Proof.
  intros Hnew Hcreate Hstats Hanimate Hcount Halg Hclear w Hreach.
  induction Hreach as [a now g | e w w' r Hreach IH Hrun _].
  - apply Hnew.
  - destruct e; simpl in Hrun.
    + eapply Hcreate; eassumption.
    + injection Hrun as _ <-. now apply Hanimate.
    + injection Hrun as _ <-. now apply Hcount.
    + injection Hrun as _ <-. now apply Halg.
    + injection Hrun as _ <-. now apply Hclear.
    + injection Hrun as _ <-. unfold resetSimulation. cbn [simulation].
      now apply Hclear, Halg, Hcount.
    + injection Hrun as _ <-. now apply Hstats.
Qed.

Lemma updateStatsDisplay_frame (s : t) :
  servers (updateStatsDisplay s) = servers s
  /\ numServers (updateStatsDisplay s) = numServers s
  /\ currentServerIndex (updateStatsDisplay s) = currentServerIndex s
  /\ requestCount (updateStatsDisplay s) = requestCount s
  /\ totalRejectedRequests (updateStatsDisplay s) = totalRejectedRequests s
  /\ algorithm (updateStatsDisplay s) = algorithm s.
Proof.
  unfold updateStatsDisplay. cbv zeta.
  match goal with |- context [if ?c then _ else _] => destruct c end; repeat split.
Qed.

Lemma animate_frame (now : Z) (s : t) :
  servers (animate now s) = map (Server.updateRequests now) (servers s)
  /\ numServers (animate now s) = numServers s
  /\ currentServerIndex (animate now s) = currentServerIndex s
  /\ requestCount (animate now s) = requestCount s
  /\ totalRejectedRequests (animate now s) = totalRejectedRequests s
  /\ algorithm (animate now s) = algorithm s.
Proof.
  unfold animate, updateServerVisuals. cbv zeta.
  cbn [servers numServers currentServerIndex requestCount totalRejectedRequests algorithm
       set_servers].
  destruct (updateStatsDisplay_frame (updateStatsDisplay s)) as (H1 & H2 & H3 & H4 & H5 & H6).
  destruct (updateStatsDisplay_frame s) as (K1 & K2 & K3 & K4 & K5 & K6).
  rewrite H1, H2, H3, H4, H5, H6, K1, K2, K3, K4, K5, K6. repeat split.
Qed.

(** ** The shape of the server list *)

Lemma shape_createRequest (now : Z) (w w' : World) (r : Js.Result unit) :
  shape_ok (simulation w) -> createRequest now w = (r, w') -> shape_ok (simulation w').
Proof.
  intros (Hlen & Hc0 & Hc) Hrun.
  destruct (createRequest_cases now w w' r Hrun)
    as [[-> _] | (rt & idx & server & _ & _ & Hidx & _ & [[_ ->] | [_ ->]])].
  - repeat split; assumption.
  - apply index_inv in Hidx as [Hr _]. unfold Js.length in Hr.
    unfold shape_ok.
    cbn [servers numServers currentServerIndex set_servers set_currentServerIndex
         set_requestCount].
    rewrite length_alter. split; [exact Hlen|].
    assert (Hn : idx + 1 <= numServers (simulation w)) by lia.
    unfold Js.rem.
    pose proof (Z.rem_bound_pos (idx + 1) (numServers (simulation w))) as Hb.
    split; [lia | left; lia].
  - unfold shape_ok.
    cbn [servers numServers currentServerIndex set_servers set_totalRejectedRequests
         set_requestCount].
    rewrite length_alter. repeat split; assumption.
Qed.

Lemma reachable_shape (fuel : nat) (w : World) : reachable fuel w -> shape_ok (simulation w).
Proof.
  apply reachable_invariant.
  - intros a now. unfold shape_ok. destruct (animate_frame now
      (initializeServers (mk a 4 [] 0 0 [] [] 50 0))) as (H1 & H2 & H3 & _).
    unfold constructor. rewrite H1, H2, H3. simpl. repeat split; lia.
  - intros now w0 r w' _ Hok Hrun. eapply shape_createRequest; eassumption.
  - intros s (H1 & H2 & H3). destruct (updateStatsDisplay_frame s) as (K1 & K2 & K3 & _).
    unfold shape_ok. rewrite K1, K2, K3. repeat split; assumption.
  - intros now s (H1 & H2 & H3). destruct (animate_frame now s) as (K1 & K2 & K3 & _).
    unfold shape_ok. rewrite K1, K2, K3, length_map. repeat split; assumption.
  - intros count s _. unfold shape_ok, setNumServers, initializeServers.
    cbn [servers numServers currentServerIndex set_servers set_currentServerIndex
         set_numServers].
    rewrite length_replicate. repeat split; [lia | now right].
  - intros a s H. exact H.
  - intros s (H1 & H2 & H3). unfold shape_ok, clearRequests.
    cbn [servers numServers currentServerIndex set_servers set_requestCount
         set_totalRejectedRequests].
    rewrite length_map. repeat split; assumption.
Qed.

(** X5: in every observable state the server list has [numServers] entries
    and the cursor is not negative; it is below [numServers], or 0 when
    there is no server.  This holds whatever algorithm is installed. *)
Theorem server_list_shape (fuel : nat) (w : World) :
  reachable fuel w ->
  List.length (servers (simulation w)) = Z.to_nat (numServers (simulation w))
  /\ 0 <= currentServerIndex (simulation w)
  /\ (currentServerIndex (simulation w) < numServers (simulation w)
      \/ currentServerIndex (simulation w) = 0).
Proof. exact (reachable_shape fuel w). Qed.

Lemma server_list_shape_witness :
  List.length (servers (simulation Sample.world1)) = Z.to_nat (numServers (simulation Sample.world1))
  /\ 0 <= currentServerIndex (simulation Sample.world1)
  /\ (currentServerIndex (simulation Sample.world1) < numServers (simulation Sample.world1)
      \/ currentServerIndex (simulation Sample.world1) = 0).
Proof.
  apply (server_list_shape 1 Sample.world1). exact world1_reachable.
Defined.

(** ** The driver with a built-in algorithm *)

Lemma builtin_answer (fuel : nat) (name : AlgorithmName) (servers : list Server.t)
    (cursor : Z) (g : Math.RandState) :
  (0 < fuel)%nat -> servers <> [] -> 0 <= cursor < Js.length servers ->
  exists idx g',
    selectServer (algorithms fuel name) servers cursor g = (Js.Return idx, g')
    /\ 0 <= idx < Js.length servers.
Proof.
  intros Hfuel Hne Hcur. destruct name; simpl.
  - exists cursor, g. split; [now apply RoundRobin_returns_cursor | exact Hcur].
  - destruct fuel as [|fuel]; [lia|].
    eexists _, _. split; [now apply Random_returns_first_draw|].
    apply floor_scaled_range. now apply length_pos.
  - destruct (LeastRequests_first_min servers cursor g Hne) as (idx & s & Hrun & Hs & _).
    exists idx, g. split; [exact Hrun | now apply index_inv in Hs].
  - destruct (LeastResponseTime_first_min servers cursor g Hne) as (idx & s & Hrun & Hs & _).
    exists idx, g. split; [exact Hrun | now apply index_inv in Hs].
  - destruct (Dynamic_first_min servers cursor g Hne) as (idx & s & Hrun & Hs & _).
    exists idx, g. split; [exact Hrun | now apply index_inv in Hs].
Qed.

Lemma shape_cursor_in_range (s : t) :
  shape_ok s -> 1 <= numServers s ->
  servers s <> [] /\ 0 <= currentServerIndex s < Js.length (servers s).
Proof.
  intros (Hlen & Hc0 & Hc) Hn. unfold Js.length. split.
  - intros E. rewrite E in Hlen. simpl in Hlen. lia.
  - lia.
Qed.

(** X6: in an observable state with at least one server and one of the five
    built-in algorithms installed, [createRequest] returns: it never throws,
    whatever the clock and the random draws. *)
Theorem createRequest_never_throws (fuel fuel' : nat) (name : AlgorithmName) (now : Z)
    (w : World) :
  reachable fuel w ->
  algorithm (simulation w) = algorithms fuel' name ->
  (0 < fuel')%nat ->
  1 <= numServers (simulation w) ->
  exists w', createRequest now w = (Js.Return tt, w').
Proof.
  intros Hreach Halg Hfuel Hn.
  destruct (shape_cursor_in_range _ (reachable_shape fuel w Hreach) Hn) as [Hne Hcur].
  destruct (builtin_answer fuel' name (servers (simulation w))
              (currentServerIndex (simulation w)) (afterDraws w) Hfuel Hne Hcur)
    as (idx & g' & Hsel & Hidx).
  destruct (index_Some _ _ Hidx) as (server & Hserver & _).
  destruct (drawnType_Some w) as (requestType & Htype & _).
  eexists. apply createRequest_returns with (requestType := requestType) (server := server).
  - exact Htype.
  - unfold selected. rewrite Halg. exact Hsel.
  - exact Hserver.
Qed.

Lemma createRequest_never_throws_witness :
  exists w', createRequest 7 Sample.world1 = (Js.Return tt, w').
Proof.
  apply (createRequest_never_throws 1 1 RoundRobin 7 Sample.world1).
  - exact world1_reachable.
  - reflexivity.
  - apply Nat.lt_0_1.
  - discriminate.
Defined.

Lemma floor_times_zero (q : Q) : Math.floor (q * inject_Z 0) = 0.
Proof.
  unfold Math.floor. destruct q as [n d]. unfold Qmult, inject_Z, Qfloor. simpl.
  rewrite Z.mul_0_r. apply Zdiv_0_l.
Qed.

Lemma builtin_empty_answer (fuel : nat) (name : AlgorithmName) (cursor : Z)
    (g : Math.RandState) :
  exists g', selectServer (algorithms fuel name) [] cursor g
             = (Js.Return (emptyAnswer name cursor), g').
Proof.
  destruct name; simpl; try (eexists; reflexivity).
  unfold RandomAlgorithm.selectServer.
  assert (Hloop : RandomAlgorithm.loop fuel [] ∅ = Math.randomIndex (Js.length (@nil Server.t))).
  { destruct fuel; cbn [RandomAlgorithm.loop]; rewrite size_empty; reflexivity. }
  rewrite Hloop. unfold Math.randomIndex, Js.bind, Math.random, Js.ret.
  change (Js.length (@nil Server.t)) with 0.
  rewrite floor_times_zero. eexists. reflexivity.
Qed.

(** X7: on an empty server list every built-in algorithm still answers an
    index, the cursor for round robin and 0 for the four others (the random
    one without entering its loop); [createRequest] then throws a
    [TypeError], counting no rejection and moving only the request
    counter. *)
Theorem no_server_behaviour (fuel : nat) (name : AlgorithmName) (now : Z) (w : World) :
  servers (simulation w) = [] ->
  algorithm (simulation w) = algorithms fuel name ->
  exists g',
    selected w = (Js.Return (emptyAnswer name (currentServerIndex (simulation w))), g')
    /\ createRequest now w
       = (Js.TypeError,
          mkWorld (set_requestCount (requestCount (simulation w) + 1) (simulation w)) g').
Proof.
  intros Hempty Halg.
  destruct (builtin_empty_answer fuel name (currentServerIndex (simulation w)) (afterDraws w))
    as (g' & Hsel).
  assert (Hsel' : selected w
                  = (Js.Return (emptyAnswer name (currentServerIndex (simulation w))), g'))
    by (unfold selected; now rewrite Halg, Hempty).
  exists g'. split; [exact Hsel'|].
  destruct (drawnType_Some w) as (requestType & Htype & _).
  apply createRequest_throws with (requestType := requestType)
    (idx := emptyAnswer name (currentServerIndex (simulation w))); [exact Htype | exact Hsel'|].
  rewrite Hempty. unfold Js.index. destruct (0 <=? _); [apply lookup_nil | reflexivity].
Qed.

Lemma no_server_behaviour_witness :
  exists g',
    selected Sample2.worldEmpty
    = (Js.Return (emptyAnswer RoundRobin (currentServerIndex (simulation Sample2.worldEmpty))), g')
    /\ createRequest 5 Sample2.worldEmpty
       = (Js.TypeError,
          mkWorld (set_requestCount (requestCount (simulation Sample2.worldEmpty) + 1)
                     (simulation Sample2.worldEmpty)) g').
Proof.
  apply (no_server_behaviour 1 RoundRobin 5 Sample2.worldEmpty); reflexivity.
Defined.

(** X8: one call of [createRequest] moves the request counter by exactly
    one, however the call ends (admission, rejection, exception, abandoned
    loop): request ids are handed out consecutively. *)
Theorem createRequest_counts (now : Z) (w w' : World) (r : Js.Result unit) :
  createRequest now w = (r, w') ->
  requestCount (simulation w') = requestCount (simulation w) + 1.
Proof.
  intros Hrun.
  destruct (createRequest_cases now w w' r Hrun)
    as [[-> _] | (rt & idx & server & _ & _ & _ & _ & [[_ ->] | [_ ->]])]; reflexivity.
Qed.

Lemma createRequest_counts_witness :
  requestCount (simulation (snd (createRequest 5 Sample.worldPastEnd)))
  = requestCount (simulation Sample.worldPastEnd) + 1.
Proof.
  apply (createRequest_counts 5 Sample.worldPastEnd _ (fst (createRequest 5 Sample.worldPastEnd))).
  apply surjective_pairing.
Defined.



(** ** Request ids *)

Lemma activeIds_alter_add (l : list Server.t) (i : nat) (sv : Server.t) (r : Request.t) :
  l !! i = Some sv ->
  activeIds (alter (fun sv => Server.addRequest sv r) i l) ≡ₚ Request.id r :: activeIds l.
Proof.
  revert i. induction l as [|x l IH]; intros [|i] Hl; simpl in Hl; try discriminate.
  - unfold activeIds. simpl. rewrite map_app. simpl.
    rewrite <- app_assoc. simpl. symmetry. apply Permutation_middle.
  - unfold activeIds in *. simpl. rewrite (IH i Hl).
    symmetry. apply Permutation_middle.
Qed.

Lemma activeIds_alter_same (l : list Server.t) (i : nat) (f : Server.t -> Server.t) :
  (forall sv, Server.requests (f sv) = Server.requests sv) ->
  activeIds (alter f i l) = activeIds l.
Proof.
  intros Hf. unfold activeIds. revert i.
  induction l as [|x l IH]; intros [|i]; simpl; try reflexivity.
  - now rewrite Hf.
  - f_equal. apply IH.
Qed.

Lemma filter_sublist (p : Request.t -> bool) (l : list Request.t) :
  sublist (List.filter p l) l.
Proof.
  induction l as [|r l IH]; simpl; [constructor|].
  destruct (p r); [now apply sublist_skip | now apply sublist_cons].
Qed.

Lemma activeIds_update_sublist (now : Z) (l : list Server.t) :
  sublist (activeIds (map (Server.updateRequests now) l)) (activeIds l).
Proof.
  unfold activeIds. induction l as [|x l IH]; simpl; [constructor|].
  apply sublist_app; [|exact IH].
  apply (fmap_sublist Request.id). apply filter_sublist.
Qed.

Lemma activeIds_replicate_new (n : nat) : activeIds (replicate n Server.new) = [].
Proof. unfold activeIds. induction n as [|n IH]; simpl; [reflexivity | exact IH]. Qed.

Lemma activeIds_cleared (l : list Server.t) :
  activeIds (map (fun server => Server.set_rejectedRequests 0 (Server.set_requests [] server)) l)
  = [].
Proof. unfold activeIds. induction l as [|x l IH]; simpl; [reflexivity | exact IH]. Qed.

Lemma ids_createRequest (now : Z) (w w' : World) (r : Js.Result unit) :
  ids_ok (simulation w) -> createRequest now w = (r, w') -> ids_ok (simulation w').
Proof.
  intros (Hdup & Hall & Hcount) Hrun.
  assert (Hweak : Forall (fun i => 0 <= i < requestCount (simulation w) + 1)
                         (activeIds (servers (simulation w)))).
  { eapply Forall_impl; [exact Hall|]. simpl. intros i Hi. lia. }
  destruct (createRequest_cases now w w' r Hrun)
    as [[-> _] | (rt & idx & server & _ & _ & Hidx & _ & [[_ ->] | [_ ->]])];
    unfold ids_ok;
    cbn [servers requestCount set_servers set_currentServerIndex set_requestCount
         set_totalRejectedRequests].
  - split; [exact Hdup|]. split; [exact Hweak | lia].
  - apply index_inv in Hidx as [_ Hl].
    rewrite (activeIds_alter_add _ _ _ (builtRequest now w rt) Hl).
    change (Request.id (builtRequest now w rt)) with (requestCount (simulation w)).
    split; [|split; [|lia]].
    + apply NoDup_cons. split; [|exact Hdup].
      intros Hin. rewrite Forall_forall in Hall. apply Hall in Hin. lia.
    + constructor; [lia | exact Hweak].
  - rewrite activeIds_alter_same by reflexivity.
    split; [exact Hdup|]. split; [exact Hweak | lia].
Qed.

Lemma reachable_ids (fuel : nat) (w : World) : reachable fuel w -> ids_ok (simulation w).
Proof.
  apply reachable_invariant.
  - intros a now. unfold ids_ok.
    destruct (animate_frame now (initializeServers (mk a 4 [] 0 0 [] [] 50 0)))
      as (H1 & _ & _ & H4 & _).
    unfold constructor. rewrite H1, H4. simpl. repeat split; try constructor; lia.
  - intros now w0 r w' _ Hok Hrun. eapply ids_createRequest; eassumption.
  - intros s Hok. destruct (updateStatsDisplay_frame s) as (K1 & _ & _ & K4 & _).
    unfold ids_ok. now rewrite K1, K4.
  - intros now s (Hdup & Hall & Hcount). destruct (animate_frame now s) as (K1 & _ & _ & K4 & _).
    unfold ids_ok. rewrite K1, K4.
    pose proof (activeIds_update_sublist now (servers s)) as Hsub.
    split; [now apply (sublist_NoDup _ _ Hdup)|]. split; [|exact Hcount].
    rewrite Forall_forall in *. intros i Hi. apply Hall. eapply elem_of_sublist; eassumption.
  - intros count s (_ & _ & Hcount). unfold ids_ok, setNumServers, initializeServers.
    cbn [servers requestCount set_servers set_currentServerIndex set_numServers].
    rewrite activeIds_replicate_new. repeat split; [constructor | constructor | exact Hcount].
  - intros a s H. exact H.
  - intros s _. unfold ids_ok, clearRequests.
    cbn [servers requestCount set_servers set_requestCount set_totalRejectedRequests].
    rewrite activeIds_cleared. repeat split; try constructor. discriminate.
Qed.

(** ** Admission *)

Lemma reachable_step (fuel : nat) (e : Event) (w : World) :
  reachable fuel w -> fst (exec fuel e w) <> Js.OutOfFuel -> reachable fuel (snd (exec fuel e w)).
Proof.
  intros Hw Hr. eapply reachable_exec; [exact Hw | apply surjective_pairing | exact Hr].
Qed.

Lemma worldFull_reachable : reachable 1 Sample3.worldFull.
Proof.
  unfold Sample3.worldFull. cbn [Nat.iter nat_rect].
  do 20 (apply reachable_step; [|vm_compute; discriminate]).
  unfold Sample3.worldTwo. apply reachable_step; [apply reachable_new | vm_compute; discriminate].
Qed.

Lemma activeIds_hosted (l : list Server.t) (sv : Server.t) (r : Request.t) :
  In sv l -> In r (Server.requests sv) -> In (Request.id r) (activeIds l).
Proof.
  intros Hsv Hr. unfold activeIds. apply in_concat.
  exists (map Request.id (Server.requests sv)). split.
  - apply (in_map (fun server => map Request.id (Server.requests server))). exact Hsv.
  - now apply in_map.
Qed.

(** The request [createRequest] builds carries the request counter as its
    id, which no active request has. *)
Lemma builtRequest_new (now : Z) (w : World) (requestType : RequestType) :
  ids_ok (simulation w) ->
  Forall (fun sv => ~ In (builtRequest now w requestType) (Server.requests sv))
         (servers (simulation w)).
Proof.
  intros (_ & Hall & _). apply Forall_forall. intros sv Hsv Hin.
  apply list_elem_of_In in Hsv.
  pose proof (activeIds_hosted _ _ _ Hsv Hin) as Hid.
  rewrite Forall_forall in Hall. apply list_elem_of_In in Hid.
  specialize (Hall _ Hid). unfold builtRequest in Hall. simpl in Hall. lia.
Qed.

(** C2: when the algorithm answers the index of a server, [createRequest]
    returns, and afterwards that server hosts the request exactly when its
    cpu load plus the request's was at most 100 and its memory load plus the
    request's was at most 100.  The request is new: no server hosted it
    before.  On admission the server's active requests are the former ones
    followed by the request, and neither its rejection counter nor the
    simulation-wide one moves.  Otherwise both rejection counters are one
    higher, every active set is as it was and no server hosts the request.
    In both cases the server list keeps its length, every other server is
    untouched, and the selected server keeps its capacities and completion
    counters. *)
Theorem createRequest_admission (fuel : nat) (now : Z) (w : World) (idx : Z)
    (g' : Math.RandState) (server : Server.t) :
  reachable fuel w ->
  selected w = (Js.Return idx, g') ->
  Js.index (servers (simulation w)) idx = Some server ->
  exists (requestType : RequestType) (s' : t) (server' : Server.t),
    let s := simulation w in
    let request := builtRequest now w requestType in
    let fits :=
      Server.cpu (Server.getCurrentLoad server) + Request.cpuLoad request <= 100
      /\ Server.memory (Server.getCurrentLoad server) + Request.memoryLoad request <= 100 in
    let hosts := fun sv : Server.t => In request (Server.requests sv) in
    drawnType w = Some requestType
    /\ createRequest now w = (Js.Return tt, mkWorld s' g')
    /\ Js.index (servers s') idx = Some server'
    /\ List.length (servers s') = List.length (servers s)
    /\ (forall j : nat, j <> Z.to_nat idx -> servers s' !! j = servers s !! j)
    /\ Forall (fun sv => ~ hosts sv) (servers s)
    /\ (hosts server' <-> fits)
    /\ (Exists hosts (servers s') <-> fits)
    /\ Server.maxCpu server' = Server.maxCpu server
    /\ Server.maxMemory server' = Server.maxMemory server
    /\ Server.completedRequests server' = Server.completedRequests server
    /\ Server.totalResponseTime server' = Server.totalResponseTime server
    /\ (fits ->
        Server.requests server' = Server.requests server ++ [request]
        /\ Server.rejectedRequests server' = Server.rejectedRequests server
        /\ totalRejectedRequests s' = totalRejectedRequests s)
    /\ (~ fits ->
        Server.requests server' = Server.requests server
        /\ Server.rejectedRequests server' = Server.rejectedRequests server + 1
        /\ totalRejectedRequests s' = totalRejectedRequests s + 1
        /\ map Server.requests (servers s') = map Server.requests (servers s)
        /\ Forall (fun sv => ~ hosts sv) (servers s')).
Proof.
  intros Hreach Hsel Hidx.
  destruct (drawnType_Some w) as (requestType & Htype & _).
  pose proof (createRequest_returns now w requestType idx g' server Htype Hsel Hidx) as Hrun.
  destruct (reachable_ok fuel w Hreach) as [Hservers _].
  pose proof (builtRequest_new now w requestType (reachable_ids fuel w Hreach)) as Hnew.
  destruct (index_inv _ _ _ Hidx) as [Hrange Hl].
  assert (Hpos : (0 <=? idx) = true) by (apply Z.leb_le; lia).
  rewrite Forall_lookup in Hservers. destruct (Hservers _ _ Hl) as (Hcpu & Hmem & _).
  cbv zeta in Hrun.
  set (request := builtRequest now w requestType) in *.
  assert (Hcan : Server.canHandleRequest server request = true <->
                 Server.cpu (Server.getCurrentLoad server) + Request.cpuLoad request <= 100
                 /\ Server.memory (Server.getCurrentLoad server) + Request.memoryLoad request
                    <= 100).
  { unfold Server.canHandleRequest. cbv zeta.
    rewrite andb_true_iff, !Z.leb_le, Hcpu, Hmem. reflexivity. }
  assert (Hserver : ~ In request (Server.requests server)).
  { rewrite Forall_lookup in Hnew. exact (Hnew _ _ Hl). }
  assert (Hothers : forall (f : Server.t -> Server.t) (sv : Server.t),
             In sv (alter f (Z.to_nat idx) (servers (simulation w))) ->
             In request (Server.requests sv) -> In request (Server.requests (f server))).
  { intros f sv Hsv Hin. apply list_elem_of_In in Hsv.
    apply list_elem_of_lookup in Hsv as (j & Hj).
    destruct (Nat.eq_dec j (Z.to_nat idx)) as [-> | Hne].
    - rewrite list_lookup_alter_eq, Hl in Hj. injection Hj as <-. exact Hin.
    - rewrite list_lookup_alter_ne in Hj by congruence.
      rewrite Forall_lookup in Hnew. destruct (Hnew _ _ Hj Hin). }
  exists requestType.
  destruct (Server.canHandleRequest server request) eqn:E.
  - assert (Hfits := proj1 Hcan eq_refl).
    eexists. exists (Server.addRequest server request). cbv zeta.
    split; [exact Htype|]. split; [exact Hrun|].
    cbn [servers totalRejectedRequests set_servers set_currentServerIndex set_requestCount
         set_totalRejectedRequests].
    assert (Hhosts : In request (Server.requests (Server.addRequest server request))).
    { simpl. apply in_or_app. right. now left. }
    split; [unfold Js.index; rewrite Hpos, list_lookup_alter_eq, Hl; reflexivity|].
    split; [apply length_alter|].
    split; [intros j Hj; apply list_lookup_alter_ne; congruence|].
    split; [exact Hnew|].
    split; [split; [intros _; exact Hfits | intros _; exact Hhosts]|].
    split.
    { split; [intros _; exact Hfits|]. intros _. apply Exists_exists.
      exists (Server.addRequest server request). split; [|exact Hhosts].
      eapply list_elem_of_lookup_2.
      rewrite list_lookup_alter_eq, Hl. reflexivity. }
    repeat (split; [reflexivity|]).
    split; [intros _; repeat split | intros Hno; contradiction].
  - assert (Hno : ~ (Server.cpu (Server.getCurrentLoad server) + Request.cpuLoad request <= 100
                     /\ Server.memory (Server.getCurrentLoad server)
                        + Request.memoryLoad request <= 100)).
    { intros Hfits. apply Hcan in Hfits. discriminate. }
    eexists.
    exists (Server.set_rejectedRequests (Server.rejectedRequests server + 1) server). cbv zeta.
    split; [exact Htype|]. split; [exact Hrun|].
    cbn [servers totalRejectedRequests set_servers set_currentServerIndex set_requestCount
         set_totalRejectedRequests].
    assert (Hnone : Forall (fun sv => ~ In request (Server.requests sv))
                      (alter (fun sv =>
                                Server.set_rejectedRequests (Server.rejectedRequests sv + 1) sv)
                             (Z.to_nat idx) (servers (simulation w)))).
    { apply Forall_forall. intros sv Hsv Hin. apply list_elem_of_In in Hsv.
      apply Hserver. exact (Hothers _ sv Hsv Hin). }
    split; [unfold Js.index; rewrite Hpos, list_lookup_alter_eq, Hl; reflexivity|].
    split; [apply length_alter|].
    split; [intros j Hj; apply list_lookup_alter_ne; congruence|].
    split; [exact Hnew|].
    split; [split; [intros Hin; destruct (Hserver Hin) | intros Hfits; contradiction]|].
    split.
    { split; [|intros Hfits; contradiction]. intros Hex.
      apply Exists_exists in Hex as (sv & Hsv & Hin).
      rewrite Forall_forall in Hnone. destruct (Hnone sv Hsv Hin). }
    repeat (split; [reflexivity|]).
    split; [intros Hfits; contradiction|].
    intros _. repeat (split; [reflexivity|]).
    split; [now apply alter_requests_same | exact Hnone].
Qed.

Lemma createRequest_admission_witness :
  (exists (requestType : RequestType) (s' : t) (server' : Server.t),
     let w := Sample3.worldFull in
     let idx := 0 in
     let server := Sample3.full in
     let s := simulation w in
     let request := builtRequest 0 w requestType in
     let fits :=
       Server.cpu (Server.getCurrentLoad server) + Request.cpuLoad request <= 100
       /\ Server.memory (Server.getCurrentLoad server) + Request.memoryLoad request <= 100 in
     let hosts := fun sv : Server.t => In request (Server.requests sv) in
     drawnType w = Some requestType
     /\ createRequest 0 w = (Js.Return tt, mkWorld s' (afterDraws w))
     /\ Js.index (servers s') idx = Some server'
     /\ List.length (servers s') = List.length (servers s)
     /\ (forall j : nat, j <> Z.to_nat idx -> servers s' !! j = servers s !! j)
     /\ Forall (fun sv => ~ hosts sv) (servers s)
     /\ (hosts server' <-> fits)
     /\ (Exists hosts (servers s') <-> fits)
     /\ Server.maxCpu server' = Server.maxCpu server
     /\ Server.maxMemory server' = Server.maxMemory server
     /\ Server.completedRequests server' = Server.completedRequests server
     /\ Server.totalResponseTime server' = Server.totalResponseTime server
     /\ (fits ->
         Server.requests server' = Server.requests server ++ [request]
         /\ Server.rejectedRequests server' = Server.rejectedRequests server
         /\ totalRejectedRequests s' = totalRejectedRequests s)
     /\ (~ fits ->
         Server.requests server' = Server.requests server
         /\ Server.rejectedRequests server' = Server.rejectedRequests server + 1
         /\ totalRejectedRequests s' = totalRejectedRequests s + 1
         /\ map Server.requests (servers s') = map Server.requests (servers s)
         /\ Forall (fun sv => ~ hosts sv) (servers s')))
  /\ (exists (requestType : RequestType) (s' : t) (server' : Server.t),
        let w := Sample.world0 in
        let idx := 0 in
        let server := Server.new in
        let s := simulation w in
        let request := builtRequest 5 w requestType in
        let fits :=
          Server.cpu (Server.getCurrentLoad server) + Request.cpuLoad request <= 100
          /\ Server.memory (Server.getCurrentLoad server) + Request.memoryLoad request <= 100 in
        let hosts := fun sv : Server.t => In request (Server.requests sv) in
        drawnType w = Some requestType
        /\ createRequest 5 w = (Js.Return tt, mkWorld s' (afterDraws w))
        /\ Js.index (servers s') idx = Some server'
        /\ List.length (servers s') = List.length (servers s)
        /\ (forall j : nat, j <> Z.to_nat idx -> servers s' !! j = servers s !! j)
        /\ Forall (fun sv => ~ hosts sv) (servers s)
        /\ (hosts server' <-> fits)
        /\ (Exists hosts (servers s') <-> fits)
        /\ Server.maxCpu server' = Server.maxCpu server
        /\ Server.maxMemory server' = Server.maxMemory server
        /\ Server.completedRequests server' = Server.completedRequests server
        /\ Server.totalResponseTime server' = Server.totalResponseTime server
        /\ (fits ->
            Server.requests server' = Server.requests server ++ [request]
            /\ Server.rejectedRequests server' = Server.rejectedRequests server
            /\ totalRejectedRequests s' = totalRejectedRequests s)
        /\ (~ fits ->
            Server.requests server' = Server.requests server
            /\ Server.rejectedRequests server' = Server.rejectedRequests server + 1
            /\ totalRejectedRequests s' = totalRejectedRequests s + 1
            /\ map Server.requests (servers s') = map Server.requests (servers s)
            /\ Forall (fun sv => ~ hosts sv) (servers s'))).
Proof.
  split.
  - apply (createRequest_admission 1 0 Sample3.worldFull 0 (afterDraws Sample3.worldFull)
             Sample3.full).
    + exact worldFull_reachable.
    + vm_compute. reflexivity.
    + vm_compute. reflexivity.
  - apply (createRequest_admission 1 5 Sample.world0 0 (afterDraws Sample.world0) Server.new).
    + apply reachable_new.
    + reflexivity.
    + reflexivity.
Defined.

(** The two outcomes on the samples.  The first server of
    [Sample3.worldFull] is the one round robin selects, and it carries a cpu
    load of 100: the twenty-first request is refused, that server's and the
    simulation-wide rejection counters go from 0 to 1, and both servers
    still host their ten requests.  A new server takes the request: it hosts
    one request and no rejection is counted. *)
Example createRequest_on_full_server :
  let s := simulation Sample3.worldFull in
  let s' := simulation (snd (createRequest 0 Sample3.worldFull)) in
  fst (selected Sample3.worldFull) = Js.Return 0
  /\ Server.cpu (Server.getCurrentLoad Sample3.full) = 100
  /\ map Server.rejectedRequests (servers s) = [0; 0]
  /\ totalRejectedRequests s = 0
  /\ map Server.rejectedRequests (servers s') = [1; 0]
  /\ totalRejectedRequests s' = 1
  /\ map (fun sv => map Request.id (Server.requests sv)) (servers s')
     = [[0; 2; 4; 6; 8; 10; 12; 14; 16; 18]; [1; 3; 5; 7; 9; 11; 13; 15; 17; 19]]
  /\ map (fun sv => map Request.id (Server.requests sv)) (servers s)
     = map (fun sv => map Request.id (Server.requests sv)) (servers s')
  /\ requestCount s' = 21.
Proof. vm_compute. repeat split. Qed.

Example createRequest_on_new_server :
  let s' := simulation (snd (createRequest 5 Sample.world0)) in
  map (fun sv => map Request.id (Server.requests sv)) (servers s') = [[0]; []; []; []]
  /\ map Server.rejectedRequests (servers s') = [0; 0; 0; 0]
  /\ totalRejectedRequests s' = 0.
Proof. vm_compute. repeat split. Qed.

(** X10: in every observable state the active requests of all servers carry
    pairwise distinct ids, so a request is hosted by one server only and
    once; every such id is below the request counter. *)
Theorem active_ids_distinct (fuel : nat) (w : World) :
  reachable fuel w ->
  NoDup (activeIds (servers (simulation w)))
  /\ Forall (fun i => 0 <= i < requestCount (simulation w))
            (activeIds (servers (simulation w))).
Proof.
  intros Hreach. destruct (reachable_ids fuel w Hreach) as (H1 & H2 & _). now split.
Qed.

Lemma active_ids_distinct_witness :
  NoDup (activeIds (servers (simulation Sample.world1)))
  /\ Forall (fun i => 0 <= i < requestCount (simulation Sample.world1))
            (activeIds (servers (simulation Sample.world1))).
Proof.
  apply (active_ids_distinct 1 Sample.world1). exact world1_reachable.
Defined.

(** ** Rejection counters *)

Lemma rejectedSum_alter_same (l : list Server.t) (i : nat) (f : Server.t -> Server.t) :
  (forall sv, Server.rejectedRequests (f sv) = Server.rejectedRequests sv) ->
  rejectedSum (alter f i l) = rejectedSum l.
Proof.
  intros Hf. unfold rejectedSum. revert i.
  induction l as [|x l IH]; intros [|i]; simpl; try reflexivity.
  - now rewrite Hf.
  - f_equal. apply IH.
Qed.

Lemma rejectedSum_alter_incr (l : list Server.t) (i : nat) (sv : Server.t) :
  l !! i = Some sv ->
  rejectedSum
    (alter (fun sv => Server.set_rejectedRequests (Server.rejectedRequests sv + 1) sv) i l)
  = rejectedSum l + 1.
Proof.
  unfold rejectedSum. revert i.
  induction l as [|x l IH]; intros [|i] Hl; simpl in Hl; try discriminate.
  - simpl. lia.
  - specialize (IH i Hl).
    change (Server.rejectedRequests x
            + foldr Z.add 0
                (map Server.rejectedRequests
                   (alter (fun sv =>
                             Server.set_rejectedRequests (Server.rejectedRequests sv + 1) sv)
                          i l))
            = Server.rejectedRequests x + foldr Z.add 0 (map Server.rejectedRequests l) + 1).
    lia.
Qed.

Lemma updateRequests_rejected (now : Z) (sv : Server.t) :
  Server.rejectedRequests (Server.updateRequests now sv) = Server.rejectedRequests sv.
Proof. apply (updateRequests_books now sv). Qed.

Lemma rejectedSum_update (now : Z) (l : list Server.t) :
  rejectedSum (map (Server.updateRequests now) l) = rejectedSum l.
Proof.
  unfold rejectedSum. rewrite map_map. f_equal. apply map_ext.
  intros sv. apply updateRequests_rejected.
Qed.

Lemma rejectedSum_replicate_new (n : nat) : rejectedSum (replicate n Server.new) = 0.
Proof. unfold rejectedSum. induction n as [|n IH]; simpl; [reflexivity | exact IH]. Qed.

Lemma rejectedSum_cleared (l : list Server.t) :
  rejectedSum (map (fun server => Server.set_rejectedRequests 0 (Server.set_requests [] server)) l)
  = 0.
Proof. unfold rejectedSum. induction l as [|x l IH]; simpl; [reflexivity | exact IH]. Qed.

Lemma rejectedSum_nonneg (l : list Server.t) :
  Forall (fun server => 0 <= Server.rejectedRequests server) l -> 0 <= rejectedSum l.
Proof.
  unfold rejectedSum. induction 1 as [|x l Hx _ IH]; simpl; lia.
Qed.

Lemma rejected_createRequest (now : Z) (w w' : World) (r : Js.Result unit) :
  createRequest now w = (r, w') ->
  (rejected_ok (simulation w) -> rejected_ok (simulation w'))
  /\ (rejectedSum (servers (simulation w)) = totalRejectedRequests (simulation w) ->
      rejectedSum (servers (simulation w')) = totalRejectedRequests (simulation w')).
Proof.
  intros Hrun.
  destruct (createRequest_cases now w w' r Hrun)
    as [[-> _] | (rt & idx & server & _ & _ & Hidx & _ & [[_ ->] | [_ ->]])];
    unfold rejected_ok;
    cbn [servers totalRejectedRequests set_servers set_currentServerIndex set_requestCount
         set_totalRejectedRequests].
  - split; intros H; exact H.
  - rewrite rejectedSum_alter_same by reflexivity.
    split; [|intros H; exact H]. intros [Hpos Hsum]. split; [|exact Hsum].
    apply Forall_alter; [exact Hpos|]. intros x _ Hx. exact Hx.
  - apply index_inv in Hidx as [_ Hl]. rewrite (rejectedSum_alter_incr _ _ _ Hl).
    split; [|intros H; lia]. intros [Hpos Hsum]. split; [|lia].
    apply Forall_alter; [exact Hpos|]. intros x _ Hx. simpl. lia.
Qed.

Lemma reachable_rejected (fuel : nat) (w : World) : reachable fuel w -> rejected_ok (simulation w).
Proof.
  apply reachable_invariant.
  - intros a now. unfold rejected_ok.
    destruct (animate_frame now (initializeServers (mk a 4 [] 0 0 [] [] 50 0)))
      as (H1 & _ & _ & _ & H5 & _).
    unfold constructor. rewrite H1, H5. simpl. split; [repeat constructor; discriminate|].
    discriminate.
  - intros now w0 r w' _ Hok Hrun. now apply (rejected_createRequest now w0 w' r Hrun).
  - intros s Hok. destruct (updateStatsDisplay_frame s) as (K1 & _ & _ & _ & K5 & _).
    unfold rejected_ok. now rewrite K1, K5.
  - intros now s [Hpos Hsum]. destruct (animate_frame now s) as (K1 & _ & _ & _ & K5 & _).
    unfold rejected_ok. rewrite K1, K5, rejectedSum_update. split; [|exact Hsum].
    apply Forall_map. eapply Forall_impl; [exact Hpos|].
    intros sv Hsv. cbv beta. now rewrite updateRequests_rejected.
  - intros count s [Hpos Hsum]. unfold rejected_ok, setNumServers, initializeServers.
    cbn [servers totalRejectedRequests set_servers set_currentServerIndex set_numServers].
    rewrite rejectedSum_replicate_new. split.
    + apply Forall_replicate. discriminate.
    + pose proof (rejectedSum_nonneg _ Hpos). lia.
  - intros a s H. exact H.
  - intros s _. unfold rejected_ok, clearRequests.
    cbn [servers totalRejectedRequests set_servers set_requestCount set_totalRejectedRequests].
    rewrite rejectedSum_cleared. split; [|discriminate].
    apply Forall_map. apply Forall_true. intros sv. simpl. discriminate.
Qed.

Lemma rejected_exec_eq (fuel : nat) (e : Event) (w w' : World) (r : Js.Result unit) :
  (forall count, e <> SetNumServers count) ->
  rejectedSum (servers (simulation w)) = totalRejectedRequests (simulation w) ->
  exec fuel e w = (r, w') ->
  rejectedSum (servers (simulation w')) = totalRejectedRequests (simulation w').
Proof.
  intros He Heq Hrun. destruct e; simpl in Hrun.
  - now apply (rejected_createRequest now w w' r Hrun).
  - injection Hrun as _ <-. cbn [simulation].
    destruct (animate_frame now (simulation w)) as (K1 & _ & _ & _ & K5 & _).
    now rewrite K1, K5, rejectedSum_update.
  - now destruct (He count).
  - injection Hrun as _ <-. exact Heq.
  - injection Hrun as _ <-. unfold clearRequests.
    cbn [simulation servers totalRejectedRequests set_servers set_requestCount
         set_totalRejectedRequests].
    apply rejectedSum_cleared.
  - injection Hrun as _ <-. unfold resetSimulation, clearRequests.
    cbn [simulation servers totalRejectedRequests set_servers set_requestCount
         set_totalRejectedRequests].
    apply rejectedSum_cleared.
  - injection Hrun as _ <-. cbn [simulation].
    destruct (updateStatsDisplay_frame (simulation w)) as (K1 & _ & _ & _ & K5 & _).
    now rewrite K1, K5.
Qed.

(** X11: in every observable state no server's rejection counter is
    negative and their sum is at most the simulation-wide counter.  The two
    agree as long as the server count is not changed: every operation but
    [setNumServers] (which drops the servers' counters and keeps the
    simulation-wide one) turns a state where they are equal into one where
    they are equal. *)
Theorem rejection_counters_consistent (fuel : nat) (w : World) :
  reachable fuel w ->
  Forall (fun server => 0 <= Server.rejectedRequests server) (servers (simulation w))
  /\ rejectedSum (servers (simulation w)) <= totalRejectedRequests (simulation w)
  /\ (forall (e : Event) (r : Js.Result unit) (w' : World),
        (forall count, e <> SetNumServers count) ->
        rejectedSum (servers (simulation w)) = totalRejectedRequests (simulation w) ->
        exec fuel e w = (r, w') ->
        rejectedSum (servers (simulation w')) = totalRejectedRequests (simulation w')).
Proof.
  intros Hreach. destruct (reachable_rejected fuel w Hreach) as [H1 H2].
  split; [exact H1|]. split; [exact H2|].
  intros e r w' He Heq Hrun. eapply rejected_exec_eq; eassumption.
Qed.

Lemma rejection_counters_consistent_witness :
  Forall (fun server => 0 <= Server.rejectedRequests server) (servers (simulation Sample.world1))
  /\ rejectedSum (servers (simulation Sample.world1))
     <= totalRejectedRequests (simulation Sample.world1)
  /\ (forall (e : Event) (r : Js.Result unit) (w' : World),
        (forall count, e <> SetNumServers count) ->
        rejectedSum (servers (simulation Sample.world1))
        = totalRejectedRequests (simulation Sample.world1) ->
        exec 1 e Sample.world1 = (r, w') ->
        rejectedSum (servers (simulation w')) = totalRejectedRequests (simulation w')).
Proof.
  apply (rejection_counters_consistent 1 Sample.world1). exact world1_reachable.
Defined.

(** ** Counters only grow *)

Lemma totalTime_nonneg (l : list Request.t) :
  Forall request_ok l -> (0 <= totalTime l)%Q.
Proof.
  induction 1 as [|r l Hr _ IH]; [apply Qle_refl|].
  rewrite totalTime_cons. destruct Hr as (_ & _ & Hp).
  apply Qle_trans with (y := (0 + 0)%Q); [apply Qle_refl|].
  apply Qplus_le_compat; [|exact IH].
  apply Qle_trans with (y := 1%Q); [discriminate | exact Hp].
Qed.

Lemma counters_le_refl (sv : Server.t) : counters_le sv sv.
Proof. repeat split; try lia. apply Qle_refl. Qed.

Lemma updateRequests_counters_le (now : Z) (sv : Server.t) :
  Forall request_ok (Server.requests sv) -> counters_le sv (Server.updateRequests now sv).
Proof.
  intros Hreqs. destruct (updateRequests_books now sv) as (_ & _ & Hc & Ht & Hr & _).
  cbv zeta in *. unfold counters_le. rewrite Hc, Ht, Hr. split; [lia|]. split.
  - unfold Js.length. lia.
  - apply Qle_trans with (y := (Server.totalResponseTime sv + 0)%Q).
    + rewrite Qplus_0_r. apply Qle_refl.
    + apply Qplus_le_compat; [apply Qle_refl|].
      apply totalTime_nonneg. now apply Forall_filter_req.
Qed.

Lemma counters_createRequest (now : Z) (w w' : World) (r : Js.Result unit) :
  createRequest now w = (r, w') ->
  Forall2 counters_le (servers (simulation w)) (servers (simulation w'))
  /\ totalRejectedRequests (simulation w) <= totalRejectedRequests (simulation w').
Proof.
  intros Hrun.
  assert (Hdiag : Forall2 counters_le (servers (simulation w)) (servers (simulation w))).
  { apply Forall_Forall2_diag, Forall_true. exact counters_le_refl. }
  destruct (createRequest_cases now w w' r Hrun)
    as [[-> _] | (rt & idx & server & _ & _ & _ & _ & [[_ ->] | [_ ->]])];
    cbn [servers totalRejectedRequests set_servers set_currentServerIndex set_requestCount
         set_totalRejectedRequests].
  - split; [exact Hdiag | lia].
  - split; [|lia]. apply Forall2_alter_r; [exact Hdiag|].
    intros x y _ _ Hxy. exact Hxy.
  - split; [|lia]. apply Forall2_alter_r; [exact Hdiag|].
    intros x y _ _ (H1 & H2 & H3). unfold counters_le. simpl. repeat split; [lia | lia | exact H3].
Qed.

(** X12: creating a request, an animation frame, a statistics sample and a
    change of algorithm keep the servers and never lower a counter: for
    every server the rejected count, the completed count and the cumulative
    response time after the operation are at least what they were, and so is
    the simulation-wide rejection counter. *)
Theorem counters_never_decrease (fuel : nat) (e : Event) (w w' : World) (r : Js.Result unit) :
  reachable fuel w ->
  keepsServers e = true ->
  exec fuel e w = (r, w') ->
  Forall2 counters_le (servers (simulation w)) (servers (simulation w'))
  /\ totalRejectedRequests (simulation w) <= totalRejectedRequests (simulation w').
Proof.
  intros Hreach Hkeep Hrun.
  assert (Hdiag : Forall2 counters_le (servers (simulation w)) (servers (simulation w))).
  { apply Forall_Forall2_diag, Forall_true. exact counters_le_refl. }
  destruct e; simpl in Hkeep, Hrun; try discriminate.
  - now apply (counters_createRequest now w w' r Hrun).
  - injection Hrun as _ <-. cbn [simulation].
    destruct (animate_frame now (simulation w)) as (K1 & _ & _ & _ & K5 & _).
    rewrite K1, K5. split; [|lia].
    apply Forall2_fmap_r. apply Forall_Forall2_diag.
    destruct (reachable_ok fuel w Hreach) as [Hservers _].
    eapply Forall_impl; [exact Hservers|].
    intros sv (_ & _ & _ & Hreqs & _). now apply updateRequests_counters_le.
  - injection Hrun as _ <-. split; [exact Hdiag | cbn; lia].
  - injection Hrun as _ <-. cbn [simulation].
    destruct (updateStatsDisplay_frame (simulation w)) as (K1 & _ & _ & _ & K5 & _).
    rewrite K1, K5. split; [exact Hdiag | lia].
Qed.

Lemma counters_never_decrease_witness :
  Forall2 counters_le (servers (simulation Sample.world1))
          (servers (simulation (snd (exec 1 (Animate 900) Sample.world1))))
  /\ totalRejectedRequests (simulation Sample.world1)
     <= totalRejectedRequests (simulation (snd (exec 1 (Animate 900) Sample.world1))).
Proof.
  apply (counters_never_decrease 1 (Animate 900) Sample.world1 _
           (fst (exec 1 (Animate 900) Sample.world1))).
  - exact world1_reachable.
  - reflexivity.
  - apply surjective_pairing.
Defined.

(** ** Clearing *)

Lemma all_zero_score (l : list Server.t) (load : Server.t -> Z) :
  Forall (fun server => load server = 0) l ->
  calculateBalanceScore (map (fun server => inject_Z (load server)) l) = 100.
Proof.
  intros Hall. apply calculateBalanceScore_zero_mean, average_zero.
  apply Forall_map. eapply Forall_impl; [exact Hall|].
  intros sv Hsv. cbv beta. now rewrite Hsv.
Qed.

(** X13: [clearRequests] empties every server's active set and zeroes its
    rejection counter, but keeps its completed count and cumulative response
    time; it zeroes the request counter and the simulation-wide rejection
    counter and keeps the server count, the cursor and the algorithm.  The
    next statistics sample scores 100 for cpu and for memory. *)
Theorem clearRequests_effect (s : t) :
  Forall2 (fun before after =>
             Server.requests after = []
             /\ Server.rejectedRequests after = 0
             /\ Server.completedRequests after = Server.completedRequests before
             /\ Server.totalResponseTime after = Server.totalResponseTime before)
          (servers s) (servers (clearRequests s))
  /\ requestCount (clearRequests s) = 0
  /\ totalRejectedRequests (clearRequests s) = 0
  /\ numServers (clearRequests s) = numServers s
  /\ currentServerIndex (clearRequests s) = currentServerIndex s
  /\ algorithm (clearRequests s) = algorithm s
  /\ sampledCpuBalance (clearRequests s) = 100
  /\ sampledMemoryBalance (clearRequests s) = 100.
Proof.
  unfold clearRequests, sampledCpuBalance, sampledMemoryBalance.
  cbn [servers requestCount totalRejectedRequests numServers currentServerIndex algorithm
       set_servers set_requestCount set_totalRejectedRequests].
  split; [|repeat split].
  - apply Forall2_fmap_r, Forall_Forall2_diag, Forall_true. intros sv. repeat split.
  - apply (all_zero_score _ (fun server => Server.cpu (Server.getCurrentLoad server))).
    apply Forall_map, Forall_true. intros sv. reflexivity.
  - apply (all_zero_score _ (fun server => Server.memory (Server.getCurrentLoad server))).
    apply Forall_map, Forall_true. intros sv. reflexivity.
Qed.

(** ** More on the balance score and its history *)





Lemma samples_ok (n : nat) (s : t) :
  simulation_ok s -> simulation_ok (Nat.iter n updateStatsDisplay s).
Proof.
  intros Hok. induction n as [|n IH]; [exact Hok|].
  simpl. now apply updateStatsDisplay_ok.
Qed.

(** X15: after [n] further statistics samples each balance history holds
    [min(50, length + n)] entries: it grows by one per sample up to 50 and
    stays there. *)
Theorem history_length_after_samples (fuel : nat) (w : World) (n : nat) :
  reachable fuel w ->
  let s := simulation w in
  let s' := Nat.iter n updateStatsDisplay s in
  List.length (cpuBalanceHistory s') = Nat.min 50 (List.length (cpuBalanceHistory s) + n)
  /\ List.length (memoryBalanceHistory s')
     = Nat.min 50 (List.length (memoryBalanceHistory s) + n).
Proof.
  intros Hreach. cbv zeta. pose proof (reachable_ok fuel w Hreach) as Hok.
  induction n as [|n [IHc IHm]].
  - destruct Hok as [_ (_ & Hlen & Hcap)]. unfold Js.length in Hcap.
    cbn [Nat.iter nat_rect]. lia.
  - pose proof (samples_ok n _ Hok) as [_ Hhist].
    destruct (updateStatsDisplay_history _ Hhist) as (Hc & Hm & _).
    destruct Hhist as (_ & Hlen & Hcap).
    assert (Hcap' : Js.length (memoryBalanceHistory (Nat.iter n updateStatsDisplay (simulation w)))
                    <= 50) by (unfold Js.length in *; lia).
    destruct (pushed_length _ (sampledCpuBalance (Nat.iter n updateStatsDisplay (simulation w)))
                Hcap) as [_ Hc'].
    destruct (pushed_length _ (sampledMemoryBalance (Nat.iter n updateStatsDisplay (simulation w)))
                Hcap') as [_ Hm'].
    change (Nat.iter (S n) updateStatsDisplay (simulation w))
      with (updateStatsDisplay (Nat.iter n updateStatsDisplay (simulation w))).
    rewrite Hc, Hm, Hc', Hm'. unfold Js.length in *.
    split.
    + destruct (Z.eqb_spec (Z.of_nat (List.length
                 (cpuBalanceHistory (Nat.iter n updateStatsDisplay (simulation w))))) 50); lia.
    + destruct (Z.eqb_spec (Z.of_nat (List.length
                 (memoryBalanceHistory (Nat.iter n updateStatsDisplay (simulation w))))) 50); lia.
Qed.

Lemma history_length_after_samples_witness :
  let s := simulation Sample.world1 in
  let s' := Nat.iter 60 updateStatsDisplay s in
  List.length (cpuBalanceHistory s') = Nat.min 50 (List.length (cpuBalanceHistory s) + 60)
  /\ List.length (memoryBalanceHistory s')
     = Nat.min 50 (List.length (memoryBalanceHistory s) + 60).
Proof.
  apply (history_length_after_samples 1 Sample.world1 60). exact world1_reachable.
Defined.

(** ** Loads *)

Lemma sum_perm (f : Request.t -> Z) (l l' : list Request.t) :
  l ≡ₚ l' ->
  fold_left (fun sum req => sum + f req) l 0 = fold_left (fun sum req => sum + f req) l' 0.
Proof.
  induction 1 as [|x l l' _ IH|x y l|l l' l'' _ IH1 _ IH2]; simpl.
  - reflexivity.
  - rewrite (sum_shift f l (0 + f x)), (sum_shift f l' (0 + f x)). lia.
  - rewrite (sum_shift f l (0 + f y + f x)), (sum_shift f l (0 + f x + f y)). lia.
  - congruence.
Qed.

(** X16: the load of a server does not depend on the order of its active
    requests: two servers with the same capacity whose active requests are
    permutations of each other have the same cpu and memory load and accept
    the same requests. *)
Theorem load_order_independent (s s' : Server.t) (request : Request.t) :
  Server.requests s ≡ₚ Server.requests s' ->
  Server.maxCpu s = Server.maxCpu s' ->
  Server.maxMemory s = Server.maxMemory s' ->
  Server.getCurrentLoad s = Server.getCurrentLoad s'
  /\ Server.canHandleRequest s request = Server.canHandleRequest s' request.
Proof.
  intros Hperm Hcpu Hmem.
  assert (Hload : Server.getCurrentLoad s = Server.getCurrentLoad s').
  { unfold Server.getCurrentLoad. cbv zeta.
    now rewrite (sum_perm Request.cpuLoad _ _ Hperm), (sum_perm Request.memoryLoad _ _ Hperm). }
  split; [exact Hload|].
  unfold Server.canHandleRequest. cbv zeta. now rewrite Hload, Hcpu, Hmem.
Qed.

Lemma load_order_independent_witness :
  Server.getCurrentLoad (Server.set_requests [Sample.red 1; Sample2.slow] Server.new)
  = Server.getCurrentLoad (Server.set_requests [Sample2.slow; Sample.red 1] Server.new)
  /\ Server.canHandleRequest (Server.set_requests [Sample.red 1; Sample2.slow] Server.new)
       (Sample.green 7)
     = Server.canHandleRequest (Server.set_requests [Sample2.slow; Sample.red 1] Server.new)
         (Sample.green 7).
Proof.
  apply load_order_independent; [apply Permutation_swap | reflexivity | reflexivity].
Defined.

(** X17: adding a request raises the server's cpu and memory load by exactly
    the request's demand and touches nothing else; and a request that the
    server could take before a reclamation can still be taken after it, as
    long as no active request has a negative demand. *)
Theorem load_after_add_and_reclaim (now : Z) (s : Server.t) (request other : Request.t) :
  Forall (fun req => 0 <= Request.cpuLoad req /\ 0 <= Request.memoryLoad req)
         (Server.requests s) ->
  Server.cpu (Server.getCurrentLoad (Server.addRequest s request))
  = Server.cpu (Server.getCurrentLoad s) + Request.cpuLoad request
  /\ Server.memory (Server.getCurrentLoad (Server.addRequest s request))
     = Server.memory (Server.getCurrentLoad s) + Request.memoryLoad request
  /\ Server.cpu (Server.getCurrentLoad (Server.updateRequests now s))
     <= Server.cpu (Server.getCurrentLoad s)
  /\ Server.memory (Server.getCurrentLoad (Server.updateRequests now s))
     <= Server.memory (Server.getCurrentLoad s)
  /\ (Server.canHandleRequest s other = true ->
      Server.canHandleRequest (Server.updateRequests now s) other = true).
Proof.
  intros Hpos.
  assert (Hc : Server.cpu (Server.getCurrentLoad (Server.updateRequests now s))
               <= Server.cpu (Server.getCurrentLoad s)).
  { unfold Server.getCurrentLoad, Server.updateRequests.
    cbn [Server.cpu Server.requests Server.set_requests].
    apply sum_filter_le. eapply Forall_impl; [exact Hpos|]. intros r Hr. apply Hr. }
  assert (Hm : Server.memory (Server.getCurrentLoad (Server.updateRequests now s))
               <= Server.memory (Server.getCurrentLoad s)).
  { unfold Server.getCurrentLoad, Server.updateRequests.
    cbn [Server.memory Server.requests Server.set_requests].
    apply sum_filter_le. eapply Forall_impl; [exact Hpos|]. intros r Hr. apply Hr. }
  split; [|split; [|split; [exact Hc | split; [exact Hm|]]]].
  - unfold Server.getCurrentLoad, Server.addRequest.
    cbn [Server.cpu Server.requests Server.set_requests]. apply sum_snoc.
  - unfold Server.getCurrentLoad, Server.addRequest.
    cbn [Server.memory Server.requests Server.set_requests]. apply sum_snoc.
  - unfold Server.canHandleRequest. cbv zeta. rewrite !andb_true_iff, !Z.leb_le.
    destruct (recordCompletion_counts
                (List.filter (Request.isComplete now) (Server.requests s)) s)
      as (_ & _ & _ & _ & H5 & H6).
    assert (Hcpu : Server.maxCpu (Server.updateRequests now s) = Server.maxCpu s) by exact H5.
    assert (Hmem : Server.maxMemory (Server.updateRequests now s) = Server.maxMemory s)
      by exact H6.
    rewrite Hcpu, Hmem. lia.
Qed.

Lemma load_after_add_and_reclaim_witness :
  Server.cpu (Server.getCurrentLoad (Server.addRequest Sample2.two (Sample.green 7)))
  = Server.cpu (Server.getCurrentLoad Sample2.two) + Request.cpuLoad (Sample.green 7)
  /\ Server.memory (Server.getCurrentLoad (Server.addRequest Sample2.two (Sample.green 7)))
     = Server.memory (Server.getCurrentLoad Sample2.two) + Request.memoryLoad (Sample.green 7)
  /\ Server.cpu (Server.getCurrentLoad (Server.updateRequests 50 Sample2.two))
     <= Server.cpu (Server.getCurrentLoad Sample2.two)
  /\ Server.memory (Server.getCurrentLoad (Server.updateRequests 50 Sample2.two))
     <= Server.memory (Server.getCurrentLoad Sample2.two)
  /\ (Server.canHandleRequest Sample2.two (Sample.red 8) = true ->
      Server.canHandleRequest (Server.updateRequests 50 Sample2.two) (Sample.red 8) = true).
Proof.
  apply (load_after_add_and_reclaim 50 Sample2.two (Sample.green 7) (Sample.red 8)).
  repeat constructor; discriminate.
Defined.

(** ** The minimising algorithms *)

(** X18: on a non-empty list the least-requests algorithm returns the
    lowest index among the servers with the fewest active requests: no
    server has fewer than the selected one, and every server before it has
    strictly more.  The random source is left untouched. *)
Theorem LeastRequests_selects_first_minimum (servers : list Server.t) (cursor : Z)
    (g : Math.RandState) :
  servers <> [] ->
  exists idx s,
    LeastRequestsAlgorithm.selectServer servers cursor g = (Js.Return idx, g)
    /\ Js.index servers idx = Some s
    /\ (forall (j : nat) (t : Server.t),
          servers !! j = Some t ->
          Js.length (Server.requests s) <= Js.length (Server.requests t))
    /\ (forall (j : nat) (t : Server.t),
          servers !! j = Some t -> (j < Z.to_nat idx)%nat ->
          Js.length (Server.requests s) < Js.length (Server.requests t)).
Proof.
  intros Hne.
  destruct (LeastRequests_first_min servers cursor g Hne) as (idx & s & Hrun & Hs & Hmin & Hfirst).
  exists idx, s. split; [exact Hrun|]. split; [exact Hs|]. split.
  - intros j t Hj. apply Z.ltb_ge. eauto.
  - intros j t Hj Hlt. apply Z.ltb_lt. eauto.
Qed.

Lemma LeastRequests_selects_first_minimum_witness :
  exists idx s,
    LeastRequestsAlgorithm.selectServer [Sample2.two; Sample2.one; Sample.busy; Sample2.one] 2
      Sample.zeros
    = (Js.Return idx, Sample.zeros)
    /\ Js.index [Sample2.two; Sample2.one; Sample.busy; Sample2.one] idx = Some s
    /\ (forall (j : nat) (t : Server.t),
          [Sample2.two; Sample2.one; Sample.busy; Sample2.one] !! j = Some t ->
          Js.length (Server.requests s) <= Js.length (Server.requests t))
    /\ (forall (j : nat) (t : Server.t),
          [Sample2.two; Sample2.one; Sample.busy; Sample2.one] !! j = Some t ->
          (j < Z.to_nat idx)%nat ->
          Js.length (Server.requests s) < Js.length (Server.requests t)).
Proof.
  apply LeastRequests_selects_first_minimum. discriminate.
Defined.

(** X19: on a non-empty list the dynamic algorithm returns the lowest index
    among the servers with the least cpu load: no server has a lower load
    than the selected one, and every server before it has a strictly
    higher one.  The random source is left untouched. *)
Theorem Dynamic_selects_first_minimum (servers : list Server.t) (cursor : Z)
    (g : Math.RandState) :
  servers <> [] ->
  exists idx s,
    DynamicAlgorithm.selectServer servers cursor g = (Js.Return idx, g)
    /\ Js.index servers idx = Some s
    /\ (forall (j : nat) (t : Server.t),
          servers !! j = Some t ->
          Server.cpu (Server.getCurrentLoad s) <= Server.cpu (Server.getCurrentLoad t))
    /\ (forall (j : nat) (t : Server.t),
          servers !! j = Some t -> (j < Z.to_nat idx)%nat ->
          Server.cpu (Server.getCurrentLoad s) < Server.cpu (Server.getCurrentLoad t)).
Proof.
  intros Hne.
  destruct (Dynamic_first_min servers cursor g Hne) as (idx & s & Hrun & Hs & Hmin & Hfirst).
  exists idx, s. split; [exact Hrun|]. split; [exact Hs|]. split.
  - intros j t Hj. apply Z.ltb_ge. exact (Hmin j t Hj).
  - intros j t Hj Hlt. apply Z.ltb_lt. exact (Hfirst j t Hj Hlt).
Qed.

Lemma Dynamic_selects_first_minimum_witness :
  exists idx s,
    DynamicAlgorithm.selectServer [Sample.busy; Sample2.two; Sample2.one] 0 Sample.zeros
    = (Js.Return idx, Sample.zeros)
    /\ Js.index [Sample.busy; Sample2.two; Sample2.one] idx = Some s
    /\ (forall (j : nat) (t : Server.t),
          [Sample.busy; Sample2.two; Sample2.one] !! j = Some t ->
          Server.cpu (Server.getCurrentLoad s) <= Server.cpu (Server.getCurrentLoad t))
    /\ (forall (j : nat) (t : Server.t),
          [Sample.busy; Sample2.two; Sample2.one] !! j = Some t -> (j < Z.to_nat idx)%nat ->
          Server.cpu (Server.getCurrentLoad s) < Server.cpu (Server.getCurrentLoad t)).
Proof.
  apply Dynamic_selects_first_minimum. discriminate.
Defined.

(** ** The round-robin cursor *)

(** X20: on a non-empty list the round-robin scan answers from its first
    candidate and leaves the random source untouched.  A cursor that is not
    negative is answered by its remainder modulo the number of servers;
    a negative cursor that is not a multiple of that number makes the scan
    read a missing server and throw a [TypeError]. *)
Theorem RoundRobin_cursor_edges (servers : list Server.t) (cursor : Z) (g : Math.RandState) :
  servers <> [] ->
  (0 <= cursor ->
   RoundRobinAlgorithm.selectServer servers cursor g
   = (Js.Return (cursor mod Js.length servers), g))
  /\ (cursor < 0 -> Z.rem cursor (Js.length servers) <> 0 ->
      RoundRobinAlgorithm.selectServer servers cursor g = (Js.TypeError, g)).
Proof.
  intros Hne. pose proof (length_pos servers Hne) as Hlen.
  unfold RoundRobinAlgorithm.selectServer.
  destruct servers as [|server rest]; [congruence|].
  change (List.length (server :: rest)) with (S (List.length rest)).
  cbn [RoundRobinAlgorithm.loop]. unfold Js.rem. rewrite Z.add_0_r.
  split.
  - intros Hc. rewrite Z.rem_mod_nonneg by lia.
    destruct (index_Some (server :: rest) (cursor mod Js.length (server :: rest)))
      as (x & -> & _); [apply Z.mod_pos_bound; lia | reflexivity].
  - intros Hc Hrem.
    assert (Hc' : cursor <= 0) by lia.
    pose proof (Z.rem_bound_pos_neg cursor (Js.length (server :: rest)) Hlen Hc') as Hb.
    assert (Hnone : Js.index (server :: rest) (Z.rem cursor (Js.length (server :: rest))) = None)
      by (apply index_None; lia).
    now rewrite Hnone.
Qed.

Lemma RoundRobin_cursor_edges_witness :
  RoundRobinAlgorithm.selectServer [Sample.busy; Server.new; Sample2.one] 7 Sample.zeros
  = (Js.Return (7 mod Js.length [Sample.busy; Server.new; Sample2.one]), Sample.zeros)
  /\ RoundRobinAlgorithm.selectServer [Sample.busy; Server.new; Sample2.one] (-1) Sample.zeros
     = (Js.TypeError, Sample.zeros).
Proof.
  split.
  - apply (RoundRobin_cursor_edges [Sample.busy; Server.new; Sample2.one] 7 Sample.zeros);
      discriminate.
  - apply (RoundRobin_cursor_edges [Sample.busy; Server.new; Sample2.one] (-1) Sample.zeros);
      [discriminate | reflexivity | discriminate].
Defined.

(** ** The requests a server hosts *)

Lemma builtRequest_typed (now : Z) (w : World) (requestType : RequestType) :
  In requestType requestTypes -> request_typed (builtRequest now w requestType).
Proof.
  intros Hin. unfold request_typed, builtRequest.
  cbn [Request.cpuLoad Request.memoryLoad Request.processingTime].
  destruct (draw_bounds (randomSource w 1%nat)) as [H0 H1].
  split; [now destruct requestType|]. split.
  - apply Qle_trans with (y := (0 + 1)%Q); [discriminate|].
    apply Qplus_le_compat; [|apply Qle_refl].
    apply Qmult_le_0_compat; [exact H0 | discriminate].
  - apply Qlt_le_trans with (y := (1 * 499 + 1)%Q); [|discriminate].
    apply Qplus_lt_le_compat; [|apply Qle_refl].
    apply Qmult_lt_compat_r; [reflexivity | exact H1].
Qed.

Lemma typed_update (now : Z) (sv : Server.t) :
  Forall request_typed (Server.requests sv) ->
  Forall request_typed (Server.requests (Server.updateRequests now sv)).
Proof.
  intros H. unfold Server.updateRequests. cbn [Server.requests Server.set_requests].
  now apply Forall_filter_req.
Qed.

Lemma typed_createRequest (now : Z) (w w' : World) (r : Js.Result unit) :
  typed_ok (simulation w) -> createRequest now w = (r, w') -> typed_ok (simulation w').
Proof.
  intros Hok Hrun.
  destruct (createRequest_cases now w w' r Hrun)
    as [[-> _] | (rt & idx & server & Hin & _ & _ & _ & [[_ ->] | [_ ->]])];
    unfold typed_ok;
    cbn [servers set_servers set_currentServerIndex set_requestCount set_totalRejectedRequests].
  - exact Hok.
  - apply Forall_alter; [exact Hok|]. intros x _ Hx.
    unfold Server.addRequest. cbn [Server.requests Server.set_requests].
    apply Forall_app. split; [exact Hx|]. constructor; [|constructor].
    now apply builtRequest_typed.
  - apply Forall_alter; [exact Hok|]. intros x _ Hx. exact Hx.
Qed.

Lemma reachable_typed (fuel : nat) (w : World) : reachable fuel w -> typed_ok (simulation w).
Proof.
  apply reachable_invariant.
  - intros a now. unfold typed_ok.
    destruct (animate_frame now (initializeServers (mk a 4 [] 0 0 [] [] 50 0))) as (H1 & _).
    unfold constructor. rewrite H1. apply Forall_map.
    unfold initializeServers. cbn [servers set_servers numServers].
    apply Forall_replicate. cbv beta. apply typed_update. constructor.
  - intros now w0 r w' _ Hok Hrun. eapply typed_createRequest; eassumption.
  - intros s Hok. destruct (updateStatsDisplay_frame s) as (K1 & _).
    unfold typed_ok. now rewrite K1.
  - intros now s Hok. destruct (animate_frame now s) as (K1 & _).
    unfold typed_ok. rewrite K1. apply Forall_map.
    eapply Forall_impl; [exact Hok|]. intros sv Hsv. cbv beta. now apply typed_update.
  - intros count s _. unfold typed_ok, setNumServers, initializeServers.
    cbn [servers set_servers set_currentServerIndex set_numServers].
    apply Forall_replicate. constructor.
  - intros a s H. exact H.
  - intros s _. unfold typed_ok, clearRequests.
    cbn [servers set_servers set_requestCount set_totalRejectedRequests].
    apply Forall_map, Forall_true. intros sv. constructor.
Qed.

Lemma catalogue_bounds (c m : Z) :
  In (mkType c m) requestTypes -> 4 <= c <= 10 /\ 3 <= m <= 8.
Proof.
  simpl. intros [E | [E | [E | [E | []]]]]; injection E as <- <-; lia.
Qed.

Lemma cpu_sum_lower (l : list Request.t) :
  Forall request_typed l ->
  4 * Js.length l <= fold_left (fun sum req => sum + Request.cpuLoad req) l 0.
Proof.
  unfold Js.length. induction 1 as [|r l Hr _ IH]; simpl fold_left; [simpl; lia|].
  rewrite (sum_shift Request.cpuLoad l (0 + Request.cpuLoad r)).
  destruct Hr as (Hin & _). apply catalogue_bounds in Hin.
  change (List.length (r :: l)) with (S (List.length l)). lia.
Qed.

(** X21: in every observable state each active request has the loads of one
    of the four catalogue types (cpu between 4 and 10, memory between 3 and
    8) and a duration of at least 1 ms and below 500 ms; hence no server
    ever hosts more than 25 requests. *)
Theorem active_requests_typed (fuel : nat) (w : World) :
  reachable fuel w ->
  Forall (fun server =>
            Forall (fun req =>
                      In (mkType (Request.cpuLoad req) (Request.memoryLoad req)) requestTypes
                      /\ 4 <= Request.cpuLoad req <= 10
                      /\ 3 <= Request.memoryLoad req <= 8
                      /\ (1 <= Request.processingTime req)%Q
                      /\ (Request.processingTime req < 500)%Q)
                   (Server.requests server)
            /\ Js.length (Server.requests server) <= 25)
         (servers (simulation w)).
Proof.
  intros Hreach. pose proof (reachable_typed fuel w Hreach) as Htyped.
  destruct (reachable_ok fuel w Hreach) as [Hservers _].
  unfold typed_ok in Htyped. rewrite Forall_forall in *.
  intros sv Hsv. specialize (Htyped sv Hsv). specialize (Hservers sv Hsv).
  split.
  - eapply Forall_impl; [exact Htyped|]. intros req (Hin & H1 & H500).
    pose proof (catalogue_bounds _ _ Hin). tauto.
  - destruct Hservers as (_ & _ & [Hcap _] & _).
    pose proof (cpu_sum_lower _ Htyped) as Hlow.
    unfold Server.getCurrentLoad in Hcap. cbn [Server.cpu] in Hcap. lia.
Qed.

Lemma active_requests_typed_witness :
  Forall (fun server =>
            Forall (fun req =>
                      In (mkType (Request.cpuLoad req) (Request.memoryLoad req)) requestTypes
                      /\ 4 <= Request.cpuLoad req <= 10
                      /\ 3 <= Request.memoryLoad req <= 8
                      /\ (1 <= Request.processingTime req)%Q
                      /\ (Request.processingTime req < 500)%Q)
                   (Server.requests server)
            /\ Js.length (Server.requests server) <= 25)
         (servers (simulation Sample.world1)).
Proof.
  apply (active_requests_typed 1 Sample.world1). exact world1_reachable.
Defined.

(** X22: an animation frame leaves no finished request behind: after a frame
    at clock value [now] no server hosts a request that is complete at
    [now].  In an observable state whose active requests all started at
    least 500 ms before [now], the frame leaves every server idle. *)
Theorem frame_reclaims (fuel : nat) (w : World) (now : Z) :
  reachable fuel w ->
  Forall (fun server => Forall (fun req => Request.isComplete now req = false)
                               (Server.requests server))
         (servers (animate now (simulation w)))
  /\ (Forall (fun server => Forall (fun req => Request.startTime req + 500 <= now)
                                   (Server.requests server))
             (servers (simulation w)) ->
      Forall (fun server => Server.requests server = [])
             (servers (animate now (simulation w)))).
Proof.
  intros Hreach. destruct (animate_frame now (simulation w)) as (K1 & _). rewrite K1.
  split.
  - apply Forall_map, Forall_true. intros sv. apply (updateRequests_books now sv).
  - intros Hold. pose proof (reachable_typed fuel w Hreach) as Htyped.
    unfold typed_ok in Htyped. apply Forall_map.
    rewrite Forall_forall in *. intros sv Hsv. cbv beta.
    specialize (Hold sv Hsv). specialize (Htyped sv Hsv).
    unfold Server.updateRequests. cbn [Server.requests Server.set_requests].
    induction (Server.requests sv) as [|req l IH]; [reflexivity|].
    inversion Hold as [|? ? Hreq Hl]; subst. inversion Htyped as [|? ? Hty Htl]; subst.
    cbn [List.filter].
    assert (Hdone : Request.isComplete now req = true).
    { unfold Request.isComplete. apply Qle_bool_iff. destruct Hty as (_ & _ & H500).
      apply Qle_trans with (y := 500%Q); [now apply Qlt_le_weak|].
      change 500%Q with (inject_Z 500). rewrite <- Zle_Qle. lia. }
    rewrite Hdone. cbn [negb]. now apply IH.
Qed.

Lemma frame_reclaims_witness :
  Forall (fun server => Forall (fun req => Request.isComplete 900 req = false)
                               (Server.requests server))
         (servers (animate 900 (simulation Sample.world1)))
  /\ (Forall (fun server => Forall (fun req => Request.startTime req + 500 <= 900)
                                   (Server.requests server))
             (servers (simulation Sample.world1)) ->
      Forall (fun server => Server.requests server = [])
             (servers (animate 900 (simulation Sample.world1)))).
Proof.
  apply (frame_reclaims 1 Sample.world1 900). exact world1_reachable.
Defined.

(** ** Averages, time and the server count *)

(** X23: in every observable state a server's average response time is 0
    exactly when it has completed no request, and at least 1 ms otherwise. *)
Theorem average_response_time_range (fuel : nat) (w : World) :
  reachable fuel w ->
  Forall (fun server =>
            ((Server.getAverageResponseTime server == 0)%Q
             <-> Server.completedRequests server = 0)
            /\ (Server.completedRequests server <> 0 ->
                (1 <= Server.getAverageResponseTime server)%Q))
         (servers (simulation w)).
Proof.
  intros Hreach. destruct (reachable_ok fuel w Hreach) as [Hservers _].
  eapply Forall_impl; [exact Hservers|]. intros sv (_ & _ & _ & _ & Hcnt).
  assert (Hge : Server.completedRequests sv <> 0 -> (1 <= Server.getAverageResponseTime sv)%Q).
  { intros Hne. unfold Server.getAverageResponseTime.
    destruct (Z.eqb_spec (Server.completedRequests sv) 0) as [E|_]; [contradiction|].
    destruct Hcnt as [Hc Ht]. apply Qle_shift_div_l.
    - change 0%Q with (inject_Z 0). rewrite <- Zlt_Qlt. lia.
    - now rewrite Qmult_1_l. }
  split; [|exact Hge]. split.
  - intros Hzero. destruct (Z.eq_dec (Server.completedRequests sv) 0) as [E|E]; [exact E|].
    specialize (Hge E). rewrite Hzero in Hge. exfalso. apply Hge. reflexivity.
  - intros E. unfold Server.getAverageResponseTime. rewrite E. reflexivity.
Qed.

Lemma average_response_time_range_witness :
  Forall (fun server =>
            ((Server.getAverageResponseTime server == 0)%Q
             <-> Server.completedRequests server = 0)
            /\ (Server.completedRequests server <> 0 ->
                (1 <= Server.getAverageResponseTime server)%Q))
         (servers (simulation Sample.world1)).
Proof.
  apply (average_response_time_range 1 Sample.world1). exact world1_reachable.
Defined.

(** X24: time only moves a request forward: a request that is complete at
    one clock value is complete at every later one, and the progress of a
    request with a positive duration never decreases as the clock grows. *)
Theorem progress_monotone (now now' : Z) (req : Request.t) :
  now <= now' ->
  (Request.isComplete now req = true -> Request.isComplete now' req = true)
  /\ ((0 < Request.processingTime req)%Q ->
      (Request.getProgress now req <= Request.getProgress now' req)%Q).
Proof.
  intros Hle. split; [now apply isComplete_later|].
  intros Hp. unfold Request.getProgress. apply Q.min_le_compat_l.
  unfold Qdiv. apply Qmult_le_compat_r.
  - rewrite <- Zle_Qle. lia.
  - apply Qinv_le_0_compat. now apply Qlt_le_weak.
Qed.

Lemma progress_monotone_witness :
  (Request.isComplete 120 Sample2.slow = true -> Request.isComplete 300 Sample2.slow = true)
  /\ ((0 < Request.processingTime Sample2.slow)%Q ->
      (Request.getProgress 120 Sample2.slow <= Request.getProgress 300 Sample2.slow)%Q).
Proof.
  apply (progress_monotone 120 300 Sample2.slow). discriminate.
Defined.

(** X25: [setNumServers(count)] replaces the servers by [count] new idle
    ones (none for a count of 0 or below) and puts the cursor at 0; it keeps
    the request counter, the simulation-wide rejection counter, the
    algorithm and both balance histories.  The next statistics sample scores
    100 for cpu and for memory. *)
Theorem setNumServers_effect (count : Z) (s : t) :
  servers (setNumServers count s) = replicate (Z.to_nat count) Server.new
  /\ (0 <= count -> Js.length (servers (setNumServers count s)) = count)
  /\ (count <= 0 -> servers (setNumServers count s) = [])
  /\ numServers (setNumServers count s) = count
  /\ currentServerIndex (setNumServers count s) = 0
  /\ requestCount (setNumServers count s) = requestCount s
  /\ totalRejectedRequests (setNumServers count s) = totalRejectedRequests s
  /\ algorithm (setNumServers count s) = algorithm s
  /\ cpuBalanceHistory (setNumServers count s) = cpuBalanceHistory s
  /\ memoryBalanceHistory (setNumServers count s) = memoryBalanceHistory s
  /\ sampledCpuBalance (setNumServers count s) = 100
  /\ sampledMemoryBalance (setNumServers count s) = 100.
Proof.
  unfold setNumServers, initializeServers, sampledCpuBalance, sampledMemoryBalance.
  cbn [servers numServers currentServerIndex requestCount totalRejectedRequests algorithm
       cpuBalanceHistory memoryBalanceHistory set_servers set_currentServerIndex set_numServers].
  split; [reflexivity|]. split; [|split; [|repeat split]].
  - intros H. unfold Js.length. rewrite length_replicate. lia.
  - intros H. replace (Z.to_nat count) with 0%nat by lia. reflexivity.
  - apply (all_zero_score _ (fun server => Server.cpu (Server.getCurrentLoad server))).
    apply Forall_replicate. reflexivity.
  - apply (all_zero_score _ (fun server => Server.memory (Server.getCurrentLoad server))).
    apply Forall_replicate. reflexivity.
Qed.
